(** * Batch transcription pipeline: a shallow embedding and its properties

    The development embeds [run-transcription-in-server.py] (and the
    functions it shares, word for word, with [youtube_whisper_transcript.py])
    as state-passing Rocq functions.  The file system is a finite map from
    paths to nodes, everything outside it (network, clock, GPU, the YouTube
    Data API, yt-dlp, Whisper) is an [External] record of oracles over a
    hidden state, and every [print] and every call of an oracle is recorded
    in a trace, so that "without invoking ..." is a statement about the
    trace. *)

From Stdlib Require Import ZArith Ascii String List QArith Lia.
From stdpp Require Import base option list strings gmap pretty.

Local Open Scope Z_scope.

(** ** Python runtime functions used by the scripts *)

Module Py.

(** [str.isspace] on one character, ASCII range.  The strings of the
    scripts are modelled as sequences of 8-bit characters; white space
    beyond ASCII (U+0085, U+00A0 and above) is outside the model, and
    what is stated of stripped text is stated for ASCII text. *)
Definition isspace (c : ascii) : bool :=
  let n := N_of_ascii c in
  ((9 <=? n) && (n <=? 13) || (28 <=? n) && (n <=? 32))%N.

Fixpoint lstrip (s : string) : string :=
  match s with
  | EmptyString => EmptyString
  | String c r => if isspace c then lstrip r else s
  end.

Fixpoint rstrip (s : string) : string :=
  match s with
  | EmptyString => EmptyString
  | String c r =>
      match rstrip r with
      | EmptyString => if isspace c then EmptyString else String c EmptyString
      | r' => String c r'
      end
  end.

(** [s.strip()] *)
Definition strip (s : string) : string := rstrip (lstrip s).

(** Truthiness of a [str]: the empty string is falsy. *)
Definition truthy (s : string) : bool :=
  match s with EmptyString => false | _ => true end.

Definition lower_ascii (c : ascii) : ascii :=
  let n := N_of_ascii c in
  if ((65 <=? n) && (n <=? 90))%N then ascii_of_N (n + 32) else c.

(** [s.lower()] *)
Fixpoint lower (s : string) : string :=
  match s with
  | EmptyString => EmptyString
  | String c r => String (lower_ascii c) (lower r)
  end.

(** [s.startswith(p)] *)
Fixpoint startswith (s p : string) : bool :=
  match p, s with
  | EmptyString, _ => true
  | String _ _, EmptyString => false
  | String a p', String b s' => if Ascii.eqb a b then startswith s' p' else false
  end.

(** [s.endswith(p)] *)
Fixpoint endswith (s p : string) : bool :=
  if String.eqb s p then true
  else match s with
       | EmptyString => false
       | String _ s' => endswith s' p
       end.

(** [sep.join(l)] *)
Fixpoint join (sep : string) (l : list string) : string :=
  match l with
  | [] => EmptyString
  | [x] => x
  | x :: r => x +:+ sep +:+ join sep r
  end.

(** [os.path.join(a, b)] of [posixpath]. *)
Definition os_path_join (a b : string) : string :=
  if startswith b "/" then b
  else if negb (truthy a) || endswith a "/" then a +:+ b
  else a +:+ "/" +:+ b.

(** Iterating over a file opened in text mode: the lines, each with its
    terminator, where "\r", "\n" and "\r\n" all end a line and are read
    as "\n" (universal newlines). *)
Fixpoint lines_from (cur : string) (s : string) : list string :=
  match s with
  | EmptyString => if truthy cur then [cur] else []
  | String c r =>
      if Ascii.eqb c "010" then (cur +:+ "
") :: lines_from EmptyString r
      else if Ascii.eqb c "013" then
        match r with
        | String d r' =>
            if Ascii.eqb d "010" then (cur +:+ "
") :: lines_from EmptyString r'
            else (cur +:+ "
") :: lines_from EmptyString r
        | EmptyString => [cur +:+ "
"]
        end
      else lines_from (cur +:+ String c EmptyString) r
  end.

Definition readlines (s : string) : list string := lines_from EmptyString s.

(** [l[i:i+n]] *)
Definition slice {A} (l : list A) (i n : nat) : list A := take n (drop i l).

(** [range(0, stop, step)] for a positive step: CPython computes its
    length as [(stop + step - 1) // step] and its k-th element as
    [k * step]. *)
Definition range_len (stop step : nat) : nat := ((stop + step - 1) / step)%nat.

Definition range (stop step : nat) : list nat :=
  (λ k, k * step)%nat <$> seq 0 (range_len stop step).

(** [a or b] on values that are [None] or a [str]. *)
Definition or_else (a b : option string) : option string :=
  match a with
  | Some s => if truthy s then a else b
  | None => b
  end.

Definition digit_value (c : ascii) : option Z :=
  let n := N_of_ascii c in
  if ((48 <=? n) && (n <=? 57))%N then Some (Z.of_N n - 48) else None.

(** The digits of a numeral; one underscore may stand between two
    digits.  [after_digit] tells that the character before was a
    digit. *)
Fixpoint digits_value (after_digit : bool) (s : string) (acc : Z)
  : option Z :=
  match s with
  | EmptyString => if after_digit then Some acc else None
  | String c r =>
      match digit_value c with
      | Some d => digits_value true r (10 * acc + d)
      | None =>
          if Ascii.eqb c "_" && after_digit then digits_value false r acc
          else None
      end
  end.

(** [int(s)] on a stripped string of ASCII characters: an optional sign
    and decimal digits, with single underscores between digits ([None]
    stands for [ValueError]).  A string with a character outside ASCII
    is refused. *)
Definition int (s : string) : option Z :=
  match s with
  | EmptyString => None
  | String "-" r => Z.opp <$> digits_value false r 0
  | String "+" r => digits_value false r 0
  | _ => digits_value false s 0
  end.

End Py.

(** ** UTF-8, the encoding the transcript file is opened with *)

Module Utf8.

(** A Python [str] holding arbitrary text is a sequence of code points. *)
Definition text := list Z.

Definition byte_char (b : Z) : ascii := ascii_of_N (Z.to_N b).

(** The bytes of one code point; lone surrogates cannot be encoded
    ([UnicodeEncodeError]). *)
Definition encode_point (c : Z) : option (list Z) :=
  if c <? 0 then None
  else if c <? 0x80 then Some [c]
  else if c <? 0x800 then
    Some [Z.lor 0xC0 (Z.shiftr c 6); Z.lor 0x80 (Z.land c 0x3F)]
  else if c <? 0x10000 then
    if (0xD800 <=? c) && (c <=? 0xDFFF) then None
    else Some [Z.lor 0xE0 (Z.shiftr c 12);
               Z.lor 0x80 (Z.land (Z.shiftr c 6) 0x3F);
               Z.lor 0x80 (Z.land c 0x3F)]
  else if c <? 0x110000 then
    Some [Z.lor 0xF0 (Z.shiftr c 18);
          Z.lor 0x80 (Z.land (Z.shiftr c 12) 0x3F);
          Z.lor 0x80 (Z.land (Z.shiftr c 6) 0x3F);
          Z.lor 0x80 (Z.land c 0x3F)]
  else None.

Fixpoint encode_bytes (t : text) : option (list Z) :=
  match t with
  | [] => Some []
  | c :: r =>
      match encode_point c, encode_bytes r with
      | Some b, Some bs => Some (b ++ bs)
      | _, _ => None
      end
  end.

Fixpoint string_of_bytes (l : list Z) : string :=
  match l with
  | [] => EmptyString
  | b :: r => String (byte_char b) (string_of_bytes r)
  end.

(** [t.encode("utf-8")], as the bytes that reach the file. *)
Definition encode (t : text) : option string :=
  string_of_bytes <$> encode_bytes t.

(** The code points of an ASCII literal. *)
Fixpoint of_ascii (s : string) : text :=
  match s with
  | EmptyString => []
  | String c r => Z.of_N (N_of_ascii c) :: of_ascii r
  end.

Definition LF : Z := 10.

End Utf8.

(** ** World, trace and the monad of the scripts *)

(** A node of the file system.  Only the node at a path is modelled: the
    directory tree above it and permissions are not. *)
Inductive node : Type :=
| File (content : string)
| Dir.

(** [fs] is the file system, [stdin] the lines still to be read by
    [input()], [ext] everything else the oracles depend on. *)
Record World (X : Type) : Type := mkWorld {
  fs : gmap string node;
  stdin : list string;
  ext : X
}.
Arguments mkWorld {X} _ _ _.
Arguments fs {X} _.
Arguments stdin {X} _.
Arguments ext {X} _.

Definition set_fs {X} (f : gmap string node) (w : World X) : World X :=
  mkWorld f (stdin w) (ext w).
Definition set_stdin {X} (l : list string) (w : World X) : World X :=
  mkWorld (fs w) l (ext w).
Definition set_ext {X} (x : X) (w : World X) : World X :=
  mkWorld (fs w) (stdin w) x.

(** What a call into a library gives back: a value, or an exception of
    class [Exception], carried as [str(e)]. *)
Inductive reply (A : Type) : Type :=
| Returned (a : A)
| Raised (msg : string).
Arguments Returned {A} _.
Arguments Raised {A} _.

(** The pieces of an f-string, in order: literal text and formatted
    values. *)
Inductive fpart : Type :=
| Lit (s : string)
| Str (s : string)
| OptStr (o : option string)
| Num (n : Z)
| StrList (l : list string).

Record segment : Type := mkSegment {
  seg_start : Q;
  seg_end : Q;
  seg_text : Utf8.text
}.

(** The value of [model.transcribe(...)]; only ["segments"] is read. *)
Record whisper_result : Type := mkResult {
  segments : list segment
}.

Record postprocessor : Type := mkPost {
  key : string;
  preferredcodec : string;
  preferredquality : string
}.

Record ydl_opts : Type := mkOpts {
  format : string;
  postprocessors : list postprocessor;
  outtmpl : string
}.

(** A [videos().list] response, as the JSON object it is: every key the
    script reads may be absent. *)
Record snippet : Type := mkSnippet {
  snippet_title : option string;
  snippet_publishedAt : option string
}.

Record content_details : Type := mkDetails {
  details_duration : option string
}.

Record item : Type := mkItem {
  item_id : option string;
  item_snippet : option snippet;
  item_contentDetails : option content_details
}.

Record response : Type := mkResponse {
  response_items : option (list item)
}.

Record video_info : Type := mkInfo {
  info_id : string;
  info_title : string;
  info_publishedAt : string;
  info_duration : string
}.

(** The trace: what was printed, which library calls were made, with
    what they gave back, and ([Acquire], [TranscribeCall]) each entry
    into one of the two steps of the pipeline, with its arguments. *)
Inductive event : Type :=
| Acquire (video_id output_path : string)
| TranscribeCall (audio_file video_id : string)
    (language_code : option string) (output_path : string)
    (auto_detect_language : bool) (gpu_id : Z)
| Print (line : list fpart)
| Input (prompt : string) (r : reply string)
| YdlDownload (opts : ydl_opts) (urls : list string) (r : reply unit)
| CudaIsAvailable (r : reply bool)
| CudaSetDevice (gpu_id : Z) (r : reply unit)
| CudaGetDeviceName (gpu_id : Z) (r : reply string)
| LoadModel (name device : string) (r : reply unit)
| Transcribe (audio_file : string) (language : option string)
    (r : reply whisper_result)
| Execute (part id : string) (r : reply response).

(** How a piece of Python ends. *)
Inductive outcome (A : Type) : Type :=
| Ret (a : A)
| Raise (e : string)
| SysExit (code : Z).
Arguments Ret {A} _.
Arguments Raise {A} _.
Arguments SysExit {A} _.

(** The collaborators outside the scripts.  Each oracle sees and may
    change the whole world; it raises only exceptions of class
    [Exception]. *)
Record External : Type := mkExternal {
  Hidden : Type;
  Model : Type;
  clock : Hidden → Hidden * string;
  ydl_download : ydl_opts → list string →
                 World Hidden → World Hidden * reply unit;
  cuda_is_available : World Hidden → World Hidden * reply bool;
  cuda_set_device : Z → World Hidden → World Hidden * reply unit;
  cuda_get_device_name : Z → World Hidden → World Hidden * reply string;
  whisper_load_model : string → string →
                       World Hidden → World Hidden * reply Model;
  model_transcribe : Model → string → option string →
                     World Hidden → World Hidden * reply whisper_result;
  videos_list_execute : string → string → string →
                        World Hidden → World Hidden * reply response
}.

Section Monad.
Context {X : Type}.

Definition M (A : Type) : Type :=
  World X → list event * World X * outcome A.

#[export] Instance M_ret : MRet M := λ A a w, ([], w, Ret a).

#[export] Instance M_bind : MBind M := λ A B f m w,
  match m w with
  | (t, w1, Ret a) => let '(t2, w2, r) := f a w1 in (t ++ t2, w2, r)
  | (t, w1, Raise e) => (t, w1, Raise e)
  | (t, w1, SysExit c) => (t, w1, SysExit c)
  end.

(** [raise Exception(msg)] *)
Definition raise {A} (msg : string) : M A := λ w, ([], w, Raise msg).

(** [sys.exit(code)] *)
Definition sys_exit {A} (code : Z) : M A := λ w, ([], w, SysExit code).

(** [try: body  except Exception as e: handler e]; [SystemExit] is not
    an [Exception] and passes through. *)
Definition try_except {A} (body : M A) (handler : string → M A) : M A :=
  λ w,
  match body w with
  | (t, w1, Raise e) => let '(t2, w2, r) := handler e w1 in (t ++ t2, w2, r)
  | other => other
  end.

Definition print (line : list fpart) : M unit :=
  λ w, ([Print line], w, Ret ()).

(** A library call: the oracle runs on the world, the call and its
    reply are traced, an exception of the library is raised here. *)
Definition call {A} (oracle : World X → World X * reply A)
    (ev : reply A → event) : M A :=
  λ w,
  let '(w1, r) := oracle w in
  match r with
  | Returned a => ([ev r], w1, Ret a)
  | Raised msg => ([ev r], w1, Raise msg)
  end.

(** [input(prompt)]: the next line of standard input, [EOFError] at its
    end. *)
Definition input (prompt : string) : M string :=
  λ w,
  match stdin w with
  | l :: rest => ([Input prompt (Returned l)], set_stdin rest w, Ret l)
  | [] => ([Input prompt (Raised "EOF when reading a line")], w,
           Raise "EOF when reading a line")
  end.

(** Entering a function of the pipeline. *)
Definition enter (ev : event) : M unit := λ w, ([ev], w, Ret ()).

(** [os.path.exists(p)] *)
Definition os_path_exists (p : string) : M bool :=
  λ w, ([], w, Ret (bool_decide (is_Some (fs w !! p)))).

(** [os.makedirs(p, exist_ok=True)] *)
Definition os_makedirs (p : string) : M unit :=
  λ w,
  if Py.truthy p then
    match fs w !! p with
    | Some Dir => ([], w, Ret ())
    | Some (File _) =>
        ([], w, Raise ("[Errno 17] File exists: '" +:+ p +:+ "'"))
    | None => ([], set_fs (<[p := Dir]> (fs w)) w, Ret ())
    end
  else ([], w, Raise "[Errno 2] No such file or directory: ''").

End Monad.

(** ** Specifications of scripts *)

Section Specs.
Context {X : Type}.

(** [tame P m]: [m] never leaves through [sys.exit] and emits only
    events of [P]. *)
Definition tame {A} (P : event → Prop) (m : @M X A) : Prop :=
  ∀ w t w' r, m w = (t, w', r) → Forall P t ∧ ∀ c, r ≠ SysExit c.

(** [emits P m]: [m] emits only events of [P]. *)
Definition emits {A} (P : event → Prop) (m : @M X A) : Prop :=
  ∀ w t w' r, m w = (t, w', r) → Forall P t.

(** [total P m]: [m] returns, whatever happens inside, and emits only
    events of [P]. *)
Definition total {A} (P : event → Prop) (m : @M X A) : Prop :=
  ∀ w t w' r, m w = (t, w', r) → Forall P t ∧ ∃ a, r = Ret a.

End Specs.

(** ** The functions of the scripts *)

Section Pipeline.
Context (E : External).

#[local] Abbreviation Script := (@M (Hidden E)).

(** [get_timestamp()]: reads the clock, which moves on. *)
Definition get_timestamp : Script string :=
  λ w, let '(x, s) := clock E (ext w) in ([], set_ext x w, Ret s).

(** The world after a timestamp was taken, and the timestamp. *)
Definition log_tick (w : World (Hidden E)) : World (Hidden E) :=
  set_ext (clock E (ext w)).1 w.

Definition stamp (w : World (Hidden E)) : string := (clock E (ext w)).2.

(** [get_language_code(selected_language)] *)
Definition language_map : list (string * string) :=
  [("Kannada", "kn"); ("Hindi", "hi"); ("Tamil", "ta"); ("Marathi", "mr");
   ("Gujarati", "gu"); ("Punjabi", "pa"); ("Bengali", "bn")].

Fixpoint dict_get (d : list (string * string)) (k : string) : option string :=
  match d with
  | [] => None
  | (k', v) :: r => if String.eqb k' k then Some v else dict_get r k
  end.

Definition get_language_code (selected_language : string) : option string :=
  dict_get language_map selected_language.

(** *** Audio acquisition: [download_youtube_audio] *)

Definition audio_file_path (output_path video_id : string) : string :=
  Py.os_path_join output_path (video_id +:+ ".mp3").

Definition watch_url (video_id : string) : string :=
  "https://www.youtube.com/watch?v=" +:+ video_id.

Definition make_ydl_opts (output_path video_id : string) : ydl_opts :=
  {| format := "bestaudio/best";
     postprocessors :=
       [ {| key := "FFmpegExtractAudio";
            preferredcodec := "mp3";
            preferredquality := "192" |} ];
     outtmpl := Py.os_path_join output_path (video_id +:+ ".%(ext)s") |}.

Definition download_youtube_audio (video_id output_path : string)
  : Script (option string) :=
  enter (Acquire video_id output_path) ;;
  try_except
    (os_makedirs output_path ;;
     let audio_file_path := audio_file_path output_path video_id in
     found ← os_path_exists audio_file_path;
     if found : bool then
       ts ← get_timestamp;
       print [Lit "["; Str ts; Lit "] Skipping download for video ID ";
              Str video_id; Lit ". File already exists."] ;;
       mret (Some audio_file_path)
     else
       let url := watch_url video_id in
       let ydl_opts := make_ydl_opts output_path video_id in
       call (ydl_download E ydl_opts [url]) (YdlDownload ydl_opts [url]) ;;
       mret (Some audio_file_path))
    (λ e,
     ts ← get_timestamp;
     print [Lit "["; Str ts; Lit "] Error while downloading audio for video ID ";
            Str video_id; Lit ": "; Str e] ;;
     mret None).

(** *** Transcription: [transcribe_audio_and_save_to_txt] *)

Definition transcript_file_path (output_path video_id : string) : string :=
  Py.os_path_join output_path (video_id +:+ "_transcription.txt").

(** The body of the [for segment in result["segments"]] loop, on the
    bytes written so far: [file.write(f"{segment['text']}\n")]. *)
Fixpoint write_segments (segs : list segment) (written : string)
  : string * outcome unit :=
  match segs with
  | [] => (written, Ret ())
  | s :: rest =>
      match Utf8.encode (seg_text s ++ [Utf8.LF]) with
      | Some bytes => write_segments rest (written +:+ bytes)
      | None =>
          (written,
           Raise "'utf-8' codec can't encode character: surrogates not allowed")
      end
  end.

(** [with open(path, mode="w", encoding="utf-8") as file: ...]: the file
    is created or truncated, and keeps what was written when a write
    raises.  The file system is a flat map of paths: of the ways [open]
    can fail, only a directory at the path is modelled, not a missing
    parent directory or a refusal of the system; what is stated of the
    file written is stated of runs where the writing began. *)
Definition save_segments (path : string) (segs : list segment)
  : Script unit :=
  λ w,
  match fs w !! path with
  | Some Dir =>
      ([], w, Raise ("[Errno 21] Is a directory: '" +:+ path +:+ "'"))
  | _ =>
      let '(content, r) := write_segments segs EmptyString in
      ([], set_fs (<[path := File content]> (fs w)) w, r)
  end.

Definition transcribe_audio_and_save_to_txt
    (audio_file video_id : string) (language_code : option string)
    (output_path : string) (auto_detect_language : bool) (gpu_id : Z)
  : Script (option string) :=
  enter (TranscribeCall audio_file video_id language_code output_path
           auto_detect_language gpu_id) ;;
  try_except
    (let transcript_file_path := transcript_file_path output_path video_id in
     found ← os_path_exists transcript_file_path;
     if found : bool then
       ts ← get_timestamp;
       print [Lit "["; Str ts; Lit "] Skipping transcription for video ID ";
              Str video_id; Lit ". Transcript already exists."] ;;
       mret (Some transcript_file_path)
     else
       cuda ← call (cuda_is_available E) CudaIsAvailable;
       device ←
         (if cuda : bool then
            let device := "cuda:" +:+ pretty gpu_id in
            call (cuda_set_device E gpu_id) (CudaSetDevice gpu_id) ;;
            ts ← get_timestamp;
            name ← call (cuda_get_device_name E gpu_id)
                        (CudaGetDeviceName gpu_id);
            print [Lit "["; Str ts; Lit "] Using "; Str name;
                   Lit " for transcription"] ;;
            mret device
          else
            ts ← get_timestamp;
            print [Lit "["; Str ts;
                   Lit "] CUDA not available. Using CPU for transcription (will be slow)"] ;;
            mret "cpu");
       ts ← get_timestamp;
       print [Lit "["; Str ts; Lit "] Loading large model for transcription..."] ;;
       model ← call (whisper_load_model E "large" device)
                    (λ r, LoadModel "large" device
                            match r with
                            | Returned _ => Returned ()
                            | Raised msg => Raised msg
                            end);
       result ←
         (if auto_detect_language then
            ts ← get_timestamp;
            print [Lit "["; Str ts;
                   Lit "] Using language auto-detection for video ID ";
                   Str video_id] ;;
            call (model_transcribe E model audio_file None)
                 (Transcribe audio_file None)
          else
            ts ← get_timestamp;
            print [Lit "["; Str ts; Lit "] Using specified language (";
                   OptStr language_code; Lit ") for video ID "; Str video_id] ;;
            call (model_transcribe E model audio_file language_code)
                 (Transcribe audio_file language_code));
       save_segments transcript_file_path (segments result) ;;
       ts ← get_timestamp;
       print [Lit "["; Str ts; Lit "] Transcript for video ID "; Str video_id;
              Lit " saved to "; Str transcript_file_path] ;;
       mret (Some transcript_file_path))
    (λ e,
     ts ← get_timestamp;
     print [Lit "["; Str ts; Lit "] Error while transcribing audio for video ID ";
            Str video_id; Lit ": "; Str e] ;;
     mret None).

(** *** Metadata: [get_video_info] *)

(** The client object [build('youtube', 'v3', developerKey=api_key)]
    constructs; constructing it calls nothing. *)
Record client : Type := mkClient {
  serviceName : string;
  version : string;
  developerKey : string
}.

Definition build (serviceName version developerKey : string) : client :=
  mkClient serviceName version developerKey.

(** [d[k]] on a JSON object: the value, or [KeyError(k)]. *)
Definition subscript {A} (field : option A) (k : string) : outcome A :=
  match field with
  | Some v => Ret v
  | None => Raise ("'" +:+ k +:+ "'")
  end.

(** The dict literal built for one item; the keys are read in the order
    of the source. *)
Definition read_item (it : item) : outcome video_info :=
  match subscript (item_id it) "id" with
  | Ret i =>
      match subscript (item_snippet it) "snippet" with
      | Ret sn =>
          match subscript (snippet_title sn) "title" with
          | Ret t =>
              match subscript (snippet_publishedAt sn) "publishedAt" with
              | Ret p =>
                  match subscript (item_contentDetails it) "contentDetails" with
                  | Ret cd =>
                      match subscript (details_duration cd) "duration" with
                      | Ret d => Ret (mkInfo i t p d)
                      | Raise e => Raise e
                      | SysExit c => SysExit c
                      end
                  | Raise e => Raise e
                  | SysExit c => SysExit c
                  end
              | Raise e => Raise e
              | SysExit c => SysExit c
              end
          | Raise e => Raise e
          | SysExit c => SysExit c
          end
      | Raise e => Raise e
      | SysExit c => SysExit c
      end
  | Raise e => Raise e
  | SysExit c => SysExit c
  end.

(** [for item in response.get('items', []): ... video_info_list.append(video_info)]
    on the list being built: what was appended before an exception
    stays appended. *)
Fixpoint collect_items (items : list item) (video_info_list : list video_info)
  : list video_info * outcome unit :=
  match items with
  | [] => (video_info_list, Ret ())
  | it :: rest =>
      match read_item it with
      | Ret video_info => collect_items rest (video_info_list ++ [video_info])
      | Raise e => (video_info_list, Raise e)
      | SysExit c => (video_info_list, SysExit c)
      end
  end.

(** One turn of the loop over chunks: the [try] block and its handler. *)
Definition fetch_chunk (youtube : client) (chunk : list string)
    (video_info_list : list video_info) : Script (list video_info) :=
  λ w,
  let part := "snippet,contentDetails" in
  let id := Py.join "," chunk in
  let '(t, w1, r) :=
    call (videos_list_execute E (developerKey youtube) part id)
         (Execute part id) w in
  let '(video_info_list', r') :=
    match r with
    | Ret response =>
        collect_items (default [] (response_items response)) video_info_list
    | Raise e => (video_info_list, Raise e)
    | SysExit c => (video_info_list, SysExit c)
    end in
  match r' with
  | Ret _ => (t, w1, Ret video_info_list')
  | Raise e =>
      let '(t2, w2, r2) :=
        (ts ← get_timestamp;
         print [Lit "["; Str ts; Lit "] Error fetching video info: "; Str e] ;;
         mret video_info_list') w1 in
      (t ++ t2, w2, r2)
  | SysExit c => (t, w1, SysExit c)
  end.

Fixpoint for_chunks (youtube : client) (video_ids : list string)
    (starts : list nat) (video_info_list : list video_info)
  : Script (list video_info) :=
  match starts with
  | [] => mret video_info_list
  | i :: rest =>
      let chunk := Py.slice video_ids i 50 in
      video_info_list' ← fetch_chunk youtube chunk video_info_list;
      for_chunks youtube video_ids rest video_info_list'
  end.

Definition get_video_info (video_ids : list string) (api_key : string)
  : Script (list video_info) :=
  let youtube := build "youtube" "v3" api_key in
  for_chunks youtube video_ids (Py.range (length video_ids) 50) [].

(** *** Identifier source: [read_video_ids_from_file] *)

(** [open(file_path, 'r')] read to its end; the bytes of the file are
    taken as its characters, which is what decoding gives for ASCII
    content.  A file with other bytes is outside the model: its
    decoding depends on the encoding of the locale and may raise. *)
Definition open_r (file_path : string) : Script string :=
  λ w,
  match fs w !! file_path with
  | Some (File content) => ([], w, Ret content)
  | Some Dir =>
      ([], w, Raise ("[Errno 21] Is a directory: '" +:+ file_path +:+ "'"))
  | None =>
      ([], w,
       Raise ("[Errno 2] No such file or directory: '" +:+ file_path +:+ "'"))
  end.

Definition read_video_ids_from_file (file_path : string)
  : Script (list string) :=
  try_except
    (content ← open_r file_path;
     let video_ids :=
       List.map Py.strip
         (List.filter (λ line, Py.truthy (Py.strip line))
            (Py.readlines content)) in
     mret video_ids)
    (λ e,
     ts ← get_timestamp;
     print [Lit "["; Str ts; Lit "] Error reading video IDs file: "; Str e] ;;
     mret []).

(** *** The batch loop of [main] *)

(** One turn of [for idx, video_id in enumerate(video_ids, start=1)];
    the value is [failed_videos] after the turn. *)
Definition process_video (total idx : Z) (video_id : string)
    (language_code : option string) (output_path : string)
    (auto_detect_language : bool) (gpu_id : Z) (failed_videos : list string)
  : Script (list string) :=
  print [Lit "["; Num idx; Lit "/"; Num total; Lit "] Processing video ID: ";
         Str video_id] ;;
  try_except
    (audio_file ← download_youtube_audio video_id output_path;
     match audio_file with
     | Some audio_file =>
         if Py.truthy audio_file then
           transcript_file ←
             transcribe_audio_and_save_to_txt audio_file video_id
               language_code output_path auto_detect_language gpu_id;
           match transcript_file with
           | None =>
               raise ("Transcription failed or was skipped for video ID: "
                      +:+ video_id)
           | Some _ => mret failed_videos
           end
         else raise ("Audio download failed for video ID: " +:+ video_id)
     | None => raise ("Audio download failed for video ID: " +:+ video_id)
     end)
    (λ e,
     ts ← get_timestamp;
     print [Lit "["; Str ts; Lit "] Error for video ID "; Str video_id;
            Lit ": "; Str e] ;;
     mret (failed_videos ++ [video_id])).

Fixpoint process_videos_from (total idx : Z) (video_ids : list string)
    (language_code : option string) (output_path : string)
    (auto_detect_language : bool) (gpu_id : Z) (failed_videos : list string)
  : Script (list string) :=
  match video_ids with
  | [] => mret failed_videos
  | video_id :: rest =>
      failed_videos' ←
        process_video total idx video_id language_code output_path
          auto_detect_language gpu_id failed_videos;
      process_videos_from total (idx + 1) rest language_code output_path
        auto_detect_language gpu_id failed_videos'
  end.

(** Lines 211-226 of [main]: the loop and the closing report. *)
Definition process_videos (video_ids : list string)
    (language_code : option string) (output_path : string)
    (auto_detect_language : bool) (gpu_id : Z) : Script (list string) :=
  failed_videos ←
    process_videos_from (Z.of_nat (length video_ids)) 1 video_ids
      language_code output_path auto_detect_language gpu_id [];
  print [Lit "Processing complete! Failed videos: "; StrList failed_videos] ;;
  mret failed_videos.

(** *** The entry point: [main] *)

(** The namespace [parser.parse_args()] returns, before the check of
    [choices]. *)
Record Args : Type := mkArgs {
  video_ids_file : option string;
  api_key : option string;
  output_path : string;
  language : option string;
  gpu_id : Z
}.

Definition languages : list string :=
  ["Auto-detect language"; "Kannada"; "Hindi"; "Tamil"; "Marathi";
   "Gujarati"; "Punjabi"; "Bengali"].

(** [parse_args] refuses a [--language] outside [choices] with exit
    status 2. *)
Definition parse_args (argv : Args) : Script Args :=
  match language argv with
  | Some l =>
      if bool_decide (l ∈ languages) then mret argv else sys_exit 2
  | None => mret argv
  end.

(** [while not video_ids_file: video_ids_file = input(...).strip()], by
    recursion on the lines standard input still holds. *)
Definition file_prompt : string := "Enter path to video IDs .txt file: ".

Fixpoint ask_video_ids_file (lines : list string)
  : list event * list string * outcome string :=
  match lines with
  | [] =>
      ([Input file_prompt (Raised "EOF when reading a line")], [],
       Raise "EOF when reading a line")
  | l :: rest =>
      let video_ids_file := Py.strip l in
      if Py.truthy video_ids_file then
        ([Input file_prompt (Returned l)], rest, Ret video_ids_file)
      else
        let '(t, rest', r) := ask_video_ids_file rest in
        (Input file_prompt (Returned l) :: t, rest', r)
  end.

Definition prompt_video_ids_file : Script string :=
  λ w, let '(t, rest, r) := ask_video_ids_file (stdin w) in
       (t, set_stdin rest w, r).

Definition resolve_video_ids_file (given : option string) : Script string :=
  match given with
  | Some f => if Py.truthy f then mret f else prompt_video_ids_file
  | None => prompt_video_ids_file
  end.

(** [for idx, lang in enumerate(languages, 1): print(f"{idx}. {lang}")] *)
Fixpoint print_menu (idx : Z) (langs : list string) : Script unit :=
  match langs with
  | [] => mret ()
  | lang :: rest =>
      print [Num idx; Lit ". "; Str lang] ;; print_menu (idx + 1) rest
  end.

(** Lines 175-191: the language chosen at the prompt. *)
Definition prompt_language : Script string :=
  print [Lit "Select transcription language:"] ;;
  print_menu 1 languages ;;
  choice ← input "Enter the number for language [3]: ";
  let choice := Py.strip choice in
  if negb (Py.truthy choice) then mret "Hindi"
  else
    match Py.int choice with
    | Some idx =>
        if (1 <=? idx) && (idx <=? Z.of_nat (length languages)) then
          mret (default "Hindi" (languages !! Z.to_nat (idx - 1)))
        else
          print [Lit "Invalid selection. Defaulting to Hindi."] ;;
          mret "Hindi"
    | None =>
        print [Lit "Invalid input. Defaulting to Hindi."] ;;
        mret "Hindi"
    end.

(** Lines 171-191: the language named on the command line, or the one
    chosen at the prompt ([if not language]). *)
Definition select_language (given : option string) : Script string :=
  match given with
  | Some l => if Py.truthy l then mret l else prompt_language
  | None => prompt_language
  end.

(** Lines 192-199: the pair [(auto_detect_language, language_code)]. *)
Definition language_mode (language : string) : Script (bool * option string) :=
  if String.eqb language "Auto-detect language" then
    print [Lit "Selected: Auto-detect language"] ;;
    mret (true, None)
  else
    let language_code := get_language_code language in
    print [Lit "Selected language: "; Str language] ;;
    mret (false, language_code).

(** Lines 152-168 of [main]: the input file and the credential are
    settled, or the process exits. *)
Definition key_message : list fpart :=
  [Lit "YouTube Data API Key is required (set --api_key or YT_API_KEY in .env)"].

Definition preflight (args : Args) (environ : gmap string string)
  : Script (string * string) :=
  video_ids_file ← resolve_video_ids_file (video_ids_file args);
  (if negb (Py.endswith (Py.lower video_ids_file) ".txt") then
     print [Lit "Error: --video_ids_file must be a .txt file"] ;;
     sys_exit 1
   else mret ()) ;;
  found ← os_path_exists video_ids_file;
  (if negb found then
     ts ← get_timestamp;
     print [Lit "["; Str ts; Lit "] File not found: "; Str video_ids_file] ;;
     sys_exit 1
   else mret ()) ;;
  let api_key := Py.or_else (api_key args) (environ !! "YT_API_KEY") in
  (if negb (Py.truthy (default EmptyString api_key)) then
     print key_message ;;
     sys_exit 1
   else mret ()) ;;
  mret (video_ids_file, default EmptyString api_key).

(** Lines 170-209 of [main]: the language, the identifiers and their
    metadata. *)
Definition prepare (args : Args) (video_ids_file api_key : string)
  : Script (list string * bool * option string) :=
  language ← select_language (language args);
  '(auto_detect_language, language_code) ← language_mode language;
  video_ids ← read_video_ids_from_file video_ids_file;
  (if bool_decide (video_ids = []) then
     ts ← get_timestamp;
     print [Lit "["; Str ts;
            Lit "] No video IDs found in the file or file is empty."] ;;
     sys_exit 1
   else mret ()) ;;
  ts ← get_timestamp;
  print [Lit "["; Str ts; Lit "] Found "; Num (Z.of_nat (length video_ids));
         Lit " video IDs in the file."] ;;
  video_info_list ← get_video_info video_ids api_key;
  (if bool_decide (video_info_list = []) then mret ()
   else
     ts ← get_timestamp;
     print [Lit "["; Str ts; Lit "] Video info fetched for ";
            Num (Z.of_nat (length video_info_list)); Lit " videos."]) ;;
  mret (video_ids, auto_detect_language, language_code).

(** [main()], given the command line and the environment after
    [load_dotenv()]. *)
Definition main (argv : Args) (environ : gmap string string) : Script unit :=
  args ← parse_args argv;
  '(video_ids_file, api_key) ← preflight args environ;
  '(video_ids, auto_detect_language, language_code) ←
    prepare args video_ids_file api_key;
  process_videos video_ids language_code (output_path args)
    auto_detect_language (gpu_id args) ;;
  mret ().

(** [youtube_whisper_transcript.py], lines 211-227: the check box and
    the select box of the Streamlit page give the pair
    [(selected_language, language_code)]; [st.selectbox] returns one of
    its options. *)
Definition streamlit_options : list string :=
  ["Kannada"; "Hindi"; "Tamil"; "Marathi"; "Gujarati"; "Punjabi"; "Bengali"].

Definition streamlit_language_settings (auto_detect_language : bool)
    (selected : string) : option string * option string :=
  if negb auto_detect_language then
    let selected_language := selected in
    let language_code := get_language_code selected_language in
    (Some selected_language, language_code)
  else (None, None).


End Pipeline.

(** ** Vocabulary of the properties *)

(** [os.path.isdir(p)] *)
Definition isdir {X} (w : World X) (p : string) : Prop :=
  Py.truthy p = true ∧ fs w !! p = Some Dir.

(** Calls of the external download mechanism. *)
Definition is_download (e : event) : bool :=
  match e with YdlDownload _ _ _ => true | _ => false end.

(** Calls into the inference engine and its device. *)
Definition is_inference (e : event) : bool :=
  match e with
  | CudaIsAvailable _ | CudaSetDevice _ _ | CudaGetDeviceName _ _
  | LoadModel _ _ _ | Transcribe _ _ _ => true
  | _ => false
  end.

(** Neither a download nor inference. *)
Definition quiet (e : event) : Prop :=
  is_download e = false ∧ is_inference e = false.

(** What [input()] read. *)
Definition is_input (e : event) : bool :=
  match e with Input _ _ => true | _ => false end.

(** The messages of the checks made before any work. *)
Definition preflight_messages (ts video_ids_file : string)
  : list (list fpart) :=
  [ [Lit "Error: --video_ids_file must be a .txt file"];
    [Lit "["; Str ts; Lit "] File not found: "; Str video_ids_file];
    [Lit "YouTube Data API Key is required (set --api_key or YT_API_KEY in .env)"] ].

(** A [--language] that [parse_args] accepts. *)
Definition language_accepted (l : option string) : Prop :=
  match l with
  | Some l => l ∈ ["Auto-detect language"; "Kannada"; "Hindi"; "Tamil";
                   "Marathi"; "Gujarati"; "Punjabi"; "Bengali"]
  | None => True
  end.

(** Exactly one language mode: auto-detection without a language code,
    or a language code without auto-detection. *)
Definition exclusive (auto_detect_language : bool)
    (language_code : option string) : Prop :=
  (auto_detect_language = true ∧ language_code = None)
  ∨ (auto_detect_language = false ∧ is_Some language_code).

Definition call_exclusive (e : event) : Prop :=
  match e with
  | TranscribeCall _ _ language_code _ auto_detect_language _ =>
      exclusive auto_detect_language language_code
  | _ => True
  end.

(** The Transcription calls in a trace carry the given mode. *)
Definition call_with (auto_detect_language : bool)
    (language_code : option string) (e : event) : Prop :=
  match e with
  | TranscribeCall _ _ code _ auto _ =>
      auto = auto_detect_language ∧ code = language_code
  | _ => True
  end.

(** Requests to the metadata service. *)
Definition is_request (e : event) : bool :=
  match e with Execute _ _ _ => true | _ => false end.

(** The message of the exception a library call raised. *)
Definition raised_by (e : event) : option string :=
  match e with
  | Input _ (Raised msg) | YdlDownload _ _ (Raised msg)
  | CudaIsAvailable (Raised msg) | CudaSetDevice _ (Raised msg)
  | CudaGetDeviceName _ (Raised msg) | LoadModel _ _ (Raised msg)
  | Transcribe _ _ (Raised msg) | Execute _ _ (Raised msg) => Some msg
  | _ => None
  end.

(** The lines of the batch loop: its progress line, its error line (with
    the identifier it names) and its closing report. *)
Definition is_progress (e : event) : bool :=
  match e with
  | Print [Lit a; Num _; Lit b; Num _; Lit c; Str _] =>
      String.eqb a "[" && String.eqb b "/"
      && String.eqb c "] Processing video ID: "
  | _ => false
  end.

Definition error_id (e : event) : option string :=
  match e with
  | Print [Lit a; Str _; Lit b; Str video_id; Lit c; Str _] =>
      if String.eqb a "[" && String.eqb b "] Error for video ID "
         && String.eqb c ": "
      then Some video_id else None
  | _ => None
  end.

Definition progress_line (idx total : Z) (video_id : string) : event :=
  Print [Lit "["; Num idx; Lit "/"; Num total; Lit "] Processing video ID: ";
         Str video_id].

Definition error_line (ts video_id e : string) : event :=
  Print [Lit "["; Str ts; Lit "] Error for video ID "; Str video_id;
         Lit ": "; Str e].

Definition report (failed_videos : list string) : event :=
  Print [Lit "Processing complete! Failed videos: "; StrList failed_videos].

(** The events the two steps can emit: their entry, their library calls
    and their timestamped log lines. *)
Inductive step_event : event → Prop :=
| step_acquire video_id output_path :
    step_event (Acquire video_id output_path)
| step_transcribe audio_file video_id language_code output_path auto gpu_id :
    step_event (TranscribeCall audio_file video_id language_code output_path
                  auto gpu_id)
| step_library e :
    is_download e || is_inference e = true → step_event e
| step_line ts s rest :
    s ≠ "] Error for video ID " →
    step_event (Print (Lit "[" :: Str ts :: Lit s :: rest)).

(** *** The Batch Orchestrator, in the words of the specification

    "For each identifier in the work list, in list order: invoke
    Acquisition; if it fails (returns no path), record FailureRecord and
    advance to next identifier - do not attempt Transcription.  Otherwise
    invoke Transcription with the acquired path; if it fails, record
    FailureRecord and advance.  Otherwise mark Done and retain the
    transcript path." *)

Inductive attempt : Type :=
| Acquisition (video_id : string)
| Transcription (video_id : string).

(** The steps entered, as the trace shows them. *)
Definition attempt_of (e : event) : option attempt :=
  match e with
  | Acquire video_id _ => Some (Acquisition video_id)
  | TranscribeCall _ video_id _ _ _ _ => Some (Transcription video_id)
  | _ => None
  end.

(** Work on the items of the batch: a progress line, an entry into a
    step, a download, inference. *)
Definition batch_work (e : event) : bool :=
  is_progress e || is_download e || is_inference e
  || match attempt_of e with Some _ => true | None => false end.

(** What happens before the batch: no work on its items. *)
Definition setup (e : event) : Prop := batch_work e = false.

Section Orchestrator.
Context (E : External).
Context (language_code : option string) (output_path : string)
        (auto_detect_language : bool) (gpu_id : Z).

(** [orchestrated ids w failed done attempts w']: from the world [w],
    working through [ids] records the failures [failed], marks [done]
    with the transcript paths, enters the steps [attempts] and ends in
    [w'].  A recorded failure is logged with a timestamp, which moves
    the clock. *)
Inductive orchestrated :
  list string → World (Hidden E) → list string → list (string * string) →
  list attempt → World (Hidden E) → Prop :=
| orchestrated_end w :
    orchestrated [] w [] [] [] w
| orchestrated_acquisition_fails video_id rest w t1 w1 failed done attempts w' :
    download_youtube_audio E video_id output_path w = (t1, w1, Ret None) →
    orchestrated rest (log_tick E w1) failed done attempts w' →
    orchestrated (video_id :: rest) w (video_id :: failed) done
      (Acquisition video_id :: attempts) w'
| orchestrated_transcription_fails video_id rest w t1 w1 audio t2 w2
    failed done attempts w' :
    download_youtube_audio E video_id output_path w =
      (t1, w1, Ret (Some audio)) →
    transcribe_audio_and_save_to_txt E audio video_id language_code
      output_path auto_detect_language gpu_id w1 = (t2, w2, Ret None) →
    orchestrated rest (log_tick E w2) failed done attempts w' →
    orchestrated (video_id :: rest) w (video_id :: failed) done
      (Acquisition video_id :: Transcription video_id :: attempts) w'
| orchestrated_done video_id rest w t1 w1 audio t2 w2 transcript
    failed done attempts w' :
    download_youtube_audio E video_id output_path w =
      (t1, w1, Ret (Some audio)) →
    transcribe_audio_and_save_to_txt E audio video_id language_code
      output_path auto_detect_language gpu_id w1 =
      (t2, w2, Ret (Some transcript)) →
    orchestrated rest w2 failed done attempts w' →
    orchestrated (video_id :: rest) w failed ((video_id, transcript) :: done)
      (Acquisition video_id :: Transcription video_id :: attempts) w'.

End Orchestrator.

(** Both artifacts of every identifier are on disk, in a directory. *)
Definition all_cached {X} (w : World X) (output_path : string)
    (video_ids : list string) : Prop :=
  isdir w output_path ∧
  ∀ video_id, video_id ∈ video_ids →
    is_Some (fs w !! audio_file_path output_path video_id) ∧
    is_Some (fs w !! transcript_file_path output_path video_id).

(** A library call made for one identifier: the download of its URL,
    or inference on its audio path. *)
Definition invoked_for (output_path video_id : string) (e : event) : Prop :=
  match e with
  | YdlDownload _ urls _ => urls = [watch_url video_id]
  | Transcribe audio_file _ _ =>
      audio_file = audio_file_path output_path video_id
  | _ => False
  end.


(** The statement that a second run of the batch changes nothing: the
    files are those the first run left, no library call is made for an
    identifier the first run brought to Done, and the same identifiers
    fail, so that the same are Done. *)
Definition rerun_changes_nothing (E : External) (video_ids : list string)
    (language_code : option string) (output_path : string)
    (auto_detect_language : bool) (gpu_id : Z) (w : World (Hidden E)) : Prop :=
  ∀ t1 w1 failed1 t2 w2 failed2,
    process_videos E video_ids language_code output_path
      auto_detect_language gpu_id w = (t1, w1, Ret failed1) →
    process_videos E video_ids language_code output_path
      auto_detect_language gpu_id w1 = (t2, w2, Ret failed2) →
    fs w2 = fs w1
    ∧ (∀ video_id e, video_id ∈ video_ids → video_id ∉ failed1 → e ∈ t2 →
         ¬ invoked_for output_path video_id e)
    ∧ failed2 = failed1.

(** The statement that the closing report tells how many identifiers
    were processed and how many reached Done: both can be read off its
    last line. *)
Definition report_tells_counts (E : External) : Prop :=
  ∃ read : event → Z * Z,
    ∀ video_ids language_code output_path auto_detect_language gpu_id
      (w : World (Hidden E)) t w' failed,
      process_videos E video_ids language_code output_path
        auto_detect_language gpu_id w = (t, w', Ret failed) →
      ∃ e, last t = Some e ∧
           read e = (Z.of_nat (length video_ids),
                     Z.of_nat (length video_ids - length failed)).

(** *** Vocabulary of the transcript file *)

(** A line break as reading a text file sees it: "
" or "
". *)
Definition break_char (c : ascii) : bool :=
  Ascii.eqb c "010" || Ascii.eqb c "013".

Fixpoint has_break (s : string) : bool :=
  match s with
  | EmptyString => false
  | String c r => break_char c || has_break r
  end.

Definition break_point (c : Z) : bool := (c =? 10) || (c =? 13).

(** The file made of the given lines, each followed by "
". *)
Fixpoint file_of_lines (lines : list string) : string :=
  match lines with
  | [] => EmptyString
  | l :: r => l +:+ "
" +:+ file_of_lines r
  end.

(** The UTF-8 encodings of the texts of the segments, in order. *)
Definition encoded_texts (segs : list segment) (lines : list string) : Prop :=
  Forall2 (λ seg line, Utf8.encode (seg_text seg) = Some line) segs lines.

(** The statement that a transcript written by Transcription has one
    line per segment, holding the text of the segment. *)
Definition one_line_per_segment (E : External) : Prop :=
  ∀ audio_file video_id language_code output_path auto_detect_language
    gpu_id (w : World (Hidden E)) t w' path audio language result content,
    fs w !! transcript_file_path output_path video_id = None →
    transcribe_audio_and_save_to_txt E audio_file video_id language_code
      output_path auto_detect_language gpu_id w = (t, w', Ret (Some path)) →
    Transcribe audio language (Returned result) ∈ t →
    fs w' !! path = Some (File content) →
    ∃ lines,
      encoded_texts (segments result) lines
      ∧ Py.readlines content = (λ l, l +:+ "
") <$> lines.

(** *** Vocabulary of the Metadata Fetcher *)

(** The chunks [video_ids[i:i+50]] the loop of [get_video_info] works
    through. *)
Definition chunks (video_ids : list string) : list (list string) :=
  (λ i, Py.slice video_ids i 50) <$> Py.range (length video_ids) 50.

(** The [id] arguments of the requests, and what came back. *)
Definition requested (e : event) : option string :=
  match e with Execute _ id _ => Some id | _ => None end.

Definition replied (e : event) : option (reply response) :=
  match e with Execute _ _ r => Some r | _ => None end.

(** What the loop appends for one chunk, given the reply to its
    request: nothing when the request raised, else the items read until
    one cannot be read. *)
Definition contribution (r : reply response) : list video_info :=
  match r with
  | Returned response =>
      (collect_items (default [] (response_items response)) []).1
  | Raised _ => []
  end.

Definition fetch_error (ts e : string) : event :=
  Print [Lit "["; Str ts; Lit "] Error fetching video info: "; Str e].

(** The events of the Metadata Fetcher. *)
Inductive fetch_event : event → Prop :=
| fetch_request part id r : fetch_event (Execute part id r)
| fetch_failed ts e : fetch_event (fetch_error ts e).

(** The statement that a chunk that fails gives no entry, for a list
    short enough to be one chunk. *)
Definition failed_chunk_gives_nothing (E : External) : Prop :=
  ∀ video_ids api_key (w : World (Hidden E)) t w' video_info_list ts e,
    (length video_ids ≤ 50)%nat →
    get_video_info E video_ids api_key w = (t, w', Ret video_info_list) →
    fetch_error ts e ∈ t →
    video_info_list = [].

(** ** Concrete collaborators, for running the scripts on examples *)

Module Demo.

(** The clock is a counter; a timestamp is its reading. *)
Definition tick (n : nat) : nat * string := (S n, pretty n).

(** [outtmpl] with its [%(ext)s] filled in with [mp3]. *)
Definition mp3_of_template (t : string) : string :=
  String.substring 0 (String.length t - 7) t +:+ "mp3".

(** A download that leaves the audio file where [outtmpl] says. *)
Definition download_ok (opts : ydl_opts) (urls : list string)
    (w : World nat) : World nat * reply unit :=
  (set_fs (<[mp3_of_template (outtmpl opts) := File "ID3"]> (fs w)) w,
   Returned ()).

(** A download that fails for the video [bad] and works for the others. *)
Definition download_unless (bad : string) (opts : ydl_opts)
    (urls : list string) (w : World nat) : World nat * reply unit :=
  if bool_decide (urls = ["https://www.youtube.com/watch?v=" +:+ bad]) then
    (w, Raised "ERROR: Video unavailable")
  else download_ok opts urls w.

(** A download that is cut after the audio file was written. *)
Definition download_cut (opts : ydl_opts) (urls : list string)
    (w : World nat) : World nat * reply unit :=
  (set_fs (<[mp3_of_template (outtmpl opts) := File "ID"]> (fs w)) w,
   Raised "ERROR: Postprocessing: Conversion failed!").

(** A download that returns and leaves nothing behind. *)
Definition download_nothing (opts : ydl_opts) (urls : list string)
    (w : World nat) : World nat * reply unit :=
  (w, Returned ()).

Definition abc : list segment :=
  [ mkSegment 0.0 2.0 (Utf8.of_ascii "a");
    mkSegment 2.0 5.0 (Utf8.of_ascii "b");
    mkSegment 5.0 7.5 (Utf8.of_ascii "c") ].

(** One segment whose text holds a line feed. *)
Definition two_lines : list segment :=
  [ mkSegment 0.0 2.0 (Utf8.of_ascii "a" ++ [Utf8.LF] ++ Utf8.of_ascii "b") ].

Definition transcribe_to (segs : list segment) (audio_file : string)
    (language : option string) (w : World nat)
  : World nat * reply whisper_result :=
  (w, Returned (mkResult segs)).

Definition good_item (id : string) : item :=
  mkItem (Some id)
    (Some (mkSnippet (Some ("Title of " +:+ id)) (Some "2024-01-01T00:00:00Z")))
    (Some (mkDetails (Some "PT1M"))).

(** An item without its [contentDetails]. *)
Definition bare_item (id : string) : item :=
  mkItem (Some id)
    (Some (mkSnippet (Some ("Title of " +:+ id)) (Some "2024-01-01T00:00:00Z")))
    None.

(** A service that answers every request with the same items. *)
Definition execute_with (items : list item) (api_key part id : string)
    (w : World nat) : World nat * reply response :=
  (w, Returned (mkResponse (Some items))).

(** A service that refuses the request for [bad] and answers the others
    with one item named after the request. *)
Definition execute_unless (bad : string) (api_key part id : string)
    (w : World nat) : World nat * reply response :=
  if String.eqb id bad then (w, Raised "HttpError 403")
  else (w, Returned (mkResponse (Some [good_item id]))).

Definition external
    (download : ydl_opts → list string → World nat → World nat * reply unit)
    (transcribe : string → option string →
                  World nat → World nat * reply whisper_result)
    (execute : string → string → string →
               World nat → World nat * reply response)
  : External :=
  {| Hidden := nat;
     Model := unit;
     clock := tick;
     ydl_download := download;
     cuda_is_available := λ w, (w, Returned false);
     cuda_set_device := λ _ w, (w, Returned ());
     cuda_get_device_name := λ _ w, (w, Returned "GPU");
     whisper_load_model := λ _ _ w, (w, Returned ());
     model_transcribe := λ _, transcribe;
     videos_list_execute := execute |}.

(** An engine that needs the audio file to be there. *)
Definition transcribe_file (segs : list segment) (audio_file : string)
    (language : option string) (w : World nat)
  : World nat * reply whisper_result :=
  match fs w !! audio_file with
  | Some (File _) => (w, Returned (mkResult segs))
  | _ => (w, Raised ("[Errno 2] No such file or directory: '"
                     +:+ audio_file +:+ "'"))
  end.

(** An engine that cannot load its model. *)
Definition no_model : External :=
  {| Hidden := nat;
     Model := unit;
     clock := tick;
     ydl_download := download_ok;
     cuda_is_available := λ w, (w, Returned false);
     cuda_set_device := λ _ w, (w, Returned ());
     cuda_get_device_name := λ _ w, (w, Returned "GPU");
     whisper_load_model := λ _ _ w, (w, Raised "CUDA out of memory");
     model_transcribe := λ _, transcribe_to abc;
     videos_list_execute := execute_with [] |}.

(** The video [id2] cannot be downloaded. *)
Definition id2_unavailable : External :=
  external (download_unless "id2") (transcribe_file abc) (execute_with []).

(** The download returns and leaves nothing behind. *)
Definition nothing_downloaded : External :=
  external download_nothing (transcribe_file abc) (execute_with []).

(** The download of [id2] is cut after its audio file was written. *)
Definition id2_cut : External :=
  external
    (λ opts urls w,
       if bool_decide (urls = ["https://www.youtube.com/watch?v=id2"])
       then download_cut opts urls w else download_ok opts urls w)
    (transcribe_file abc) (execute_with []).

(** A world where [x] has a transcript and no audio. *)
Definition transcript_only : World nat :=
  mkWorld (<["audio_files/x_transcription.txt" := File "old"]>
             (<["audio_files" := Dir]> ∅)) [] 0%nat.

(** The metadata service answers with a good item and one without its
    [contentDetails]. *)
Definition bare_answer : External :=
  external download_ok (transcribe_file abc)
    (execute_with [good_item "a"; bare_item "b"]).

(** The metadata service refuses the request for [bad]. *)
Definition refusing (bad : string) : External :=
  external download_ok (transcribe_file abc) (execute_unless bad).

(** The engine gives one segment whose text holds a line feed. *)
Definition broken_line : External :=
  external download_ok (transcribe_to two_lines) (execute_with []).

(** A world with the list [ids.txt] of three identifiers, among blank
    lines, and an empty output directory. *)
Definition with_list : World nat :=
  mkWorld (<["ids.txt" := File "id1
  id2

id3
"]> (<["audio_files" := Dir]> ∅)) [] 0%nat.

(** Command lines: complete, and naming a list that is no [.txt]. *)
Definition command_line : Args :=
  mkArgs (Some "ids.txt") (Some "key") "audio_files" (Some "Hindi") 0.


(** The collaborators when all goes well. *)
Definition well : External :=
  external download_ok (transcribe_file abc) (execute_with []).

(** A world where both artifacts of [x] are there, as empty files. *)
Definition cached : World nat :=
  mkWorld (<["audio_files/x_transcription.txt" := File ""]>
             (<["audio_files/x.mp3" := File ""]>
                (<["audio_files" := Dir]> ∅))) [] 0%nat.


(** A world with an empty output directory [audio_files]. *)
Definition fresh : World nat :=
  mkWorld (<["audio_files" := Dir]> ∅) [] 0%nat.

End Demo.


(** ** Further vocabulary: identifiers read from the list *)

(** A line that gives an identifier: not blank. *)
Definition gives_id (line : string) : bool := Py.truthy (Py.strip line).

(** No white space at either end. *)
Fixpoint last_char (s : string) : option ascii :=
  match s with
  | EmptyString => None
  | String c EmptyString => Some c
  | String _ r => last_char r
  end.

Definition first_char (s : string) : option ascii :=
  match s with
  | EmptyString => None
  | String c _ => Some c
  end.

Definition trimmed (s : string) : Prop :=
  (∀ c, first_char s = Some c → Py.isspace c = false)
  ∧ (∀ c, last_char s = Some c → Py.isspace c = false).

(** The line feed that ends a line. *)
Definition nl : string := String "010" EmptyString.

(** An identifier as the scripts use it: not empty, no white space at
    its ends, no line break inside. *)
Definition well_formed_id (video_id : string) : Prop :=
  video_id ≠ EmptyString ∧ trimmed video_id ∧ has_break video_id = false.

(** A string of ASCII characters only.  On such strings the bytes of a
    file are its characters, and [Py.isspace] is all the white space
    there is. *)
Fixpoint ascii_only (s : string) : bool :=
  match s with
  | EmptyString => true
  | String c r => (N_of_ascii c <? 128)%N && ascii_only r
  end.

(** A relative path component: it does not start with a slash. *)
Definition relative (s : string) : Prop := Py.startswith s "/" = false.

(** ** More collaborators, for the further properties *)

Module More.

(** Two segments, the second with a lone surrogate, which UTF-8 cannot
    encode. *)
Definition unencodable : list segment :=
  [ mkSegment 0.0 2.0 (Utf8.of_ascii "a");
    mkSegment 2.0 5.0 [0xD800] ].

Definition surrogate_engine : External :=
  Demo.external Demo.download_ok (Demo.transcribe_to unencodable)
    (Demo.execute_with []).

(** The identifiers of a request: its [id] argument cut at the commas. *)
Fixpoint split_commas (cur : string) (s : string) : list string :=
  match s with
  | EmptyString => [cur]
  | String c r =>
      if Ascii.eqb c "," then cur :: split_commas EmptyString r
      else split_commas (cur +:+ String c EmptyString) r
  end.

(** A service that answers a request with one complete item for each
    identifier asked for, in the order of the request; the downloader
    and the engine are those of [Demo.well]. *)
Definition listing_service : External :=
  Demo.external Demo.download_ok (Demo.transcribe_file Demo.abc)
    (λ api_key part id w,
       (w, Returned (mkResponse
                       (Some (Demo.good_item <$> split_commas "" id))))).

(** Fifty-two identifiers: a full chunk and a chunk of two. *)
Definition fifty_two : list string :=
  (λ n : nat, "v" +:+ pretty n) <$> seq 0 52.

(** Two devices of the same name, and a third whose name cannot be had. *)
Definition twins : External :=
  {| Hidden := nat;
     Model := unit;
     clock := Demo.tick;
     ydl_download := Demo.download_ok;
     cuda_is_available := λ w, (w, Returned true);
     cuda_set_device := λ _ w, (w, Returned ());
     cuda_get_device_name := λ i w,
       if (i <? 2) then (w, Returned "A100")
       else (w, Raised "invalid device ordinal");
     whisper_load_model := λ _ _ w, (w, Returned ());
     model_transcribe := λ _, Demo.transcribe_file Demo.abc;
     videos_list_execute := Demo.execute_with [] |}.

Definition count (n : Z) (w : World nat) : World nat * reply Z :=
  (w, Returned n).

(** The select box left as it is: the first option. *)
Definition first_option (options : list string) : string :=
  default "" (head options).

(** The last option chosen. *)
Definition last_option (options : list string) : string :=
  default "" (last options).

(** A world where the audio of [x] is there and its transcript is not. *)
Definition with_audio : World nat :=
  mkWorld (<["audio_files/x.mp3" := File ""]> (<["audio_files" := Dir]> ∅))
    [] 0%nat.

End More.

(** The progress lines of a batch over [video_ids], counted from [idx]. *)
Fixpoint progress_lines (total idx : Z) (video_ids : list string)
  : list event :=
  match video_ids with
  | [] => []
  | video_id :: rest =>
      progress_line idx total video_id :: progress_lines total (idx + 1) rest
  end.

(** An output path that cannot be a directory: the empty path, or the
    path of a file. *)
Definition unusable {X} (w : World X) (output_path : string) : Prop :=
  Py.truthy output_path = false
  ∨ ∃ content, fs w !! output_path = Some (File content).

(** An item with every key the script reads, on [video_id]. *)
Definition complete_for (video_id : string) (it : item) : Prop :=
  ∃ video_info, read_item it = Ret video_info ∧ info_id video_info = video_id.

(** The service answers the request for [chunk], in whatever world, with
    one complete item per identifier of the chunk, in the order of the
    chunk. *)
Definition answers (E : External) (api_key : string) (chunk : list string)
  : Prop :=
  ∀ w : World (Hidden E), ∃ items,
    (videos_list_execute E api_key "snippet,contentDetails"
       (Py.join "," chunk) w).2 = Returned (mkResponse (Some items))
    ∧ Forall2 complete_for chunk items.

(** A request that came back with a response. *)
Definition answered (e : event) : Prop :=
  ∃ part id response, e = Execute part id (Returned response).


(** ** GPU detection and selection *)

Definition is_digit (c : ascii) : bool :=
  match Py.digit_value c with Some _ => true | None => false end.

Fixpoint all_digits (s : string) : bool :=
  match s with
  | EmptyString => true
  | String c r => is_digit c && all_digits r
  end.

(** [f"GPU {i}: {gpu_name}"] *)
Definition gpu_label (i : Z) (gpu_name : string) : string :=
  "GPU " +:+ pretty i +:+ ": " +:+ gpu_name.

Section Gpus.
Context (E : External).

(** [torch.cuda.device_count()].  The trace has no event for this call:
    it runs on the world and leaves the trace as it is. *)
Context (device_count : World (Hidden E) → World (Hidden E) * reply Z).

Definition call_device_count : @M (Hidden E) Z :=
  λ w,
  let '(w1, r) := device_count w in
  match r with
  | Returned n => ([], w1, Ret n)
  | Raised msg => ([], w1, Raise msg)
  end.

(** [for i in range(gpu_count): ... available_gpus.append(...)] *)
Fixpoint name_gpus (indices : list Z) (available_gpus : list (Z * string))
  : @M (Hidden E) (list (Z * string)) :=
  match indices with
  | [] => mret available_gpus
  | i :: rest =>
      gpu_name ← call (cuda_get_device_name E i) (CudaGetDeviceName i);
      name_gpus rest (available_gpus ++ [(i, gpu_label i gpu_name)])
  end.

(** [get_available_gpus()]; the error goes to [print] in
    [run-transcription-in-server.py] and to [st.error] in
    [youtube_whisper_transcript.py]. *)
Definition get_available_gpus : @M (Hidden E) (list (Z * string)) :=
  try_except
    (available ← call (cuda_is_available E) CudaIsAvailable;
     if negb available then mret []
     else
       gpu_count ← call_device_count;
       name_gpus (Z.of_nat <$> seq 0 (Z.to_nat gpu_count)) [])
    (λ e, print [Lit "Error detecting GPUs: "; Str e] ;; mret []).

(** [[gpu[0] for gpu in available_gpus if gpu[1] == selected_gpu_name][0]] *)
Definition selected_gpu_of (available_gpus : list (Z * string))
    (selected_gpu_name : string) : @M (Hidden E) Z :=
  match List.filter (λ gpu, String.eqb gpu.2 selected_gpu_name)
          available_gpus with
  | gpu :: _ => mret gpu.1
  | [] => raise "list index out of range"
  end.

(** [youtube_whisper_transcript.py], lines 236-250.  [selectbox] is the
    select box of the page: it is given the options and returns the one
    chosen. *)
Definition gpu_selection (selectbox : list string → string)
  : @M (Hidden E) Z :=
  available_gpus ← get_available_gpus;
  if bool_decide (available_gpus = []) then
    print [Lit "No GPUs detected. Will use CPU (very slow for transcription)"] ;;
    mret 0
  else
    let gpu_options := snd <$> available_gpus in
    let selected_gpu_name := selectbox gpu_options in
    selected_gpu ← selected_gpu_of available_gpus selected_gpu_name;
    print [Lit "Using GPU "; Num selected_gpu; Lit " for transcription"] ;;
    mret selected_gpu.

End Gpus.

(** The device a name was obtained for, with its label. *)
Definition named (e : event) : option (Z * string) :=
  match e with
  | CudaGetDeviceName i (Returned gpu_name) => Some (i, gpu_label i gpu_name)
  | _ => None
  end.

Definition gpu_error (e : string) : event :=
  Print [Lit "Error detecting GPUs: "; Str e].

(** ** The loop of the Streamlit page *)

Section Page.
Context (E : External).

(** [youtube_whisper_transcript.py], lines 290-312: one turn of the
    loop, on the dictionary [all_video_dfs] and the list
    [failed_videos].  The text set on [status_text] and the message
    given to [st.error] are traced as [Print]; the progress bar has no
    event. *)
Definition page_video (total idx : Z) (video_id : string)
    (language_code : option string) (output_path : string)
    (auto_detect_language : bool) (selected_gpu : Z)
    (all_video_dfs : gmap string string) (failed_videos : list string)
  : @M (Hidden E) (gmap string string * list string) :=
  print [Lit "["; Num idx; Lit "/"; Num total; Lit "] Processing video ID: ";
         Str video_id] ;;
  try_except
    (audio_file ← download_youtube_audio E video_id output_path;
     match audio_file with
     | Some audio_file =>
         if Py.truthy audio_file then
           transcript_file ←
             transcribe_audio_and_save_to_txt E audio_file video_id
               language_code output_path auto_detect_language selected_gpu;
           match transcript_file with
           | None =>
               raise ("Transcription failed or was skipped for video ID: "
                      +:+ video_id)
           | Some transcript_file =>
               mret (<[video_id := transcript_file]> all_video_dfs,
                     failed_videos)
           end
         else raise ("Audio download failed for video ID: " +:+ video_id)
     | None => raise ("Audio download failed for video ID: " +:+ video_id)
     end)
    (λ e,
     ts ← get_timestamp E;
     print [Lit "["; Str ts; Lit "] Error for video ID "; Str video_id;
            Lit ": "; Str e] ;;
     mret (all_video_dfs, failed_videos ++ [video_id])).

Fixpoint page_videos_from (total idx : Z) (video_ids : list string)
    (language_code : option string) (output_path : string)
    (auto_detect_language : bool) (selected_gpu : Z)
    (all_video_dfs : gmap string string) (failed_videos : list string)
  : @M (Hidden E) (gmap string string * list string) :=
  match video_ids with
  | [] => mret (all_video_dfs, failed_videos)
  | video_id :: rest =>
      '(all_video_dfs', failed_videos') ←
        page_video total idx video_id language_code output_path
          auto_detect_language selected_gpu all_video_dfs failed_videos;
      page_videos_from total (idx + 1) rest language_code output_path
        auto_detect_language selected_gpu all_video_dfs' failed_videos'
  end.

(** Lines 283-316: the loop from an empty dictionary and an empty list,
    and the closing text. *)
Definition page_videos (video_ids : list string)
    (language_code : option string) (output_path : string)
    (auto_detect_language : bool) (selected_gpu : Z)
  : @M (Hidden E) (gmap string string * list string) :=
  result ←
    page_videos_from (Z.of_nat (length video_ids)) 1 video_ids
      language_code output_path auto_detect_language selected_gpu ∅ [];
  print [Lit "Processing complete!"] ;;
  mret result.

End Page.

(** The file prompt, asked and answered with [line]. *)
Definition asked (line : string) : event :=
  Input file_prompt (Returned line).

(** An answer of white space only. *)
Definition blank (line : string) : Prop := Py.strip line = "".

(** No input file on the command line: the option absent, or empty. *)
Definition not_given (given : option string) : Prop :=
  given = None ∨ given = Some "".

(** ** [transcript_using_YouTubeTranscriptApi.py]: file names from titles *)

Module Title.

(** White space of a [str], by code point: what [\s] matches in a [str]
    pattern and what [str.strip()] removes. *)
Definition isspace (c : Z) : bool :=
  (9 <=? c) && (c <=? 13) || (28 <=? c) && (c <=? 32)
  || (c =? 0x85) || (c =? 0xA0) || (c =? 0x1680)
  || (0x2000 <=? c) && (c <=? 0x200A)
  || (c =? 0x2028) || (c =? 0x2029) || (c =? 0x202F) || (c =? 0x205F)
  || (c =? 0x3000).

(** The character class of line 46: backslash, slash, asterisk,
    question mark, colon, double quote, the angle brackets and the
    bar. *)
Definition invalid (c : Z) : bool :=
  (c =? 92) || (c =? 47) || (c =? 42) || (c =? 63) || (c =? 58)
  || (c =? 34) || (c =? 60) || (c =? 62) || (c =? 124).

Definition hyphen : Z := 45.
Definition space : Z := 32.
Definition dots : Utf8.text := [46; 46; 46].

(** [re.sub] of line 46: each character of the class becomes a
    hyphen. *)
Definition replace_invalid (title : Utf8.text) : Utf8.text :=
  (λ c, if invalid c then hyphen else c) <$> title.

(** [re.sub(r'\s+', ' ', s)]: every maximal run of white space becomes
    one space; [in_run] tells that the character before was white
    space. *)
Fixpoint squeeze (in_run : bool) (s : Utf8.text) : Utf8.text :=
  match s with
  | [] => []
  | c :: r =>
      if isspace c then
        if in_run then squeeze true r else space :: squeeze true r
      else c :: squeeze false r
  end.

Fixpoint lstrip (s : Utf8.text) : Utf8.text :=
  match s with
  | [] => []
  | c :: r => if isspace c then lstrip r else s
  end.

Fixpoint rstrip (s : Utf8.text) : Utf8.text :=
  match s with
  | [] => []
  | c :: r =>
      match rstrip r with
      | [] => if isspace c then [] else [c]
      | r' => c :: r'
      end
  end.

Definition strip (s : Utf8.text) : Utf8.text := rstrip (lstrip s).

Definition sanitize_filename (title : Utf8.text) : Utf8.text :=
  let sanitized := replace_invalid title in
  let sanitized := squeeze false sanitized in
  let sanitized :=
    if (100 <? length sanitized)%nat then take 97 sanitized ++ dots
    else sanitized in
  strip sanitized.

(** White space is single spaces only; [after_space] tells that the
    character before was a space. *)
Fixpoint single_spaced (after_space : bool) (s : Utf8.text) : Prop :=
  match s with
  | [] => True
  | c :: r =>
      if isspace c then c = space ∧ after_space = false ∧ single_spaced true r
      else single_spaced false r
  end.

(** No white space at either end. *)
Definition trimmed (s : Utf8.text) : Prop :=
  (∀ c, head s = Some c → isspace c = false)
  ∧ (∀ c, last s = Some c → isspace c = false).

End Title.

(** ** [transcript_using_YouTubeTranscriptApi.py]: the transcript taken *)

Module Api.

(** A transcript of the list, by the attributes the script reads. *)
Record transcript : Type := mkTranscript {
  language : string;
  language_code : string;
  is_generated : bool
}.

Section Fetch.
Context {X Data : Type}.
(** [YouTubeTranscriptApi.list_transcripts(video_id)], in the order of
    iteration, and [transcript.fetch()].  The trace has no event for
    these calls. *)
Context (list_transcripts :
           string → World X → World X * reply (list transcript)).
Context (fetch : transcript → World X → World X * reply Data).

Definition call_library {A} (oracle : World X → World X * reply A)
  : @M X A :=
  λ w,
  let '(w1, r) := oracle w in
  match r with
  | Returned a => ([], w1, Ret a)
  | Raised msg => ([], w1, Raise msg)
  end.

Definition get_available_transcripts (video_id : string)
  : @M X (list transcript) :=
  try_except
    (call_library (list_transcripts video_id))
    (λ e, raise ("Error listing transcripts for " +:+ video_id +:+ ": "
                 +:+ e)).

(** Lines 84-91: the two lists the loop fills. *)
Fixpoint sort_transcripts (transcript_list : list transcript)
    (manual_transcripts generated_transcripts : list transcript)
  : list transcript * list transcript :=
  match transcript_list with
  | [] => (manual_transcripts, generated_transcripts)
  | transcript :: rest =>
      if is_generated transcript then
        sort_transcripts rest manual_transcripts
          (generated_transcripts ++ [transcript])
      else
        sort_transcripts rest (manual_transcripts ++ [transcript])
          generated_transcripts
  end.

Definition fetch_original_transcript (video_id : string)
  : @M X (Data * string * bool) :=
  try_except
    (transcript_list ← get_available_transcripts video_id;
     let '(manual_transcripts, generated_transcripts) :=
       sort_transcripts transcript_list [] [] in
     selected ←
       match manual_transcripts with
       | selected :: _ => mret selected
       | [] =>
           match generated_transcripts with
           | selected :: _ => mret selected
           | [] => raise "No transcripts available"
           end
       end;
     transcript_data ← call_library (fetch selected);
     mret (transcript_data, language_code selected, is_generated selected))
    (λ e, raise ("Error fetching transcript: " +:+ e)).

End Fetch.

(** The transcript the selection rule takes from a list: the first one
    that is not generated, or the first one when all are generated. *)
Definition preferred (transcript_list : list transcript)
  : option transcript :=
  match List.find (λ t, negb (is_generated t)) transcript_list with
  | Some manual => Some manual
  | None => head transcript_list
  end.

(** A list with a generated transcript before a manual one, and a
    library that fetches any transcript. *)
Definition en_generated : transcript := mkTranscript "English" "en" true.
Definition hi_manual : transcript := mkTranscript "Hindi" "hi" false.

Definition list_two (video_id : string) (w : World nat)
  : World nat * reply (list transcript) :=
  (w, Returned [en_generated; hi_manual]).

Definition fetch_text (t : transcript) (w : World nat)
  : World nat * reply string :=
  (w, Returned ("text in " +:+ language_code t)).

End Api.
(** * Properties *)

(** ** Reasoning about scripts *)

Section Scripts.
Context {X : Type}.
Implicit Types (w : World X) (t : list event).

Lemma bind_run {A B} (m : @M X A) (f : A → @M X B) w :
  (m ≫= f) w =
  match m w with
  | (t, w1, Ret a) => let '(t2, w2, r) := f a w1 in (t ++ t2, w2, r)
  | (t, w1, Raise e) => (t, w1, Raise e)
  | (t, w1, SysExit c) => (t, w1, SysExit c)
  end.
Proof. reflexivity. Qed.

Lemma bind_ret {A B} (m : @M X A) (f : A → @M X B) w t w1 a :
  m w = (t, w1, Ret a) →
  (m ≫= f) w = let '(t2, w2, r) := f a w1 in (t ++ t2, w2, r).
Proof. intros H. rewrite bind_run, H. reflexivity. Qed.

(** What a run of [m ≫= f] is made of. *)
Lemma bind_inv {A B} (m : @M X A) (f : A → @M X B) w t w' r :
  (m ≫= f) w = (t, w', r) →
  (∃ t1 w1 a t2, m w = (t1, w1, Ret a) ∧ f a w1 = (t2, w', r)
                 ∧ t = t1 ++ t2)
  ∨ (∃ e, m w = (t, w', Raise e) ∧ r = Raise e)
  ∨ (∃ c, m w = (t, w', SysExit c) ∧ r = SysExit c).
Proof.
  rewrite bind_run. destruct (m w) as [[t1 w1] [a|e|c]].
  - destruct (f a w1) as [[t2 w2] r2] eqn:Hf. intros [= <- <- <-].
    left. by exists t1, w1, a, t2.
  - intros [= <- <- <-]. right; left. by exists e.
  - intros [= <- <- <-]. right; right. by exists c.
Qed.

(** A run is the triple of its trace, its final world and its outcome. *)
Lemma run_eta {A} (run : list event * World X * outcome A) :
  run = (run.1.1, run.1.2, run.2).
Proof. by destruct run as [[? ?] ?]. Qed.

(** A run of [m ≫= f] that returns. *)
Lemma bind_inv_ret {A B} (m : @M X A) (f : A → @M X B) w t w' b :
  (m ≫= f) w = (t, w', Ret b) →
  ∃ t1 w1 a t2, m w = (t1, w1, Ret a) ∧ f a w1 = (t2, w', Ret b)
                ∧ t = t1 ++ t2.
Proof.
  intros [H|[(e & _ & [=])|(c & _ & [=])]]%bind_inv. done.
Qed.

Lemma try_except_run {A} (body : @M X A) handler w :
  try_except body handler w =
  match body w with
  | (t, w1, Raise e) => let '(t2, w2, r) := handler e w1 in (t ++ t2, w2, r)
  | other => other
  end.
Proof. reflexivity. Qed.

Lemma total_tame {A} P (m : @M X A) : total P m → tame P m.
Proof.
  intros H w t w' r Hm. destruct (H _ _ _ _ Hm) as [Ht [a ->]].
  split; [done | congruence].
Qed.

Lemma tame_ret {A} P (a : A) : tame P (mret a : @M X A).
Proof. intros w t w' r [= <- <- <-]. split; [constructor | congruence]. Qed.

Lemma total_ret {A} P (a : A) : total P (mret a : @M X A).
Proof. intros w t w' r [= <- <- <-]. split; [constructor | eauto]. Qed.

Lemma tame_raise {A} P msg : tame P (raise msg : @M X A).
Proof. intros w t w' r [= <- <- <-]. split; [constructor | congruence]. Qed.

Lemma tame_bind {A B} P (m : @M X A) (f : A → @M X B) :
  tame P m → (∀ a, tame P (f a)) → tame P (m ≫= f).
Proof.
  intros Hm Hf w t w' r Hrun.
  apply bind_inv in Hrun as [(t1 & w1 & a & t2 & H1 & H2 & ->)|[(e & H1 & ->)|(c & H1 & ->)]].
  - destruct (Hm _ _ _ _ H1) as [Ht1 _]. destruct (Hf a _ _ _ _ H2) as [Ht2 Hr].
    split; [by apply Forall_app | done].
  - destruct (Hm _ _ _ _ H1) as [Ht1 _]. split; [done | congruence].
  - destruct (Hm _ _ _ _ H1) as [_ Hr]. by destruct (Hr c).
Qed.

Lemma total_bind {A B} P (m : @M X A) (f : A → @M X B) :
  total P m → (∀ a, total P (f a)) → total P (m ≫= f).
Proof.
  intros Hm Hf w t w' r Hrun.
  apply bind_inv in Hrun as [(t1 & w1 & a & t2 & H1 & H2 & ->)|[(e & H1 & ->)|(c & H1 & ->)]].
  - destruct (Hm _ _ _ _ H1) as [Ht1 _]. destruct (Hf a _ _ _ _ H2) as [Ht2 Hr].
    split; [by apply Forall_app | done].
  - destruct (Hm _ _ _ _ H1) as [_ [a [=]]].
  - destruct (Hm _ _ _ _ H1) as [_ [a [=]]].
Qed.

Lemma total_try {A} P (body : @M X A) handler :
  tame P body → (∀ e, total P (handler e)) →
  total P (try_except body handler).
Proof.
  intros Hb Hh w t w' r. rewrite try_except_run.
  destruct (body w) as [[t1 w1] [a|e|c]] eqn:Hbody.
  - intros [= <- <- <-]. destruct (Hb _ _ _ _ Hbody) as [Ht _]. eauto.
  - destruct (handler e w1) as [[t2 w2] r2] eqn:Hh2. intros [= <- <- <-].
    destruct (Hb _ _ _ _ Hbody) as [Ht _].
    destruct (Hh e _ _ _ _ Hh2) as [Ht2 Hr]. split; [by apply Forall_app | done].
  - destruct (Hb _ _ _ _ Hbody) as [_ Hr]. by destruct (Hr c).
Qed.

Lemma total_print P line : P (Print line) → total P (print line : @M X unit).
Proof. intros HP w t w' r [= <- <- <-]. split; [by repeat constructor | eauto]. Qed.

Lemma total_enter P ev : P ev → total P (enter ev : @M X unit).
Proof. intros HP w t w' r [= <- <- <-]. split; [by repeat constructor | eauto]. Qed.

Lemma tame_call {A} P (oracle : World X → World X * reply A) ev :
  (∀ r, P (ev r)) → tame P (call oracle ev).
Proof.
  intros HP w t w' r. unfold call. destruct (oracle w) as [w1 [a|msg]].
  - intros [= <- <- <-]. split; [by repeat constructor | congruence].
  - intros [= <- <- <-]. split; [by repeat constructor | congruence].
Qed.

Lemma total_exists P p : total P (os_path_exists p : @M X bool).
Proof. intros w t w' r [= <- <- <-]. split; [constructor | eauto]. Qed.

Lemma tame_makedirs P p : tame P (os_makedirs p : @M X unit).
Proof.
  intros w t w' r. unfold os_makedirs.
  destruct (Py.truthy p); [destruct (fs w !! p) as [[c|]|]|];
    intros [= <- <- <-]; (split; [constructor | congruence]).
Qed.

End Scripts.

Create HintDb script.

Lemma tame_if {X A} P (b : bool) (m1 m2 : @M X A) :
  tame P m1 → tame P m2 → tame P (if b then m1 else m2).
Proof. by destruct b. Qed.

Lemma total_if {X A} P (b : bool) (m1 m2 : @M X A) :
  total P m1 → total P m2 → total P (if b then m1 else m2).
Proof. by destruct b. Qed.

#[local] Hint Resolve total_tame tame_ret total_ret tame_raise tame_bind
  total_bind total_try total_print total_enter tame_call total_exists
  tame_makedirs : script.

(** Running a script by cases: the innermost [match] is split first. *)
Ltac innermost_destruct :=
  match goal with
  | |- context [match ?x with _ => _ end] =>
      lazymatch x with
      | context [match _ with _ => _ end] => fail
      | _ => destruct x eqn:?
      end
  end.

Ltac unfold_script :=
  unfold try_except, mbind, M_bind, mret, M_ret, call, enter, print, raise,
    os_path_exists, os_makedirs, get_timestamp, save_segments.

(** An event is in an explicit trace. *)
Ltac find_event :=
  vm_compute;
  repeat first [ apply list_elem_of_here | apply list_elem_of_further ].

Ltac find_in_trace :=
  repeat first [ apply list_elem_of_here | apply list_elem_of_further ].

(** Membership in an explicit trace, case by case. *)
Ltac in_trace H :=
  repeat (apply elem_of_cons in H as [->|H]);
  try (by apply elem_of_nil in H).

(** ** The two steps of the pipeline *)

Section Steps.
Context (E : External).
Implicit Types (w : World (Hidden E)).

Lemma get_timestamp_run w :
  get_timestamp E w = ([], log_tick E w, Ret (stamp E w)).
Proof.
  unfold get_timestamp, log_tick, stamp. by destruct (clock E (ext w)).
Qed.

Lemma fs_log_tick w : fs (log_tick E w) = fs w.
Proof. reflexivity. Qed.

Lemma total_timestamp P : total P (get_timestamp E).
Proof.
  intros w t w' r. rewrite get_timestamp_run. intros [= <- <- <-].
  split; [constructor | eauto].
Qed.

Lemma makedirs_isdir w p : isdir w p → os_makedirs p w = ([], w, Ret ()).
Proof. intros [Hp Hd]. unfold os_makedirs. by rewrite Hp, Hd. Qed.

Lemma exists_run w p :
  os_path_exists p w = ([], w, Ret (bool_decide (is_Some (fs w !! p)))).
Proof. reflexivity. Qed.

(** A timestamped line: [print(f"[{get_timestamp()}] ...")]. *)
Lemma stamped_print_run {A} (rest : list fpart) (k : @M (Hidden E) A) w :
  (ts ← get_timestamp E; print (Lit "[" :: Str ts :: rest) ;; k) w =
  let '(t, w', r) := k (log_tick E w) in
  (Print (Lit "[" :: Str (stamp E w) :: rest) :: t, w', r).
Proof.
  rewrite bind_run, get_timestamp_run. rewrite bind_run. cbn.
  by destruct (k (log_tick E w)) as [[t w'] r].
Qed.

(** *** Cache hits *)

Lemma download_hit video_id output_path w :
  isdir w output_path →
  is_Some (fs w !! audio_file_path output_path video_id) →
  download_youtube_audio E video_id output_path w =
  ([Acquire video_id output_path;
    Print [Lit "["; Str (stamp E w); Lit "] Skipping download for video ID ";
           Str video_id; Lit ". File already exists."]],
   log_tick E w, Ret (Some (audio_file_path output_path video_id))).
Proof.
  intros Hdir Hfile. unfold download_youtube_audio.
  rewrite bind_run. cbn [enter]. rewrite try_except_run.
  rewrite bind_run, (makedirs_isdir _ _ Hdir).
  rewrite bind_run, exists_run, bool_decide_eq_true_2 by done.
  by rewrite stamped_print_run.
Qed.

Lemma transcribe_hit audio_file video_id language_code output_path auto gpu_id w :
  is_Some (fs w !! transcript_file_path output_path video_id) →
  transcribe_audio_and_save_to_txt E audio_file video_id language_code
    output_path auto gpu_id w =
  ([TranscribeCall audio_file video_id language_code output_path auto gpu_id;
    Print [Lit "["; Str (stamp E w);
           Lit "] Skipping transcription for video ID ";
           Str video_id; Lit ". Transcript already exists."]],
   log_tick E w, Ret (Some (transcript_file_path output_path video_id))).
Proof.
  intros Hfile. unfold transcribe_audio_and_save_to_txt.
  rewrite bind_run. cbn [enter]. rewrite try_except_run.
  rewrite bind_run, exists_run, bool_decide_eq_true_2 by done.
  by rewrite stamped_print_run.
Qed.

(** *** Both steps return, whatever the libraries do *)


Lemma tame_save_segments P path segs : tame P (save_segments E path segs).
Proof.
  intros w t w' r. unfold save_segments.
  destruct (fs w !! path) as [[c|]|];
    try destruct (write_segments segs "") as [content [[]|e|c']] eqn:Hw;
    intros [= <- <- <-]; try (split; [constructor | congruence]).
  all: exfalso; clear -Hw; revert Hw; generalize EmptyString.
  all: induction segs as [|s segs IH]; intros acc; cbn;
    [congruence | destruct (Utf8.encode _); [apply IH | congruence]].
Qed.

Ltac script_step :=
  first
    [ apply total_print | apply total_enter | apply total_ret
    | apply total_timestamp | apply total_exists
    | apply tame_ret | apply tame_raise | apply tame_makedirs
    | apply tame_save_segments
    | apply tame_call; intros ?
    | apply total_bind; [|intros ?] | apply total_try; [|intros ?]
    | apply total_if | apply tame_if
    | apply tame_bind; [|intros ?]
    | apply total_tame ].

Ltac step_event_auto :=
  first
    [ apply step_acquire | apply step_transcribe
    | apply step_line; discriminate
    | apply step_library; reflexivity ].

Lemma total_download video_id output_path :
  total step_event (download_youtube_audio E video_id output_path).
Proof.
  unfold download_youtube_audio. cbn zeta.
  repeat script_step; step_event_auto.
Qed.

Lemma total_transcribe audio_file video_id language_code output_path auto gpu_id :
  total step_event
    (transcribe_audio_and_save_to_txt E audio_file video_id language_code
       output_path auto gpu_id).
Proof.
  unfold transcribe_audio_and_save_to_txt. cbn zeta.
  repeat script_step; step_event_auto.
Qed.

(** *** An exception of a library ends the step with [None] and a log
    line that names the identifier and the message *)

Lemma download_raised video_id output_path w t w' r e msg :
  download_youtube_audio E video_id output_path w = (t, w', r) →
  e ∈ t → raised_by e = Some msg →
  r = Ret None ∧
  ∃ ts, last t = Some (Print [Lit "["; Str ts;
                              Lit "] Error while downloading audio for video ID ";
                              Str video_id; Lit ": "; Str msg]).
Proof.
  unfold download_youtube_audio. unfold_script.
  repeat innermost_destruct; intros [= <- <- <-] He Hr; in_trace He;
    cbn in Hr; try discriminate; injection Hr as <-; eauto.
Qed.

Lemma transcribe_raised audio_file video_id language_code output_path auto
    gpu_id w t w' r e msg :
  transcribe_audio_and_save_to_txt E audio_file video_id language_code
    output_path auto gpu_id w = (t, w', r) →
  e ∈ t → raised_by e = Some msg →
  r = Ret None ∧
  ∃ ts, last t = Some (Print [Lit "["; Str ts;
                              Lit "] Error while transcribing audio for video ID ";
                              Str video_id; Lit ": "; Str msg]).
Proof.
  unfold transcribe_audio_and_save_to_txt. unfold_script.
  repeat innermost_destruct; intros [= <- <- <-] He Hr; in_trace He;
    cbn in Hr; try discriminate; injection Hr as <-; eauto.
Qed.

(** *** Cache misses of Acquisition *)

Lemma download_miss video_id output_path w w1 :
  os_makedirs output_path w = ([], w1, Ret ()) →
  fs w1 !! audio_file_path output_path video_id = None →
  download_youtube_audio E video_id output_path w =
  let opts := make_ydl_opts output_path video_id in
  let urls := [watch_url video_id] in
  match ydl_download E opts urls w1 with
  | (w2, Returned u) =>
      ([Acquire video_id output_path; YdlDownload opts urls (Returned u)],
       w2, Ret (Some (audio_file_path output_path video_id)))
  | (w2, Raised msg) =>
      ([Acquire video_id output_path; YdlDownload opts urls (Raised msg);
        Print [Lit "["; Str (stamp E w2);
               Lit "] Error while downloading audio for video ID ";
               Str video_id; Lit ": "; Str msg]],
       log_tick E w2, Ret None)
  end.
Proof.
  intros Hmk Hnone. unfold download_youtube_audio.
  rewrite bind_run. cbn [enter]. rewrite try_except_run.
  rewrite bind_run, Hmk. rewrite bind_run, exists_run.
  rewrite bool_decide_eq_false_2 by (rewrite Hnone; by intros [? ?]).
  rewrite bind_run. unfold call. cbn zeta.
  destruct (ydl_download E _ _ w1) as [w2 [[]|msg]]; [done|].
  by rewrite stamped_print_run.
Qed.

End Steps.

(** ** Paths *)

Lemma append_truthy a b : Py.truthy b = true → Py.truthy (a +:+ b) = true.
Proof. destruct a; [done | reflexivity]. Qed.

Lemma os_path_join_truthy a b :
  Py.truthy b = true → Py.truthy (Py.os_path_join a b) = true.
Proof.
  intros Hb. unfold Py.os_path_join.
  destruct (Py.startswith b "/"); [done|].
  destruct (negb (Py.truthy a) || Py.endswith a "/");
    repeat apply append_truthy; done.
Qed.

Lemma audio_file_path_truthy output_path video_id :
  Py.truthy (audio_file_path output_path video_id) = true.
Proof.
  apply os_path_join_truthy, append_truthy. reflexivity.
Qed.

Lemma startswith_append s p :
  Py.truthy s = true →
  Py.startswith (s +:+ p) "/" = Py.startswith s "/".
Proof.
  destruct s as [|a s]; [done|]. intros _.
  change (Py.startswith (String a s +:+ p) "/")
    with (if Ascii.eqb "/" a then Py.startswith (s +:+ p) "" else false).
  change (Py.startswith (String a s) "/")
    with (if Ascii.eqb "/" a then Py.startswith s "" else false).
  destruct (Ascii.eqb "/" a); [|done]. by destruct s, p.
Qed.

(** The path is [{output_path}/{video_id}.mp3] for a relative identifier
    and a directory named without a final slash. *)
Lemma audio_file_path_plain output_path video_id :
  Py.truthy output_path = true →
  Py.endswith output_path "/" = false →
  Py.startswith video_id "/" = false →
  audio_file_path output_path video_id =
  output_path +:+ "/" +:+ video_id +:+ ".mp3".
Proof.
  intros Ho He Hs. unfold audio_file_path, Py.os_path_join.
  replace (Py.startswith (video_id +:+ ".mp3") "/") with false.
  - by rewrite Ho, He.
  - destruct video_id; [done|]. by rewrite startswith_append.
Qed.

(** ** The batch loop *)

Lemma step_event_error_id e : step_event e → error_id e = None.
Proof.
  intros [| |e' He|ts s rest Hs]; try reflexivity.
  - by destruct e'.
  - cbn. repeat case_match; try reflexivity.
    apply String.eqb_neq in Hs. rewrite Hs in *. discriminate.
Qed.

Lemma step_event_not_progress e : step_event e → is_progress e = false.
Proof.
  intros [| |e' He|ts s rest Hs]; try reflexivity. by destruct e'.
Qed.

Lemma omap_none {A B} (f : A → option B) (l : list A) :
  Forall (λ x, f x = None) l → omap f l = [].
Proof. induction 1 as [|x l Hx _ IH]; [done|]. cbn. by rewrite Hx. Qed.

Section Batch.
Context (E : External).
Context (language_code : option string) (output_path : string)
        (auto_detect_language : bool) (gpu_id : Z).
Implicit Types (w : World (Hidden E)).

Lemma download_returns_path video_id w t w' audio :
  download_youtube_audio E video_id output_path w = (t, w', Ret (Some audio)) →
  audio = audio_file_path output_path video_id.
Proof.
  unfold download_youtube_audio. unfold_script.
  repeat innermost_destruct; intros [= <- <-]; congruence.
Qed.

Lemma download_attempts video_id w t w' r :
  download_youtube_audio E video_id output_path w = (t, w', r) →
  omap attempt_of t = [Acquisition video_id].
Proof.
  unfold download_youtube_audio. unfold_script.
  repeat innermost_destruct; by intros [= <- <- <-].
Qed.

Lemma transcribe_attempts audio video_id w t w' r :
  transcribe_audio_and_save_to_txt E audio video_id language_code output_path
    auto_detect_language gpu_id w = (t, w', r) →
  omap attempt_of t = [Transcription video_id].
Proof.
  unfold transcribe_audio_and_save_to_txt. unfold_script.
  repeat innermost_destruct; by intros [= <- <- <-].
Qed.

(** One turn of the loop, by the outcome of its two steps. *)
Lemma process_video_run total idx video_id failed_videos w :
  ∃ t1 w1 a,
    download_youtube_audio E video_id output_path w = (t1, w1, Ret a) ∧
    match a with
    | None =>
        process_video E total idx video_id language_code output_path
          auto_detect_language gpu_id failed_videos w =
        (progress_line idx total video_id :: t1 ++
           [error_line (stamp E w1) video_id
              ("Audio download failed for video ID: " +:+ video_id)],
         log_tick E w1, Ret (failed_videos ++ [video_id]))
    | Some audio =>
        ∃ t2 w2 b,
          transcribe_audio_and_save_to_txt E audio video_id language_code
            output_path auto_detect_language gpu_id w1 = (t2, w2, Ret b) ∧
          match b with
          | None =>
              process_video E total idx video_id language_code output_path
                auto_detect_language gpu_id failed_videos w =
              (progress_line idx total video_id :: t1 ++ t2 ++
                 [error_line (stamp E w2) video_id
                    ("Transcription failed or was skipped for video ID: "
                     +:+ video_id)],
               log_tick E w2, Ret (failed_videos ++ [video_id]))
          | Some _ =>
              process_video E total idx video_id language_code output_path
                auto_detect_language gpu_id failed_videos w =
              (progress_line idx total video_id :: t1 ++ t2, w2,
               Ret failed_videos)
          end
    end.
Proof.
  destruct (download_youtube_audio E video_id output_path w)
    as [[t1 w1] r1] eqn:Hd.
  destruct (total_download E _ _ _ _ _ _ Hd) as [_ [a ->]].
  exists t1, w1, a. split; [done|].
  unfold process_video. rewrite bind_run. cbn [print].
  rewrite try_except_run, bind_run, Hd.
  destruct a as [audio|].
  - rewrite (download_returns_path _ _ _ _ _ Hd), audio_file_path_truthy.
    destruct (transcribe_audio_and_save_to_txt E _ video_id language_code
                output_path auto_detect_language gpu_id w1)
      as [[t2 w2] r2] eqn:Ht.
    destruct (total_transcribe E _ _ _ _ _ _ _ _ _ _ Ht) as [_ [b ->]].
    rewrite <- (download_returns_path _ _ _ _ _ Hd) in Ht |- *.
    exists t2, w2, b. split; [done|].
    rewrite bind_run, Ht. destruct b as [transcript|].
    + cbn. by rewrite app_nil_r.
    + cbn. rewrite stamped_print_run. cbn.
      by rewrite app_nil_r, <- app_assoc.
  - cbn. rewrite stamped_print_run. cbn. by rewrite app_nil_r.
Qed.

Lemma step_trace_error_ids t : Forall step_event t → omap error_id t = [].
Proof.
  intros H. apply omap_none. eapply Forall_impl; [done|].
  apply step_event_error_id.
Qed.

(** The loop does what the specification says, and its trace shows it:
    the steps entered, and one error line per failure, in order. *)
Lemma process_videos_from_run video_ids :
  ∀ total idx failed_videos w,
  ∃ t w' failed done attempts,
    process_videos_from E total idx video_ids language_code output_path
      auto_detect_language gpu_id failed_videos w =
      (t, w', Ret (failed_videos ++ failed))
    ∧ orchestrated E language_code output_path auto_detect_language gpu_id
        video_ids w failed done attempts w'
    ∧ omap attempt_of t = attempts
    ∧ omap error_id t = failed
    ∧ failed `sublist_of` video_ids.
Proof.
  induction video_ids as [|video_id rest IH]; intros total idx failed_videos w.
  - exists [], w, [], [], []. cbn. rewrite app_nil_r.
    repeat split; [constructor | constructor].
  - cbn [process_videos_from]. rewrite bind_run.
    destruct (process_video_run total idx video_id failed_videos w)
      as (t1 & w1 & a & Hd & Ha).
    pose proof (total_download E _ _ _ _ _ _ Hd) as [Hs1 _].
    pose proof (download_attempts _ _ _ _ _ Hd) as Ha1.
    destruct a as [audio|].
    + destruct Ha as (t2 & w2 & b & Ht & Hb).
      pose proof (total_transcribe E _ _ _ _ _ _ _ _ _ _ Ht) as [Hs2 _].
      pose proof (transcribe_attempts _ _ _ _ _ _ Ht) as Ha2.
      destruct b as [transcript|]; rewrite Hb.
      * destruct (IH total (idx + 1) failed_videos w2)
          as (t & w' & failed & done & attempts & Hrun & Hspec & Hat & Her & Hsub).
        rewrite Hrun.
        exists (progress_line idx total video_id :: (t1 ++ t2) ++ t), w',
          failed, ((video_id, transcript) :: done),
          (Acquisition video_id :: Transcription video_id :: attempts).
        split; [done|]. split; [by eapply orchestrated_done|].
        split; [|split].
        -- cbn. rewrite !omap_app, Ha1, Ha2, Hat. done.
        -- cbn. rewrite !omap_app, !step_trace_error_ids, Her by done. done.
        -- by apply sublist_cons.
      * destruct (IH total (idx + 1) (failed_videos ++ [video_id])
                    (log_tick E w2))
          as (t & w' & failed & done & attempts & Hrun & Hspec & Hat & Her & Hsub).
        rewrite Hrun.
        eexists _, w', (video_id :: failed), done,
          (Acquisition video_id :: Transcription video_id :: attempts).
        split; [by rewrite <- app_assoc|].
        split; [by eapply orchestrated_transcription_fails|].
        split; [|split].
        -- cbn. rewrite !omap_app, Ha1, Ha2, Hat. done.
        -- cbn. rewrite !omap_app, !step_trace_error_ids, Her by done. done.
        -- by apply sublist_skip.
    + rewrite Ha.
      destruct (IH total (idx + 1) (failed_videos ++ [video_id])
                  (log_tick E w1))
        as (t & w' & failed & done & attempts & Hrun & Hspec & Hat & Her & Hsub).
      rewrite Hrun.
      eexists _, w', (video_id :: failed), done,
        (Acquisition video_id :: attempts).
      split; [by rewrite <- app_assoc|].
      split; [by eapply orchestrated_acquisition_fails|].
      split; [|split].
      * cbn. rewrite !omap_app, Ha1, Hat. done.
      * cbn. rewrite !omap_app, !step_trace_error_ids, Her by done. done.
      * by apply sublist_skip.
Qed.

End Batch.

(** Reading a derivation of [orchestrated] against known outcomes of the
    steps. *)
Ltac orchestrated_inv H :=
  inversion H; subst; clear H;
  repeat match goal with
         | H1 : ?run = _, H2 : ?run = _ |- _ => rewrite H1 in H2; simplify_eq
         end.

(** ** A batch over identifiers whose artifacts are all there *)

Section Rerun.
Context (E : External).
Context (language_code : option string) (output_path : string)
        (auto_detect_language : bool) (gpu_id : Z).
Implicit Types (w : World (Hidden E)).

Lemma process_video_cached total idx video_id failed_videos w :
  isdir w output_path →
  is_Some (fs w !! audio_file_path output_path video_id) →
  is_Some (fs w !! transcript_file_path output_path video_id) →
  ∃ t w',
    process_video E total idx video_id language_code output_path
      auto_detect_language gpu_id failed_videos w = (t, w', Ret failed_videos)
    ∧ fs w' = fs w ∧ Forall quiet t.
Proof.
  intros Hdir Ha Ht.
  destruct (process_video_run E language_code output_path
              auto_detect_language gpu_id total idx video_id failed_videos w)
    as (t1 & w1 & a & Hd & Hrun).
  rewrite (download_hit E _ _ _ Hdir Ha) in Hd. injection Hd as <- <- <-.
  destruct Hrun as (t2 & w2 & b & Htr & Hrun).
  rewrite transcribe_hit in Htr by done. injection Htr as <- <- <-.
  eexists _, _. split; [exact Hrun|]. split; [reflexivity|].
  repeat constructor.
Qed.

Lemma process_videos_from_cached video_ids :
  ∀ total idx failed_videos w,
  all_cached w output_path video_ids →
  ∃ t w',
    process_videos_from E total idx video_ids language_code output_path
      auto_detect_language gpu_id failed_videos w = (t, w', Ret failed_videos)
    ∧ fs w' = fs w ∧ Forall quiet t.
Proof.
  induction video_ids as [|video_id rest IH];
    intros total idx failed_videos w [Hdir Hall].
  - exists [], w. repeat split; constructor.
  - destruct (Hall video_id) as [Ha Ht]; [by left|].
    destruct (process_video_cached total idx video_id failed_videos w
                Hdir Ha Ht) as (t1 & w1 & Hrun1 & Hfs1 & Hq1).
    destruct (IH total (idx + 1) failed_videos w1)
      as (t2 & w2 & Hrun2 & Hfs2 & Hq2).
    { destruct Hdir as [Hp Hd]. split; [split; [done | by rewrite Hfs1]|].
      intros id Hid. rewrite Hfs1. apply Hall. by right. }
    exists (t1 ++ t2), w2. cbn [process_videos_from].
    rewrite bind_run, Hrun1, Hrun2. split; [done|].
    split; [congruence | by apply Forall_app].
Qed.

End Rerun.

(** ** The Metadata Fetcher *)

Section Chunks.
Local Open Scope nat_scope.
Context {A : Type}.
Implicit Types (l : list A).

Lemma range_len_bound n : n ≤ 50 * Py.range_len n 50.
Proof.
  unfold Py.range_len.
  pose proof (Nat.div_mod_eq (n + 50 - 1) 50).
  pose proof (Nat.mod_upper_bound (n + 50 - 1) 50). lia.
Qed.

Lemma range_len_below n k : k < Py.range_len n 50 → k * 50 < n.
Proof.
  unfold Py.range_len. intros Hk.
  pose proof (Nat.div_mod_eq (n + 50 - 1) 50).
  pose proof (Nat.mod_upper_bound (n + 50 - 1) 50). lia.
Qed.

Lemma slices_shift l m :
  (λ k, Py.slice l (k * 50) 50) <$> (S <$> seq 0 m) =
  (λ k, Py.slice (drop 50 l) (k * 50) 50) <$> seq 0 m.
Proof.
  rewrite <- list_fmap_compose. apply list_fmap_ext. intros _ k _. cbn.
  unfold Py.slice. by rewrite drop_drop.
Qed.

Lemma concat_slices m : ∀ l,
  length l ≤ 50 * m →
  concat ((λ k, Py.slice l (k * 50) 50) <$> seq 0 m) = l.
Proof.
  induction m as [|m IH]; intros l Hl.
  - destruct l; [done | cbn in Hl; lia].
  - change (seq 0 (S m)) with (0 :: seq 1 m).
    rewrite <- fmap_S_seq, fmap_cons, slices_shift. cbn [concat].
    rewrite IH by (rewrite length_drop; lia).
    unfold Py.slice. cbn [Nat.mul drop]. apply take_drop.
Qed.

Lemma slice_length l k :
  length (Py.slice l (k * 50) 50) = 50 `min` (length l - k * 50).
Proof. unfold Py.slice. by rewrite length_take, length_drop. Qed.

End Chunks.

Section Chunk_facts.
Local Open Scope nat_scope.

Lemma chunks_unfold video_ids :
  chunks video_ids =
  (λ k, Py.slice video_ids (k * 50) 50)
    <$> seq 0 (Py.range_len (length video_ids) 50).
Proof. unfold chunks, Py.range. by rewrite <- list_fmap_compose. Qed.

(** The chunks are consecutive pieces of the list, each of 1 to 50
    identifiers, and there are ceil(n/50) of them. *)
Lemma chunks_partition video_ids :
  concat (chunks video_ids) = video_ids
  ∧ Forall (λ c, 1 ≤ length c ≤ 50) (chunks video_ids)
  ∧ length (chunks video_ids) = (length video_ids + 49) / 50.
Proof.
  rewrite chunks_unfold. split; [|split].
  - apply concat_slices, range_len_bound.
  - apply Forall_fmap, Forall_forall. intros k Hk%elem_of_seq.
    cbn. rewrite slice_length.
    pose proof (range_len_below (length video_ids) k). lia.
  - rewrite length_fmap, length_seq. unfold Py.range_len.
    f_equal. lia.
Qed.

Lemma chunks_120 video_ids :
  length video_ids = 120 → length <$> chunks video_ids = [50; 50; 20].
Proof.
  intros Hn. rewrite chunks_unfold, <- list_fmap_compose, Hn.
  change (Py.range_len 120 50) with 3. cbn [seq fmap list_fmap compose].
  rewrite !slice_length, Hn. reflexivity.
Qed.

End Chunk_facts.

Section Fetch.
Context (E : External).
Implicit Types (w : World (Hidden E)).

Lemma collect_items_acc items : ∀ acc,
  collect_items items acc =
  (acc ++ (collect_items items []).1, (collect_items items []).2).
Proof.
  induction items as [|it items IH]; intros acc; cbn.
  - by rewrite app_nil_r.
  - destruct (read_item it) as [vi|e|c]; cbn; try by rewrite app_nil_r.
    rewrite (IH (acc ++ [vi])), (IH [vi]). cbn. by rewrite <- app_assoc.
Qed.

Lemma read_item_no_exit it c : read_item it ≠ SysExit c.
Proof.
  unfold read_item, subscript. repeat case_match; congruence.
Qed.

Lemma collect_items_no_exit items acc c :
  (collect_items items acc).2 ≠ SysExit c.
Proof.
  revert acc. induction items as [|it items IH]; intros acc; cbn; [done|].
  destruct (read_item it) as [vi|e|c'] eqn:Hit; cbn; [apply IH | done |].
  by apply read_item_no_exit in Hit.
Qed.

(** One chunk: one request, and the entries of its reply. *)
Lemma fetch_chunk_run youtube chunk video_info_list w :
  ∃ t w' r,
    fetch_chunk E youtube chunk video_info_list w =
      (t, w', Ret (video_info_list ++ contribution r))
    ∧ omap requested t = [Py.join "," chunk]
    ∧ omap replied t = [r]
    ∧ Forall fetch_event t.
Proof.
  unfold fetch_chunk, call. cbn zeta.
  destruct (videos_list_execute E _ _ _ w) as [w1 [response|msg]].
  - rewrite collect_items_acc.
    pose proof (collect_items_no_exit
                  (default [] (response_items response)) []) as Hne.
    destruct (collect_items _ []) as [infos [[]|e|c]] eqn:Hc; cbn in *.
    + eexists _, _, (Returned response). unfold contribution. rewrite Hc.
      split; [reflexivity|]. cbn. repeat split. repeat constructor.
    + rewrite stamped_print_run. cbn.
      eexists _, _, (Returned response). unfold contribution. rewrite Hc.
      split; [reflexivity|].
      cbn. repeat split. repeat constructor.
    + by destruct (Hne c).
  - rewrite stamped_print_run. cbn.
    eexists _, _, (Raised msg). split; [by rewrite app_nil_r|].
    cbn. repeat split. repeat constructor.
Qed.

Lemma for_chunks_run youtube video_ids starts :
  ∀ video_info_list w,
  ∃ t w',
    for_chunks E youtube video_ids starts video_info_list w =
      (t, w', Ret (video_info_list
                   ++ concat (contribution <$> omap replied t)))
    ∧ omap requested t =
        (λ i, Py.join "," (Py.slice video_ids i 50)) <$> starts
    ∧ Forall fetch_event t.
Proof.
  induction starts as [|i starts IH]; intros video_info_list w.
  - exists [], w. cbn. rewrite app_nil_r. repeat split. constructor.
  - cbn [for_chunks]. rewrite bind_run.
    destruct (fetch_chunk_run youtube (Py.slice video_ids i 50)
                video_info_list w) as (t1 & w1 & r & Hrun & Hreq & Hrep & Hev).
    rewrite Hrun.
    destruct (IH (video_info_list ++ contribution r) w1)
      as (t2 & w2 & Hrun2 & Hreq2 & Hev2).
    rewrite Hrun2. exists (t1 ++ t2), w2. split; [|split].
    + rewrite omap_app, Hrep, fmap_app, concat_app. cbn.
      by rewrite app_nil_r, <- app_assoc.
    + by rewrite omap_app, Hreq, Hreq2.
    + by apply Forall_app.
Qed.

(** The whole fetch: one request per chunk, in order, and the entries
    of the replies, in order. *)
Lemma get_video_info_run video_ids api_key w :
  ∃ t w',
    get_video_info E video_ids api_key w =
      (t, w', Ret (concat (contribution <$> omap replied t)))
    ∧ omap requested t = Py.join "," <$> chunks video_ids
    ∧ Forall fetch_event t.
Proof.
  unfold get_video_info.
  destruct (for_chunks_run (build "youtube" "v3" api_key) video_ids
              (Py.range (length video_ids) 50) [] w)
    as (t & w' & Hrun & Hreq & Hev).
  exists t, w'. split; [done|]. split; [|done].
  rewrite Hreq. unfold chunks. by rewrite <- list_fmap_compose.
Qed.

End Fetch.

Lemma contribution_readable items infos :
  Forall2 (λ it vi, read_item it = Ret vi) items infos →
  contribution (Returned (mkResponse (Some items))) = infos.
Proof.
  unfold contribution. cbn.
  induction 1 as [|it vi items infos Hit _ IH]; [done|].
  cbn. rewrite Hit, collect_items_acc. cbn. by rewrite IH.
Qed.

(** ** UTF-8 and lines *)

Section Utf8_facts.

Lemma string_of_bytes_app x y :
  Utf8.string_of_bytes (x ++ y) =
  Utf8.string_of_bytes x +:+ Utf8.string_of_bytes y.
Proof. induction x as [|b x IH]; [done|]. cbn. by rewrite IH. Qed.

Lemma encode_bytes_app a b :
  Utf8.encode_bytes (a ++ b) =
  match Utf8.encode_bytes a, Utf8.encode_bytes b with
  | Some x, Some y => Some (x ++ y)
  | _, _ => None
  end.
Proof.
  induction a as [|c a IH]; cbn.
  - by destruct (Utf8.encode_bytes b).
  - rewrite IH. destruct (Utf8.encode_point c) as [x|]; [|done].
    destruct (Utf8.encode_bytes a) as [y|]; [|done].
    destruct (Utf8.encode_bytes b) as [z|]; [|done].
    by rewrite app_assoc.
Qed.

(** [f"{text}\n"] encodes to the encoding of the text and a line feed. *)
Lemma encode_line t :
  Utf8.encode (t ++ [Utf8.LF]) = (λ line, line +:+ "
") <$> Utf8.encode t.
Proof.
  unfold Utf8.encode. rewrite encode_bytes_app.
  destruct (Utf8.encode_bytes t) as [x|]; [|done]. cbn.
  by rewrite string_of_bytes_app.
Qed.

(** Bytes from 128 on are no line breaks. *)
Lemma high_byte_no_break b :
  128 ≤ b < 256 → break_char (Utf8.byte_char b) = false.
Proof.
  intros Hb. unfold break_char, Utf8.byte_char.
  apply orb_false_intro; apply Ascii.eqb_neq; intros Heq;
    apply (f_equal N_of_ascii) in Heq;
    rewrite N_ascii_embedding in Heq by lia; cbn in Heq; lia.
Qed.

Lemma low_byte_no_break b :
  0 ≤ b < 128 → break_point b = false →
  break_char (Utf8.byte_char b) = false.
Proof.
  intros Hb Hp. unfold break_char, Utf8.byte_char.
  apply orb_false_elim in Hp as [H10 H13].
  apply Z.eqb_neq in H10, H13.
  apply orb_false_intro; apply Ascii.eqb_neq; intros Heq;
    apply (f_equal N_of_ascii) in Heq;
    rewrite N_ascii_embedding in Heq by lia; cbn in Heq; lia.
Qed.

(** [Z.lor hi x] is a byte from 128 on, for every [x] below [n]:
    checked for each [x]. *)
Lemma lor_high hi n x :
  forallb (λ k, let b := Z.lor hi (Z.of_nat k) in (128 <=? b) && (b <? 256))
    (seq 0 n) = true →
  0 ≤ x < Z.of_nat n → 128 ≤ Z.lor hi x < 256.
Proof.
  intros Hall Hx. rewrite forallb_forall in Hall.
  specialize (Hall (Z.to_nat x)). rewrite Z2Nat.id in Hall by lia.
  cbn zeta in Hall. rewrite andb_true_iff in Hall.
  destruct Hall as [H1 H2]; [apply in_seq; lia | lia].
Qed.

Lemma low_six c : 0 ≤ Z.land c 0x3F < 64.
Proof.
  change 0x3F with (Z.ones 6). rewrite Z.land_ones by lia.
  apply Z.mod_pos_bound. lia.
Qed.

Lemma shifted c n m : 0 ≤ c < m * 2 ^ n → 0 ≤ n → 0 ≤ Z.shiftr c n < m.
Proof.
  intros Hc Hn. rewrite Z.shiftr_div_pow2 by done. split.
  - apply Z.div_pos; lia.
  - apply Z.div_lt_upper_bound; lia.
Qed.

Lemma encode_point_no_break c bs :
  Utf8.encode_point c = Some bs → break_point c = false →
  Forall (λ b, break_char (Utf8.byte_char b) = false) bs.
Proof.
  unfold Utf8.encode_point. intros Henc Hp.
  repeat case_match; simplify_eq; repeat constructor;
    try (apply low_byte_no_break; [lia | done]);
    apply high_byte_no_break;
    first
      [ apply (lor_high _ 64); [vm_compute; reflexivity | apply low_six]
      | apply (lor_high _ 32);
          [vm_compute; reflexivity | apply (shifted c 6 32); lia]
      | apply (lor_high _ 16);
          [vm_compute; reflexivity | apply (shifted c 12 16); lia]
      | apply (lor_high _ 17);
          [vm_compute; reflexivity | apply (shifted c 18 17); lia] ].
Qed.

Lemma has_break_app a b : has_break (a +:+ b) = has_break a || has_break b.
Proof.
  induction a as [|c a IH]; [done|].
  change (has_break (String c a +:+ b))
    with (break_char c || has_break (a +:+ b)).
  rewrite IH. apply orb_assoc.
Qed.

Lemma string_of_bytes_no_break bs :
  Forall (λ b, break_char (Utf8.byte_char b) = false) bs →
  has_break (Utf8.string_of_bytes bs) = false.
Proof. induction 1 as [|b bs Hb _ IH]; [done|]. cbn. by rewrite Hb, IH. Qed.

(** A text without line breaks encodes to bytes without line breaks. *)
Lemma encode_no_break t line :
  Utf8.encode t = Some line → existsb break_point t = false →
  has_break line = false.
Proof.
  unfold Utf8.encode. revert line.
  induction t as [|c t IH]; intros line; cbn.
  - by intros [= <-].
  - destruct (Utf8.encode_point c) as [x|] eqn:Hc; [|done].
    destruct (Utf8.encode_bytes t) as [y|]; [|done]. cbn in *.
    intros [= <-] [Hp Ht]%orb_false_elim.
    rewrite string_of_bytes_app, has_break_app.
    rewrite (string_of_bytes_no_break x) by by eapply encode_point_no_break.
    by rewrite (IH _ eq_refl).
Qed.

Lemma string_app_assoc (a b c : string) : (a +:+ b) +:+ c = a +:+ b +:+ c.
Proof.
  induction a as [|x a IH]; [done|].
  change (String x ((a +:+ b) +:+ c) = String x (a +:+ b +:+ c)).
  by rewrite IH.
Qed.

Lemma string_app_nil_r (a : string) : a +:+ "" = a.
Proof.
  induction a as [|x a IH]; [done|].
  change (String x (a +:+ "") = String x a). by rewrite IH.
Qed.

(** Reading back a line that was written without a line break inside. *)
Lemma lines_from_line line : ∀ cur rest,
  has_break line = false →
  Py.lines_from cur (line +:+ "
" +:+ rest) = (cur +:+ line +:+ "
") :: Py.lines_from "" rest.
Proof.
  induction line as [|c line IH]; intros cur rest Hb.
  - reflexivity.
  - change (has_break (String c line))
      with (break_char c || has_break line) in Hb.
    apply orb_false_elim in Hb as [Hc Hl].
    apply orb_false_elim in Hc as [H10 H13].
    change (Py.lines_from cur (String c line +:+ "
" +:+ rest))
      with (if Ascii.eqb c "010" then
              (cur +:+ "
") :: Py.lines_from "" (line +:+ "
" +:+ rest)
            else if Ascii.eqb c "013" then
              match line +:+ "
" +:+ rest with
              | String d r' =>
                  if Ascii.eqb d "010" then
                    (cur +:+ "
") :: Py.lines_from "" r'
                  else (cur +:+ "
") :: Py.lines_from "" (line +:+ "
" +:+ rest)
              | EmptyString => [cur +:+ "
"]
              end
            else Py.lines_from (cur +:+ String c "") (line +:+ "
" +:+ rest)).
    rewrite H10, H13, IH by done.
    change (String c line +:+ "
") with (String c "" +:+ line +:+ "
").
    by rewrite string_app_assoc.
Qed.

Lemma readlines_file_of_lines lines :
  Forall (λ line, has_break line = false) lines →
  Py.readlines (file_of_lines lines) = (λ l, l +:+ "
") <$> lines.
Proof.
  unfold Py.readlines. induction 1 as [|line lines Hl _ IH]; [done|].
  cbn [file_of_lines fmap list_fmap]. rewrite lines_from_line by done.
  by rewrite IH.
Qed.

End Utf8_facts.

(** ** The transcript file *)

Lemma write_segments_ok segs : ∀ written content,
  write_segments segs written = (content, Ret ()) →
  ∃ lines, encoded_texts segs lines
           ∧ content = written +:+ file_of_lines lines.
Proof.
  induction segs as [|seg segs IH]; intros written content; cbn.
  - intros [= <-]. exists []. split; [constructor|].
    cbn [file_of_lines]. by rewrite string_app_nil_r.
  - rewrite encode_line.
    destruct (Utf8.encode (seg_text seg)) as [line|] eqn:Hline; [|done].
    cbn. intros (lines & Henc & ->)%IH.
    exists (line :: lines). split; [by constructor|].
    cbn [file_of_lines]. by rewrite !string_app_assoc.
Qed.

Lemma write_segments_all segs lines : ∀ written,
  encoded_texts segs lines →
  write_segments segs written = (written +:+ file_of_lines lines, Ret ()).
Proof.
  induction segs as [|seg segs IH] in lines |- *; intros written Henc;
    inversion Henc as [|? line ? lines' Hline Hrest]; subst; cbn.
  - cbn [file_of_lines]. by rewrite string_app_nil_r.
  - rewrite encode_line, Hline. cbn. rewrite (IH _ _ Hrest).
    by rewrite !string_app_assoc.
Qed.

Section Transcript.
Context (E : External).
Implicit Types (w : World (Hidden E)).

(** A Transcription that did the work: it ran inference once, got
    [result], and the file holds what [write_segments] gives for its
    segments. *)
Lemma transcribe_written audio_file video_id language_code output_path auto
    gpu_id w t w' path :
  fs w !! transcript_file_path output_path video_id = None →
  transcribe_audio_and_save_to_txt E audio_file video_id language_code
    output_path auto gpu_id w = (t, w', Ret (Some path)) →
  path = transcript_file_path output_path video_id
  ∧ ∃ result content,
      Transcribe audio_file (if auto then None else language_code)
        (Returned result) ∈ t
      ∧ (∀ a l r, Transcribe a l r ∈ t →
           a = audio_file ∧ r = Returned result)
      ∧ write_segments (segments result) "" = (content, Ret ())
      ∧ fs w' !! path = Some (File content).
Proof.
  intros Hnone. unfold transcribe_audio_and_save_to_txt. unfold_script.
  rewrite Hnone. rewrite bool_decide_eq_false_2 by by intros [? ?].
  repeat innermost_destruct; intros [= <- <- <-]; (split; [done|]);
    simplify_eq;
    repeat match goal with u : () |- _ => destruct u end;
    match goal with
    | H : write_segments (segments ?res) _ = (?c, _) |- _ =>
        exists res, c
    end;
    (split; [find_in_trace|]); (split; [|split; [done|]]);
    try (intros a l r Hin;
         repeat (apply elem_of_cons in Hin as [?|Hin]; [by simplify_eq|]);
         by apply elem_of_nil in Hin);
    cbn; apply lookup_insert_eq.
Qed.

End Transcript.

(** ** The entry point *)

Section Emits.
Context {X : Type}.

Lemma emits_total {A} P (m : @M X A) : total P m → emits P m.
Proof. intros H w t w' r Hm. by destruct (H _ _ _ _ Hm). Qed.

Lemma emits_ret {A} P (a : A) : emits P (mret a : @M X A).
Proof. intros w t w' r [= <- <- <-]. constructor. Qed.

Lemma emits_exit {A} P c : emits P (sys_exit c : @M X A).
Proof. intros w t w' r [= <- <- <-]. constructor. Qed.

Lemma emits_bind {A B} P (m : @M X A) (f : A → @M X B) :
  emits P m → (∀ a, emits P (f a)) → emits P (m ≫= f).
Proof.
  intros Hm Hf w t w' r Hrun.
  apply bind_inv in Hrun
    as [(t1 & w1 & a & t2 & H1 & H2 & ->)|[(e & H1 & ->)|(c & H1 & ->)]].
  - apply Forall_app. split; [by eapply Hm | by eapply Hf].
  - by eapply Hm.
  - by eapply Hm.
Qed.

Lemma emits_if {A} P (b : bool) (m1 m2 : @M X A) :
  emits P m1 → emits P m2 → emits P (if b then m1 else m2).
Proof. by destruct b. Qed.

Lemma emits_try {A} P (body : @M X A) handler :
  emits P body → (∀ e, emits P (handler e)) →
  emits P (try_except body handler).
Proof.
  intros Hb Hh w t w' r. rewrite try_except_run.
  destruct (body w) as [[t1 w1] [a|e|c]] eqn:Hbody.
  - intros [= <- <- <-]. by eapply Hb.
  - destruct (handler e w1) as [[t2 w2] r2] eqn:Hh2. intros [= <- <- <-].
    apply Forall_app. split; [by eapply Hb | by eapply Hh].
  - intros [= <- <- <-]. by eapply Hb.
Qed.

Lemma emits_input P prompt :
  (∀ r, P (Input prompt r)) → emits P (input prompt : @M X string).
Proof.
  intros HP w t w' r. unfold input.
  destruct (stdin w); intros [= <- <- <-]; by repeat constructor.
Qed.

Lemma emits_impl {A} (P Q : event → Prop) (m : @M X A) :
  (∀ e, P e → Q e) → emits P m → emits Q m.
Proof. intros HPQ Hm w t w' r Hrun. eapply Forall_impl; [by eapply Hm | done]. Qed.

End Emits.

Ltac emits_step :=
  first
    [ apply emits_ret | apply emits_exit
    | apply emits_total; first [apply total_print | apply total_timestamp
                               | apply total_exists]
    | apply emits_input; intros ?
    | apply emits_bind; [|intros ?]
    | apply emits_if | apply emits_try; [|intros ?] ].

Lemma fetch_event_setup e : fetch_event e → setup e.
Proof. by intros []. Qed.

Lemma setup_call_exclusive e : setup e → call_exclusive e.
Proof. by destruct e. Qed.

Section Main.
Context (E : External).
Implicit Types (w : World (Hidden E)).

Lemma ask_video_ids_file_events lines :
  Forall (λ e, is_input e = true) (ask_video_ids_file lines).1.1.
Proof.
  induction lines as [|l lines IH]; cbn; [by repeat constructor|].
  destruct (Py.truthy (Py.strip l)); [by repeat constructor|].
  destruct (ask_video_ids_file lines) as [[t rest] r]. by constructor.
Qed.

(** Settling the input file reads standard input and does nothing else. *)
Lemma resolve_run given w t w' r :
  resolve_video_ids_file E given w = (t, w', r) →
  Forall (λ e, is_input e = true) t ∧ fs w' = fs w ∧ ext w' = ext w
  ∧ ∀ c, r ≠ SysExit c.
Proof.
  assert (Hask : prompt_video_ids_file E w = (t, w', r) →
    Forall (λ e, is_input e = true) t ∧ fs w' = fs w ∧ ext w' = ext w
    ∧ ∀ c, r ≠ SysExit c).
  { unfold prompt_video_ids_file.
    pose proof (ask_video_ids_file_events (stdin w)) as Hev.
    assert (Hr : ∀ c, (ask_video_ids_file (stdin w)).2 ≠ SysExit c).
    { generalize (stdin w). intros lines c.
      induction lines as [|l lines IH]; cbn; [done|].
      destruct (Py.truthy (Py.strip l)); [done|].
      by destruct (ask_video_ids_file lines) as [[? ?] ?]. }
    destruct (ask_video_ids_file (stdin w)) as [[t0 rest] r0].
    intros [= <- <- <-]. done. }
  unfold resolve_video_ids_file.
  destruct given as [f|]; [|done]. destruct (Py.truthy f); [|done].
  intros [= <- <- <-]. repeat split; [constructor | congruence].
Qed.

Lemma input_setup e : is_input e = true → setup e.
Proof. by destruct e. Qed.

Lemma emits_resolve given : emits setup (resolve_video_ids_file E given).
Proof.
  intros w t w' r Hrun. apply resolve_run in Hrun as [Hev _].
  eapply Forall_impl; [done | apply input_setup].
Qed.

Lemma emits_preflight args environ : emits setup (preflight E args environ).
Proof.
  unfold preflight. cbn zeta.
  apply emits_bind; [apply emits_resolve | intros ?].
  repeat emits_step; reflexivity.
Qed.

Lemma emits_print_menu langs : ∀ idx, emits setup (print_menu E idx langs).
Proof.
  induction langs as [|lang langs IH]; intros idx; cbn.
  - apply emits_ret.
  - apply emits_bind; [|intros ?; apply IH].
    apply emits_total, total_print. reflexivity.
Qed.

Lemma emits_select_language given : emits setup (select_language E given).
Proof.
  assert (emits setup (prompt_language E)).
  { unfold prompt_language.
    apply emits_bind; [apply emits_total, total_print; reflexivity|intros ?].
    apply emits_bind; [apply emits_print_menu | intros ?].
    apply emits_bind; [apply emits_input; reflexivity | intros choice].
    cbn zeta. repeat case_match; repeat emits_step; reflexivity. }
  unfold select_language. repeat case_match; try done. apply emits_ret.
Qed.

Lemma emits_language_mode language : emits setup (language_mode E language).
Proof.
  unfold language_mode. cbn zeta. repeat emits_step; reflexivity.
Qed.

Lemma emits_read_video_ids file_path :
  emits setup (read_video_ids_from_file E file_path).
Proof.
  unfold read_video_ids_from_file. apply emits_try; [|intros e].
  - apply emits_bind; [|intros ?; apply emits_ret].
    intros w t w' r. unfold open_r.
    repeat case_match; intros [= <- <- <-]; constructor.
  - repeat emits_step; reflexivity.
Qed.

Lemma emits_get_video_info video_ids api_key :
  emits setup (get_video_info E video_ids api_key).
Proof.
  intros w t w' r Hrun.
  destruct (get_video_info_run E video_ids api_key w) as (t0 & w0 & H0 & _ & Hev).
  rewrite H0 in Hrun. injection Hrun as <- <- <-.
  eapply Forall_impl; [done | apply fetch_event_setup].
Qed.

Lemma emits_prepare args video_ids_file api_key :
  emits setup (prepare E args video_ids_file api_key).
Proof.
  unfold prepare.
  apply emits_bind; [apply emits_select_language | intros language].
  apply emits_bind; [apply emits_language_mode | intros [auto code]].
  apply emits_bind; [apply emits_read_video_ids | intros video_ids].
  apply emits_bind; [repeat emits_step; reflexivity | intros ?].
  apply emits_bind; [apply emits_total, total_timestamp | intros ts].
  apply emits_bind; [apply emits_total, total_print; reflexivity | intros ?].
  apply emits_bind; [apply emits_get_video_info | intros infos].
  apply emits_bind; [repeat emits_step; reflexivity | intros ?].
  apply emits_ret.
Qed.

Lemma parse_args_run argv w :
  (language_accepted (language argv) ∧
   parse_args E argv w = ([], w, Ret argv))
  ∨ parse_args E argv w = ([], w, SysExit 2).
Proof.
  unfold parse_args, language_accepted, languages.
  destruct (language argv) as [l|]; [|by left].
  case_bool_decide; [by left | by right].
Qed.

(** The language is one of the list, whichever way it was chosen. *)
Lemma select_language_in given w t w' l :
  language_accepted given →
  select_language E given w = (t, w', Ret l) →
  l ∈ languages.
Proof.
  intros Hok.
  assert (Hprompt : ∀ t w', prompt_language E w = (t, w', Ret l) →
                            l ∈ languages).
  { clear. intros t w'. unfold prompt_language.
    intros (t1 & w1 & [] & t2 & _ & H & ->)%bind_inv_ret.
    apply bind_inv_ret in H as (t3 & w3 & [] & t4 & _ & H & ->).
    apply bind_inv_ret in H as (t5 & w5 & choice & t6 & _ & H & ->).
    cbn zeta in H.
    assert (Hindi : "Hindi" ∈ languages) by (unfold languages; set_solver).
    repeat case_match;
      try (apply bind_inv_ret in H as (? & ? & [] & ? & _ & H & ->));
      injection H as <- <- <-; try done.
    destruct (languages !! Z.to_nat (_ - 1)) as [l|] eqn:Hl; [|done].
    cbn. by eapply list_elem_of_lookup_2. }
  unfold select_language. destruct given as [l'|]; [|apply Hprompt].
  destruct (Py.truthy l'); [|apply Hprompt].
  by intros [= <- <- <-].
Qed.

Lemma language_mode_exclusive language w t w' auto code :
  language ∈ languages →
  language_mode E language w = (t, w', Ret (auto, code)) →
  exclusive auto code.
Proof.
  unfold language_mode, languages. intros Hin.
  destruct (String.eqb language "Auto-detect language") eqn:Hauto.
  - intros [= <- <- <- <-]. by left.
  - intros [= <- <- <- <-]. right. split; [done|].
    in_trace Hin; first [discriminate Hauto | vm_compute; eauto].
Qed.

(** What [prepare] hands to the batch. *)
Lemma prepare_post args video_ids_file api_key w t w' video_ids auto code :
  language_accepted (language args) →
  prepare E args video_ids_file api_key w =
    (t, w', Ret (video_ids, auto, code)) →
  exclusive auto code ∧ video_ids ≠ [].
Proof.
  intros Hok. unfold prepare.
  intros (t1 & w1 & language & t2 & Hsel & H & ->)%bind_inv_ret.
  apply bind_inv_ret in H as (t3 & w3 & [auto' code'] & t4 & Hmode & H & ->).
  apply bind_inv_ret in H as (t5 & w5 & ids & t6 & _ & H & ->).
  apply bind_inv_ret in H as (t7 & w7 & [] & t8 & Hne & H & ->).
  apply bind_inv_ret in H as (? & ? & ts & ? & _ & H & ->).
  apply bind_inv_ret in H as (? & ? & [] & ? & _ & H & ->).
  apply bind_inv_ret in H as (? & ? & infos & ? & _ & H & ->).
  apply bind_inv_ret in H as (? & ? & [] & ? & _ & H & ->).
  injection H as <- <- <- <- <-. split.
  - eapply language_mode_exclusive; [|done].
    by eapply select_language_in.
  - intros ->. rewrite bool_decide_eq_true_2 in Hne by done.
    apply bind_inv_ret in Hne as (? & ? & ? & ? & _ & Hne & _).
    apply bind_inv_ret in Hne as (? & ? & ? & ? & _ & Hne & _).
    discriminate Hne.
Qed.

End Main.

Section Main_run.
Context (E : External).
Implicit Types (w : World (Hidden E)).

Lemma download_calls video_id output_path auto code w t w' r :
  download_youtube_audio E video_id output_path w = (t, w', r) →
  Forall (call_with auto code) t.
Proof.
  unfold download_youtube_audio. unfold_script.
  repeat innermost_destruct; intros [= <- <- <-]; by repeat constructor.
Qed.

Lemma transcribe_calls audio video_id code output_path auto gpu_id w t w' r :
  transcribe_audio_and_save_to_txt E audio video_id code output_path auto
    gpu_id w = (t, w', r) →
  Forall (call_with auto code) t.
Proof.
  unfold transcribe_audio_and_save_to_txt. unfold_script.
  repeat innermost_destruct; intros [= <- <- <-]; by repeat constructor.
Qed.

(** Every Transcription call of the loop carries the mode the loop was
    given. *)
Lemma process_videos_from_calls code output_path auto gpu_id video_ids :
  ∀ total idx failed_videos w t w' r,
  process_videos_from E total idx video_ids code output_path auto gpu_id
    failed_videos w = (t, w', r) →
  Forall (call_with auto code) t.
Proof.
  induction video_ids as [|video_id rest IH];
    intros total idx failed_videos w t w' r.
  - intros [= <- <- <-]. constructor.
  - cbn [process_videos_from]. rewrite bind_run.
    destruct (process_video_run E code output_path auto gpu_id total idx
                video_id failed_videos w) as (t1 & w1 & a & Hd & Ha).
    pose proof (download_calls _ _ auto code _ _ _ _ Hd) as Hc1.
    assert (Hstep : ∃ ts w2 f,
      process_video E total idx video_id code output_path auto gpu_id
        failed_videos w = (ts, w2, Ret f) ∧ Forall (call_with auto code) ts).
    { destruct a as [audio|].
      - destruct Ha as (t2 & w2 & b & Ht & Hb).
        pose proof (transcribe_calls _ _ _ _ _ _ _ _ _ _ Ht) as Hc2.
        destruct b; eexists _, _, _; (split; [exact Hb|]);
          repeat first [ apply Forall_cons; split; [done|]
                       | apply Forall_app; split; [done|] ];
          by repeat constructor.
      - eexists _, _, _. split; [exact Ha|].
        repeat first [ apply Forall_cons; split; [done|]
                     | apply Forall_app; split; [done|] ];
          by repeat constructor. }
    destruct Hstep as (ts & w2 & f & -> & Hcs).
    destruct (process_videos_from E total (idx + 1) rest code output_path
                auto gpu_id f w2) as [[t3 w3] r3] eqn:Hrest.
    intros [= <- <- <-]. apply Forall_app. split; [done|].
    by eapply IH.
Qed.

(** A run of [main] either ends before the batch, not returning and
    having done no work on any item, or goes through the whole batch,
    closes with the report and returns. *)
Lemma main_run argv environ w t w' r :
  main E argv environ w = (t, w', r) →
  (Forall setup t ∧ ∀ a, r ≠ Ret a)
  ∨ (∃ tpre tb failed auto code,
       t = tpre ++ tb ++ [report failed] ∧ r = Ret ()
       ∧ Forall setup tpre ∧ Forall (call_with auto code) tb
       ∧ exclusive auto code).
Proof.
  unfold main. rewrite bind_run.
  destruct (parse_args_run E argv w) as [[Hok ->]| ->];
    [|intros [= <- <- <-]; left; split; [constructor | congruence]].
  rewrite bind_run.
  destruct (preflight E argv environ w) as [[t1 w1] r1] eqn:Hpre.
  pose proof (emits_preflight E _ _ _ _ _ _ Hpre) as Hs1.
  destruct r1 as [[f key]|e|c];
    [|intros [= <- <- <-]; left; split; [done | congruence] ..].
  rewrite bind_run.
  destruct (prepare E argv f key w1) as [[t2 w2] r2] eqn:Hprep.
  pose proof (emits_prepare E _ _ _ _ _ _ _ Hprep) as Hs2.
  destruct r2 as [[[ids auto] code]|e|c];
    [|intros [= <- <- <-]; left; split;
      [by apply Forall_app | congruence] ..].
  apply prepare_post in Hprep as [Hex _]; [|done].
  rewrite bind_run.
  destruct (process_videos E ids code (output_path argv) auto (gpu_id argv) w2)
    as [[t3 w3] r3] eqn:Hbatch.
  unfold process_videos in Hbatch. rewrite bind_run in Hbatch.
  destruct (process_videos_from_run E code (output_path argv) auto
              (gpu_id argv) ids (Z.of_nat (length ids)) 1 [] w2)
    as (tb & wb & failed & done & attempts & Hrun & _).
  pose proof (process_videos_from_calls _ _ _ _ _ _ _ _ _ _ _ _ Hrun) as Hcalls.
  rewrite Hrun in Hbatch. cbn in Hbatch. injection Hbatch as <- <- <-.
  cbn. intros [= <- <- <-]. right.
  exists (t1 ++ t2), tb, failed, auto, code.
  rewrite !app_nil_r, <- !app_assoc. repeat split; try done.
  by apply Forall_app.
Qed.

End Main_run.

Section Preflight.
Context (E : External).
Implicit Types (w : World (Hidden E)).

(** A check that fails ends [preflight] with its message and exit
    status 1. *)
Lemma preflight_fails args environ w t0 w0 f :
  resolve_video_ids_file E (video_ids_file args) w = (t0, w0, Ret f) →
  Py.endswith (Py.lower f) ".txt" = false
  ∨ fs w0 !! f = None
  ∨ Py.truthy (default EmptyString
                 (Py.or_else (api_key args) (environ !! "YT_API_KEY")))
    = false →
  ∃ msg w',
    preflight E args environ w = (t0 ++ [Print msg], w', SysExit 1)
    ∧ msg ∈ preflight_messages (stamp E w0) f
    ∧ fs w' = fs w0.
Proof.
  intros Hres Hcond. unfold preflight. rewrite bind_run, Hres.
  destruct (Py.endswith (Py.lower f) ".txt") eqn:Hext.
  - rewrite bind_run. cbn [negb mret M_ret]. rewrite bind_run, exists_run.
    destruct (fs w0 !! f) as [n|] eqn:Hf.
    + rewrite bool_decide_eq_true_2 by done. cbn zeta.
      destruct Hcond as [?|[?|Hkey]]; [done.. |]. rewrite Hkey.
      eexists _, w0. split; [cbn; reflexivity|].
      split; [|done]. unfold preflight_messages, key_message. find_in_trace.
    + rewrite bool_decide_eq_false_2 by by intros [? ?].
      rewrite bind_run. cbn [negb]. rewrite stamped_print_run.
      eexists _, (log_tick E w0). split; [cbn; reflexivity|].
      split; [|done]. unfold preflight_messages. find_in_trace.
  - eexists _, w0. split; [cbn; reflexivity|].
    split; [|done]. unfold preflight_messages. find_in_trace.
Qed.

End Preflight.

(** ** The report of a run that reached the batch *)

Section Report.
Context (E : External).
Implicit Types (w : World (Hidden E)).

(** What a reply with an item that cannot be read contributes: the
    entries of the items before it. *)
Lemma contribution_partial items infos bad rest e :
  Forall2 (λ it vi, read_item it = Ret vi) items infos →
  read_item bad = Raise e →
  contribution (Returned (mkResponse (Some (items ++ bad :: rest)))) = infos.
Proof.
  unfold contribution. cbn. intros Hread Hbad.
  induction Hread as [|it vi items infos Hit _ IH].
  - cbn. by rewrite Hbad.
  - cbn. rewrite Hit, collect_items_acc. cbn. by rewrite IH.
Qed.













End Report.

(** * The claims *)




(** C4. Exception containment of both steps.  Acquisition always
    returns (it never raises and never exits), and when the download
    mechanism raised an exception with message [msg], it returns [None]
    and its last line is the error line that names the identifier and
    [msg].  Transcription always returns as well, and when any call to
    the device, the model loader or the inference engine raised [msg],
    it returns [None] and its last line is the error line that names the
    identifier and [msg]. *)
Theorem C4_exception_containment (E : External)
    (video_id output_path : string) :
  (∀ w t w' r,
     download_youtube_audio E video_id output_path w = (t, w', r) →
     (∃ path, r = Ret path)
     ∧ ∀ opts urls msg,
         YdlDownload opts urls (Raised msg) ∈ t →
         r = Ret None
         ∧ ∃ ts, last t =
                 Some (Print [Lit "["; Str ts;
                              Lit "] Error while downloading audio for video ID ";
                              Str video_id; Lit ": "; Str msg]))
  ∧ (∀ audio_file language_code auto_detect_language gpu_id w t w' r,
     transcribe_audio_and_save_to_txt E audio_file video_id language_code
       output_path auto_detect_language gpu_id w = (t, w', r) →
     (∃ path, r = Ret path)
     ∧ ∀ e msg,
         e ∈ t → is_inference e = true → raised_by e = Some msg →
         r = Ret None
         ∧ ∃ ts, last t =
                 Some (Print [Lit "["; Str ts;
                              Lit "] Error while transcribing audio for video ID ";
                              Str video_id; Lit ": "; Str msg])).
Proof.
  split.
  - intros w t w' r Hrun. split.
    + by destruct (total_download E _ _ _ _ _ _ Hrun) as [_ ?].
    + intros opts urls msg Hin.
      by apply (download_raised E _ _ _ _ _ _ _ _ Hrun Hin).
  - intros audio_file language_code auto gpu_id w t w' r Hrun. split.
    + by destruct (total_transcribe E _ _ _ _ _ _ _ _ _ _ Hrun) as [_ ?].
    + intros e msg Hin _ Hr.
      by apply (transcribe_raised E _ _ _ _ _ _ _ _ _ _ _ _ Hrun Hin).
Qed.

Lemma C4_exception_containment_witness :
  let run1 := download_youtube_audio Demo.id2_unavailable "id2" "audio_files"
                Demo.fresh in
  let run2 := transcribe_audio_and_save_to_txt Demo.no_model
                "audio_files/x.mp3" "x" (Some "hi") "audio_files" false 0
                Demo.fresh in
  (run1.2 = Ret None
   ∧ ∃ ts, last run1.1.1 =
           Some (Print [Lit "["; Str ts;
                        Lit "] Error while downloading audio for video ID ";
                        Str "id2"; Lit ": "; Str "ERROR: Video unavailable"]))
  ∧ (run2.2 = Ret None
     ∧ ∃ ts, last run2.1.1 =
             Some (Print [Lit "["; Str ts;
                          Lit "] Error while transcribing audio for video ID ";
                          Str "x"; Lit ": "; Str "CUDA out of memory"])).
Proof.
  intros run1 run2. split.
  - refine (proj2 (proj1 (C4_exception_containment Demo.id2_unavailable "id2"
                            "audio_files")
                     Demo.fresh run1.1.1 run1.1.2 run1.2 _)
              (make_ydl_opts "audio_files" "id2") [watch_url "id2"] _ _).
    + reflexivity.
    + find_event.
  - refine (proj2 (proj2 (C4_exception_containment Demo.no_model "x"
                            "audio_files")
                     "audio_files/x.mp3" (Some "hi") false 0 Demo.fresh
                     run2.1.1 run2.1.2 run2.2 _)
              (LoadModel "large" "cpu" (Raised "CUDA out of memory"))
              _ _ _ _).
    + reflexivity.
    + find_event.
    + reflexivity.
    + reflexivity.
Defined.

(** C10. Acquisition success is unverified on a cache miss.  When the
    output directory could be made, nothing exists at the audio path and
    the download mechanism returns without an exception, Acquisition
    returns the path computed beforehand, [{output_path}/{video_id}.mp3],
    whatever the file system holds after the download: the trace is the
    entry and the download call, and no check follows.  There are
    collaborators for which the returned path does not exist afterwards,
    and the batch then finds out in Transcription, which fails on that
    path, so that the identifier is reported as failed. *)
Theorem C10_acquisition_success_unverified :
  (∀ (E : External) video_id output_path (w w1 w2 : World (Hidden E)),
     os_makedirs output_path w = ([], w1, Ret ()) →
     fs w1 !! audio_file_path output_path video_id = None →
     ydl_download E (make_ydl_opts output_path video_id)
       [watch_url video_id] w1 = (w2, Returned ()) →
     download_youtube_audio E video_id output_path w =
     ([Acquire video_id output_path;
       YdlDownload (make_ydl_opts output_path video_id) [watch_url video_id]
         (Returned ())],
      w2, Ret (Some (audio_file_path output_path video_id))))
  ∧ (∀ output_path video_id,
       Py.truthy output_path = true →
       Py.endswith output_path "/" = false →
       Py.startswith video_id "/" = false →
       audio_file_path output_path video_id =
       output_path +:+ "/" +:+ video_id +:+ ".mp3")
  ∧ (∃ (E : External) video_id output_path (w : World (Hidden E)) t w',
       download_youtube_audio E video_id output_path w =
         (t, w', Ret (Some (audio_file_path output_path video_id)))
       ∧ fs w' !! audio_file_path output_path video_id = None
       ∧ ∃ t2 w2 msg,
           process_videos E [video_id] None output_path true 0 w =
             (t2, w2, Ret [video_id])
           ∧ Transcribe (audio_file_path output_path video_id) None
               (Raised msg) ∈ t2).
Proof.
  split; [|split].
  - intros E video_id output_path w w1 w2 Hmk Hnone Hdl.
    rewrite (download_miss E _ _ _ _ Hmk Hnone). cbn zeta. by rewrite Hdl.
  - apply audio_file_path_plain.
  - exists Demo.nothing_downloaded, "x", "audio_files", Demo.fresh.
    eexists _, _. split; [vm_compute; reflexivity|].
    split; [vm_compute; reflexivity|].
    eexists _, _, _. split; [vm_compute; reflexivity|].
    find_event.
Qed.

Lemma C10_acquisition_success_unverified_witness :
  download_youtube_audio Demo.nothing_downloaded "x" "audio_files" Demo.fresh =
  ([Acquire "x" "audio_files";
    YdlDownload (make_ydl_opts "audio_files" "x") [watch_url "x"]
      (Returned ())],
   Demo.fresh, Ret (Some "audio_files/x.mp3"))
  ∧ audio_file_path "audio_files" "x" = "audio_files/x.mp3".
Proof.
  split.
  - apply (proj1 C10_acquisition_success_unverified Demo.nothing_downloaded
             "x" "audio_files" Demo.fresh Demo.fresh Demo.fresh);
      reflexivity.
  - apply (proj1 (proj2 C10_acquisition_success_unverified) "audio_files" "x");
      reflexivity.
Defined.

(** C1. Failure isolation in the Batch Orchestrator.  The loop of [main]
    always runs to its closing report and, from any world, does what the
    specification of the Orchestrator says ([orchestrated]): the
    identifiers are taken in list order; when Acquisition returns no
    path the identifier is appended to the failed list and
    Transcription is not entered for it; when Transcription returns no
    path the identifier is appended; in each case the loop goes on with
    the next identifier.  The steps entered, read off the trace, are
    those of the specification.  For three identifiers of which the
    second fails Acquisition and the others succeed, the failed list is
    exactly [id2], and Acquisition and Transcription of id1, Acquisition
    of id2, Acquisition and Transcription of id3 are entered in this
    order. *)
Theorem C1_failure_isolation (E : External) (language_code : option string)
    (output_path : string) (auto_detect_language : bool) (gpu_id : Z) :
  (∀ video_ids (w : World (Hidden E)),
     ∃ t w' failed done attempts,
       process_videos E video_ids language_code output_path
         auto_detect_language gpu_id w = (t ++ [report failed], w', Ret failed)
       ∧ orchestrated E language_code output_path auto_detect_language gpu_id
           video_ids w failed done attempts w'
       ∧ omap attempt_of t = attempts
       ∧ failed `sublist_of` video_ids)
  ∧ (∀ id1 id2 id3 (w : World (Hidden E)) t1 w1 a1 t1' w1' p1 t2 w2
       t3 w3 a3 t3' w3' p3,
       download_youtube_audio E id1 output_path w = (t1, w1, Ret (Some a1)) →
       transcribe_audio_and_save_to_txt E a1 id1 language_code output_path
         auto_detect_language gpu_id w1 = (t1', w1', Ret (Some p1)) →
       download_youtube_audio E id2 output_path w1' = (t2, w2, Ret None) →
       download_youtube_audio E id3 output_path (log_tick E w2) =
         (t3, w3, Ret (Some a3)) →
       transcribe_audio_and_save_to_txt E a3 id3 language_code output_path
         auto_detect_language gpu_id w3 = (t3', w3', Ret (Some p3)) →
       ∃ t,
         process_videos E [id1; id2; id3] language_code output_path
           auto_detect_language gpu_id w = (t ++ [report [id2]], w3', Ret [id2])
         ∧ omap attempt_of t =
             [Acquisition id1; Transcription id1; Acquisition id2;
              Acquisition id3; Transcription id3]).
Proof.
  assert (Hgen : ∀ video_ids (w : World (Hidden E)),
     ∃ t w' failed done attempts,
       process_videos E video_ids language_code output_path
         auto_detect_language gpu_id w = (t ++ [report failed], w', Ret failed)
       ∧ orchestrated E language_code output_path auto_detect_language gpu_id
           video_ids w failed done attempts w'
       ∧ omap attempt_of t = attempts
       ∧ failed `sublist_of` video_ids).
  { intros video_ids w. unfold process_videos.
    destruct (process_videos_from_run E language_code output_path
                auto_detect_language gpu_id video_ids
                (Z.of_nat (length video_ids)) 1 [] w)
      as (t & w' & failed & done & attempts & Hrun & Hspec & Hat & _ & Hsub).
    exists t, w', failed, done, attempts.
    rewrite bind_run, Hrun. cbn. done. }
  split; [exact Hgen|].
  intros id1 id2 id3 w t1 w1 a1 t1' w1' p1 t2 w2 t3 w3 a3 t3' w3' p3
    H1 H1' H2 H3 H3'.
  destruct (Hgen [id1; id2; id3] w)
    as (t & w' & failed & done & attempts & Hrun & Hspec & Hat & _).
  orchestrated_inv Hspec.
  match goal with H : orchestrated _ _ _ _ _ _ _ _ _ _ _ |- _ =>
    orchestrated_inv H end.
  match goal with H : orchestrated _ _ _ _ _ _ _ _ _ _ _ |- _ =>
    orchestrated_inv H end.
  match goal with H : orchestrated _ _ _ _ _ _ _ _ _ _ _ |- _ =>
    inversion H; subst; clear H end.
  by exists t.
Qed.

Lemma C1_failure_isolation_witness :
  let E := Demo.id2_unavailable in
  ∃ t w',
    process_videos E ["id1"; "id2"; "id3"] (Some "hi") "audio_files" false 0
      Demo.fresh = (t ++ [report ["id2"]], w', Ret ["id2"])
    ∧ omap attempt_of t =
        [Acquisition "id1"; Transcription "id1"; Acquisition "id2";
         Acquisition "id3"; Transcription "id3"].
Proof.
  intros E.
  pose (r1 := download_youtube_audio E "id1" "audio_files" Demo.fresh).
  pose (r1' := transcribe_audio_and_save_to_txt E "audio_files/id1.mp3" "id1"
                 (Some "hi") "audio_files" false 0 r1.1.2).
  pose (r2 := download_youtube_audio E "id2" "audio_files" r1'.1.2).
  pose (r3 := download_youtube_audio E "id3" "audio_files"
                (log_tick E r2.1.2)).
  pose (r3' := transcribe_audio_and_save_to_txt E "audio_files/id3.mp3" "id3"
                 (Some "hi") "audio_files" false 0 r3.1.2).
  destruct (proj2 (C1_failure_isolation E (Some "hi") "audio_files" false 0)
              "id1" "id2" "id3" Demo.fresh
              r1.1.1 r1.1.2 "audio_files/id1.mp3"
              r1'.1.1 r1'.1.2 "audio_files/id1_transcription.txt"
              r2.1.1 r2.1.2
              r3.1.1 r3.1.2 "audio_files/id3.mp3"
              r3'.1.1 r3'.1.2 "audio_files/id3_transcription.txt")
    as (t & Hrun & Hat); [vm_compute; reflexivity ..|].
  by exists t, r3'.1.2.
Defined.

(** C3, as stated, fails.  When the download of [id2] is cut after its
    audio file was written, the first run reports [id2] as failed and
    the second run finds the file, transcribes it and reports no
    failure: the files and the Done set differ.  When a transcript is
    there without its audio and the download returns without leaving a
    file, the first run brings [x] to Done and the second run calls the
    download mechanism for [x] again. *)
Lemma C3_rerun_counterexample :
  ¬ rerun_changes_nothing Demo.id2_cut ["id1"; "id2"] (Some "hi")
      "audio_files" false 0 Demo.fresh
  ∧ ¬ rerun_changes_nothing Demo.nothing_downloaded ["x"] (Some "hi")
        "audio_files" false 0 Demo.transcript_only.
Proof.
  split.
  - intros H.
    pose (r1 := process_videos Demo.id2_cut ["id1"; "id2"] (Some "hi")
                  "audio_files" false 0 Demo.fresh).
    pose (r2 := process_videos Demo.id2_cut ["id1"; "id2"] (Some "hi")
                  "audio_files" false 0 r1.1.2).
    destruct (H r1.1.1 r1.1.2 ["id2"] r2.1.1 r2.1.2 [])
      as (_ & _ & Hfailed); [vm_compute; reflexivity ..|].
    discriminate Hfailed.
  - intros H.
    pose (r1 := process_videos Demo.nothing_downloaded ["x"] (Some "hi")
                  "audio_files" false 0 Demo.transcript_only).
    pose (r2 := process_videos Demo.nothing_downloaded ["x"] (Some "hi")
                  "audio_files" false 0 r1.1.2).
    destruct (H r1.1.1 r1.1.2 [] r2.1.1 r2.1.2 [])
      as (_ & Hcalls & _); [vm_compute; reflexivity ..|].
    apply (Hcalls "x"
             (YdlDownload (make_ydl_opts "audio_files" "x") [watch_url "x"]
                (Returned ()))).
    + by left.
    + by intros ?%elem_of_nil.
    + find_event.
    + reflexivity.
Qed.

(** C3, amended.  An identifier whose two artifacts are on disk, in a
    directory, is processed without any download or inference call,
    leaves the file system as it is and is not reported as failed.
    Hence, when the first run succeeded on every identifier and left
    both artifacts of each on disk, a second run over the same list
    leaves the file system as the first run left it, makes no download
    or inference call, and reports the same (empty) failed list, that
    is, the same Done set. *)
Theorem C3_rerun_when_cached (E : External) (language_code : option string)
    (output_path : string) (auto_detect_language : bool) (gpu_id : Z) :
  (∀ total idx video_id failed_videos (w : World (Hidden E)),
     all_cached w output_path [video_id] →
     ∃ t w',
       process_video E total idx video_id language_code output_path
         auto_detect_language gpu_id failed_videos w =
         (t, w', Ret failed_videos)
       ∧ fs w' = fs w ∧ Forall quiet t)
  ∧ (∀ video_ids (w0 : World (Hidden E)) t1 w1 failed1,
       process_videos E video_ids language_code output_path
         auto_detect_language gpu_id w0 = (t1, w1, Ret failed1) →
       failed1 = [] →
       all_cached w1 output_path video_ids →
       ∃ t2 w2,
         process_videos E video_ids language_code output_path
           auto_detect_language gpu_id w1 = (t2, w2, Ret failed1)
         ∧ fs w2 = fs w1 ∧ Forall quiet t2).
Proof.
  split.
  - intros total idx video_id failed_videos w [Hdir Hall].
    destruct (Hall video_id) as [Ha Ht]; [by left|].
    by apply process_video_cached.
  - intros video_ids w0 t1 w1 failed1 _ -> Hall.
    destruct (process_videos_from_cached E language_code output_path
                auto_detect_language gpu_id video_ids
                (Z.of_nat (length video_ids)) 1 [] w1 Hall)
      as (t & w2 & Hrun & Hfs & Hq).
    exists (t ++ [report []]), w2. unfold process_videos.
    rewrite bind_run, Hrun. cbn. split; [done|]. split; [done|].
    apply Forall_app. split; [done|]. repeat constructor.
Qed.

Lemma C3_rerun_when_cached_witness :
  let E := Demo.well in
  let r1 := process_videos E ["id1"; "id2"] (Some "hi") "audio_files" false 0
              Demo.fresh in
  (∃ t w',
     process_video E 1 1 "x" (Some "hi") "audio_files" false 0 [] Demo.cached =
       (t, w', Ret [])
     ∧ fs w' = fs Demo.cached ∧ Forall quiet t)
  ∧ (∃ t2 w2,
       process_videos E ["id1"; "id2"] (Some "hi") "audio_files" false 0
         r1.1.2 = (t2, w2, Ret [])
       ∧ fs w2 = fs r1.1.2 ∧ Forall quiet t2).
Proof.
  intros E r1. split.
  - apply (proj1 (C3_rerun_when_cached E (Some "hi") "audio_files" false 0)).
    split; [split; reflexivity|].
    intros id ->%list_elem_of_singleton. split; vm_compute; eauto.
  - apply (proj2 (C3_rerun_when_cached E (Some "hi") "audio_files" false 0)
             ["id1"; "id2"] Demo.fresh r1.1.1 r1.1.2 []).
    + vm_compute. reflexivity.
    + reflexivity.
    + split; [split; reflexivity|].
      intros id Hid. in_trace Hid; split; vm_compute; eauto.
Defined.

(** C5, as stated, fails: nothing read off the closing report gives the
    counts.  With [id2] failing, the batch over [id2] alone and the batch
    over [id1] and [id2] end with the same line, though one processed
    one identifier with none Done and the other two with one Done. *)
Lemma C5_final_summary_counterexample :
  ¬ report_tells_counts Demo.id2_unavailable.
Proof.
  intros [read Hread].
  pose (r1 := process_videos Demo.id2_unavailable ["id2"] (Some "hi")
                "audio_files" false 0 Demo.fresh).
  pose (r2 := process_videos Demo.id2_unavailable ["id1"; "id2"] (Some "hi")
                "audio_files" false 0 Demo.fresh).
  destruct (Hread ["id2"] (Some "hi") "audio_files" false 0 Demo.fresh
              r1.1.1 r1.1.2 ["id2"]) as (e1 & He1 & Hr1);
    [vm_compute; reflexivity|].
  destruct (Hread ["id1"; "id2"] (Some "hi") "audio_files" false 0 Demo.fresh
              r2.1.1 r2.1.2 ["id2"]) as (e2 & He2 & Hr2);
    [vm_compute; reflexivity|].
  vm_compute in He1, He2. injection He1 as <-. injection He2 as <-.
  rewrite Hr1 in Hr2. discriminate Hr2.
Qed.

(** C5, amended.  For every work list the loop runs to its end and then
    prints, as the last line, the full list of failed identifiers and
    nothing else: no count of identifiers processed and no count of
    those that reached Done.  The list is in the order in which the
    failures occurred, the order of the error lines of the trace, and
    this is the order of the work list. *)
Theorem C5_final_summary (E : External) (video_ids : list string)
    (language_code : option string) (output_path : string)
    (auto_detect_language : bool) (gpu_id : Z) (w : World (Hidden E)) :
  ∃ t w' failed,
    process_videos E video_ids language_code output_path
      auto_detect_language gpu_id w =
      (t ++ [Print [Lit "Processing complete! Failed videos: ";
                    StrList failed]], w', Ret failed)
    ∧ omap error_id t = failed
    ∧ failed `sublist_of` video_ids.
Proof.
  destruct (process_videos_from_run E language_code output_path
              auto_detect_language gpu_id video_ids
              (Z.of_nat (length video_ids)) 1 [] w)
    as (t & w' & failed & done & attempts & Hrun & _ & _ & Her & Hsub).
  exists t, w', failed. unfold process_videos.
  rewrite bind_run, Hrun. cbn. done.
Qed.

(** C6, as stated, fails for a failure that comes after some items of
    the chunk were read: when the service answers the one chunk ["a";
    "b"] with a complete item and an item without [contentDetails], the
    chunk fails on the second item, the failure is caught and logged,
    and the entry of the first item stays in the result. *)
Lemma C6_metadata_counterexample :
  ¬ failed_chunk_gives_nothing Demo.bare_answer.
Proof.
  intros H.
  pose (r := get_video_info Demo.bare_answer ["a"; "b"] "key" Demo.fresh).
  specialize (H ["a"; "b"] "key" Demo.fresh r.1.1 r.1.2
                [mkInfo "a" "Title of a" "2024-01-01T00:00:00Z" "PT1M"]
                "0" "'contentDetails'").
  discriminate H.
  - cbn. lia.
  - vm_compute. reflexivity.
  - find_event.
Qed.

(** C6, amended.  The Metadata Fetcher always returns.  It cuts the list
    into consecutive chunks of 1 to 50 identifiers and sends exactly one
    request per chunk, in order, ceil(n/50) in all (for 120 identifiers:
    chunks of 50, 50 and 20).  The result is, chunk after chunk, what
    each reply contributes: nothing when the request raised or the
    reply has no items, all the entries when every item of the reply can
    be read, and otherwise the entries of the items before the first one
    that cannot be read; a failure of one chunk is caught, so that the
    trace holds requests and error lines only, and leaves the entries of
    the other chunks in the result. *)
Theorem C6_metadata_batching (E : External) (video_ids : list string)
    (api_key : string) (w : World (Hidden E)) :
  ∃ t w' video_info_list,
    get_video_info E video_ids api_key w = (t, w', Ret video_info_list)
    ∧ omap requested t = Py.join "," <$> chunks video_ids
    ∧ concat (chunks video_ids) = video_ids
    ∧ Forall (λ c, 1 ≤ length c ≤ 50)%nat (chunks video_ids)
    ∧ length (omap requested t) = ((length video_ids + 49) / 50)%nat
    ∧ (length video_ids = 120%nat →
       length <$> chunks video_ids = [50; 50; 20]%nat)
    ∧ video_info_list = concat (contribution <$> omap replied t)
    ∧ (∀ msg, contribution (Raised msg) = [])
    ∧ (∀ items infos,
         Forall2 (λ it vi, read_item it = Ret vi) items infos →
         contribution (Returned (mkResponse (Some items))) = infos)
    ∧ (∀ items infos bad rest e,
         Forall2 (λ it vi, read_item it = Ret vi) items infos →
         read_item bad = Raise e →
         contribution (Returned (mkResponse (Some (items ++ bad :: rest))))
         = infos)
    ∧ contribution (Returned (mkResponse None)) = []
    ∧ Forall fetch_event t.
Proof.
  destruct (get_video_info_run E video_ids api_key w)
    as (t & w' & Hrun & Hreq & Hev).
  destruct (chunks_partition video_ids) as (Hcat & Hlen & Hnum).
  exists t, w', (concat (contribution <$> omap replied t)).
  split; [done|]. split; [done|]. split; [done|]. split; [done|].
  split; [by rewrite Hreq, length_fmap|].
  split; [apply chunks_120|]. split; [done|]. split; [done|].
  split; [intros items infos; apply contribution_readable|].
  split; [intros items infos bad rest e; apply contribution_partial|].
  split; [reflexivity | done].
Qed.

Lemma C6_metadata_batching_witness :
  let video_ids := replicate 50 "a" ++ replicate 50 "b" ++ replicate 20 "c" in
  let E := Demo.refusing (Py.join "," (replicate 50 "b")) in
  length <$> chunks video_ids = [50; 50; 20]%nat
  ∧ contribution (Returned (mkResponse (Some [Demo.good_item "a"]))) =
      [mkInfo "a" "Title of a" "2024-01-01T00:00:00Z" "PT1M"]
  ∧ contribution
      (Returned (mkResponse (Some ([Demo.good_item "a"]
                                   ++ Demo.bare_item "b"
                                   :: [Demo.good_item "c"])))) =
      [mkInfo "a" "Title of a" "2024-01-01T00:00:00Z" "PT1M"]
  ∧ ∃ t w',
      get_video_info E video_ids "key" Demo.fresh =
        (t, w',
         Ret [mkInfo (Py.join "," (replicate 50 "a"))
                ("Title of " +:+ Py.join "," (replicate 50 "a"))
                "2024-01-01T00:00:00Z" "PT1M";
              mkInfo (Py.join "," (replicate 20 "c"))
                ("Title of " +:+ Py.join "," (replicate 20 "c"))
                "2024-01-01T00:00:00Z" "PT1M"])
      ∧ length (omap requested t) = 3%nat.
Proof.
  intros video_ids E.
  destruct (C6_metadata_batching E video_ids "key" Demo.fresh)
    as (t & w' & infos & Hrun & Hreq & _ & _ & Hnum & H120 & Hres & _ & Hread
        & Hpart & _).
  split; [apply H120; reflexivity|].
  split; [apply Hread; repeat constructor|].
  split; [apply (Hpart [Demo.good_item "a"] _ (Demo.bare_item "b")
                   [Demo.good_item "c"] "'contentDetails'");
          [repeat constructor | reflexivity]|].
  exists t, w'. split; [|exact Hnum].
  rewrite Hrun. f_equal. f_equal.
  assert (Ht : t = (get_video_info E video_ids "key" Demo.fresh).1.1)
    by (by rewrite Hrun).
  rewrite Hres, Ht. vm_compute. reflexivity.
Defined.

(** C7, as stated, fails for a segment whose text holds a line break:
    the engine gives one segment with the text "a", line feed, "b", and
    the file written for it has two lines. *)
Lemma C7_transcript_format_counterexample :
  ¬ one_line_per_segment Demo.broken_line.
Proof.
  intros H.
  pose (r := transcribe_audio_and_save_to_txt Demo.broken_line
               "audio_files/x.mp3" "x" (Some "hi") "audio_files" false 0
               Demo.fresh).
  destruct (H "audio_files/x.mp3" "x" (Some "hi") "audio_files" false 0
              Demo.fresh r.1.1 r.1.2 "audio_files/x_transcription.txt"
              "audio_files/x.mp3" (Some "hi") (mkResult Demo.two_lines)
              "a
b
") as (lines & Henc & Hlines).
  - reflexivity.
  - vm_compute. reflexivity.
  - find_event.
  - vm_compute. reflexivity.
  - apply Forall2_length in Henc. apply (f_equal length) in Hlines.
    rewrite length_fmap in Hlines. cbn in Henc, Hlines. lia.
Qed.

(** C7, amended.  A Transcription that is not short-circuited and
    returns a path ran inference once, on the audio path it was given,
    and the file at the returned path holds, for each segment of the
    result, in the order of the segments, the UTF-8 encoding of the text
    of the segment followed by a line feed, and nothing else: no
    timestamps.  When no text of a segment holds a line break, reading
    the file gives exactly one line per segment, in order.  For the
    segments (0.0, "a"), (2.0, "b"), (5.0, "c") the file is the three
    lines a, b, c. *)
Theorem C7_transcript_format (E : External)
    (audio_file video_id : string) (language_code : option string)
    (output_path : string) (auto_detect_language : bool) (gpu_id : Z)
    (w : World (Hidden E)) t w' path :
  fs w !! transcript_file_path output_path video_id = None →
  transcribe_audio_and_save_to_txt E audio_file video_id language_code
    output_path auto_detect_language gpu_id w = (t, w', Ret (Some path)) →
  (∃ result lines,
     Transcribe audio_file
       (if auto_detect_language then None else language_code)
       (Returned result) ∈ t
     ∧ encoded_texts (segments result) lines
     ∧ fs w' !! path = Some (File (file_of_lines lines))
     ∧ (Forall (λ seg, existsb break_point (seg_text seg) = false)
          (segments result) →
        Py.readlines (file_of_lines lines) = (λ l, l +:+ "
") <$> lines))
  ∧ write_segments Demo.abc "" = ("a
b
c
", Ret ()).
Proof.
  intros Hnone Hrun. split; [|reflexivity].
  destruct (transcribe_written E _ _ _ _ _ _ _ _ _ _ Hnone Hrun)
    as (-> & result & content & Hin & _ & Hwrite & Hfile).
  apply write_segments_ok in Hwrite as (lines & Henc & ->).
  exists result, lines. repeat split; try done.
  intros Hbreaks. apply readlines_file_of_lines.
  clear -Henc Hbreaks. induction Henc as [|seg line segs lines Hline _ IH].
  - constructor.
  - inversion Hbreaks; subst. constructor; [|by apply IH].
    by eapply encode_no_break.
Qed.

Lemma C7_transcript_format_witness :
  let E := Demo.external Demo.download_ok (Demo.transcribe_to Demo.abc)
             (Demo.execute_with []) in
  let r := transcribe_audio_and_save_to_txt E "audio_files/x.mp3" "x"
             (Some "hi") "audio_files" false 0 Demo.fresh in
  fs r.1.2 !! "audio_files/x_transcription.txt" = Some (File "a
b
c
")
  ∧ Py.readlines "a
b
c
" = ["a
"; "b
"; "c
"].
Proof.
  intros E r.
  destruct (proj1 (C7_transcript_format E "audio_files/x.mp3" "x" (Some "hi")
                     "audio_files" false 0 Demo.fresh r.1.1 r.1.2
                     "audio_files/x_transcription.txt" eq_refl
                     (eq_trans (run_eta r) ltac:(vm_compute; reflexivity))))
    as (result & lines & Hin & Henc & Hfile & Hlines).
  split; [vm_compute; reflexivity | reflexivity].
Defined.



(** C9. Language-mode exclusivity.  In every run of [main], whatever the
    command line, the environment and the answers at the prompts, each
    entry into Transcription carries exactly one mode: auto-detection
    set and no language code, or auto-detection clear and a language
    code.  The language settings of the Streamlit page give the same:
    for either state of the check box and any option of the select box,
    exactly one mode. *)
Theorem C9_language_mode_exclusive :
  (∀ (E : External) argv environ (w : World (Hidden E)) t w' r,
     main E argv environ w = (t, w', r) →
     ∀ audio_file video_id language_code output_path auto_detect_language
       gpu_id,
       TranscribeCall audio_file video_id language_code output_path
         auto_detect_language gpu_id ∈ t →
       exclusive auto_detect_language language_code)
  ∧ (∀ auto_detect_language selected,
       selected ∈ streamlit_options →
       exclusive auto_detect_language
         (streamlit_language_settings auto_detect_language selected).2).
Proof.
  split.
  - intros E argv environ w t w' r Hrun audio_file video_id language_code
      output_path auto gpu_id Hin.
    change (call_exclusive (TranscribeCall audio_file video_id language_code
                              output_path auto gpu_id)).
    revert Hin. generalize (TranscribeCall audio_file video_id language_code
                              output_path auto gpu_id). intros e Hin.
    destruct (main_run E _ _ _ _ _ _ Hrun)
      as [[Hs _]|(tpre & tb & failed & a & c & -> & _ & Hs & Hcalls & Hex)].
    + rewrite Forall_forall in Hs. by apply setup_call_exclusive, Hs.
    + apply elem_of_app in Hin as [Hin|Hin].
      { rewrite Forall_forall in Hs. by apply setup_call_exclusive, Hs. }
      apply elem_of_app in Hin as [Hin|Hin].
      * rewrite Forall_forall in Hcalls. specialize (Hcalls e Hin).
        destruct e; try done. cbn in *. by destruct Hcalls as [-> ->].
      * apply list_elem_of_singleton in Hin as ->. done.
  - intros auto selected Hin. unfold streamlit_language_settings.
    destruct auto; cbn; [by left|]. right. split; [done|].
    unfold streamlit_options in Hin. in_trace Hin; vm_compute; eauto.
Qed.

Lemma C9_language_mode_exclusive_witness :
  exclusive false (Some "hi") ∧ exclusive true None.
Proof.
  split.
  - pose (run := main Demo.id2_unavailable Demo.command_line ∅ Demo.with_list).
    apply (proj1 C9_language_mode_exclusive Demo.id2_unavailable
             Demo.command_line ∅ Demo.with_list run.1.1 run.1.2 run.2
             (run_eta run) "audio_files/id1.mp3" "id1" (Some "hi")
             "audio_files" false 0).
    find_event.
  - apply (proj2 C9_language_mode_exclusive true "Hindi").
    unfold streamlit_options. find_in_trace.
Defined.

(** * Further properties of the code *)

(** A run with a known outcome. *)
Lemma run_with {X A} (run : list event * World X * outcome A) r :
  run.2 = r → run = (run.1.1, run.1.2, r).
Proof. intros <-. by destruct run as [[? ?] ?]. Qed.

(** Membership of a given event in an explicit trace, case by case:
    closes the goal when the event is in none of the places. *)
Ltac in_events H :=
  repeat (apply elem_of_cons in H as [?|H]; [simplify_eq|]);
  try (by apply elem_of_nil in H).

(** ** Stripping *)

Section Strip.

Lemma rstrip_last s c :
  last_char (Py.rstrip s) = Some c → Py.isspace c = false.
Proof.
  induction s as [|a s IH]; [done|].
  change (Py.rstrip (String a s))
    with (match Py.rstrip s with
          | EmptyString => if Py.isspace a then EmptyString
                           else String a EmptyString
          | r' => String a r'
          end).
  destruct (Py.rstrip s) as [|b r] eqn:Hr.
  - destruct (Py.isspace a) eqn:Ha; [done|]. cbn. by intros [= <-].
  - intros H. apply IH. exact H.
Qed.

Lemma rstrip_first s c :
  first_char (Py.rstrip s) = Some c → first_char s = Some c.
Proof.
  destruct s as [|a s]; [done|].
  change (Py.rstrip (String a s))
    with (match Py.rstrip s with
          | EmptyString => if Py.isspace a then EmptyString
                           else String a EmptyString
          | r' => String a r'
          end).
  destruct (Py.rstrip s); [destruct (Py.isspace a)|]; done.
Qed.

Lemma lstrip_first s c :
  first_char (Py.lstrip s) = Some c → Py.isspace c = false.
Proof.
  induction s as [|a s IH]; [done|]. cbn.
  destruct (Py.isspace a) eqn:Ha; [done|]. cbn. by intros [= <-].
Qed.

(** [s.strip()] has no white space at either end. *)
Lemma strip_trimmed s : trimmed (Py.strip s).
Proof.
  split; intros c Hc.
  - by eapply lstrip_first, rstrip_first.
  - by eapply rstrip_last.
Qed.

Lemma lstrip_fixed s :
  (∀ c, first_char s = Some c → Py.isspace c = false) → Py.lstrip s = s.
Proof. destruct s as [|a s]; [done|]. intros H. cbn. by rewrite (H a). Qed.

Lemma rstrip_fixed s :
  (∀ c, last_char s = Some c → Py.isspace c = false) → Py.rstrip s = s.
Proof.
  induction s as [|a s IH]; [done|]. intros H.
  change (Py.rstrip (String a s))
    with (match Py.rstrip s with
          | EmptyString => if Py.isspace a then EmptyString
                           else String a EmptyString
          | r' => String a r'
          end).
  destruct s as [|b s].
  - cbn. by rewrite (H a).
  - rewrite IH; [done|]. intros c Hc. apply H. exact Hc.
Qed.

(** A string without white space at its ends is left as it is. *)
Lemma strip_fixed s : trimmed s → Py.strip s = s.
Proof.
  intros [Hf Hl]. unfold Py.strip. rewrite lstrip_fixed by done.
  by apply rstrip_fixed.
Qed.

Lemma strip_idempotent s : Py.strip (Py.strip s) = Py.strip s.
Proof. apply strip_fixed, strip_trimmed. Qed.

End Strip.

(** ** The identifier source *)

Section Identifier_source.

Lemma rstrip_step a s :
  Py.rstrip (String a s) =
  match Py.rstrip s with
  | EmptyString => if Py.isspace a then EmptyString else String a EmptyString
  | r' => String a r'
  end.
Proof. reflexivity. Qed.

Lemma rstrip_app_nl s : Py.rstrip (s +:+ nl) = Py.rstrip s.
Proof.
  induction s as [|a s IH]; [reflexivity|].
  change (String a s +:+ nl) with (String a (s +:+ nl)).
  by rewrite !rstrip_step, IH.
Qed.

Lemma strip_app_nl s : Py.strip (s +:+ nl) = Py.strip s.
Proof.
  unfold Py.strip. induction s as [|a s IH]; [reflexivity|].
  change (String a s +:+ nl) with (String a (s +:+ nl)).
  cbn [Py.lstrip]. destruct (Py.isspace a); [exact IH|].
  change (String a (s +:+ nl)) with (String a s +:+ nl).
  apply rstrip_app_nl.
Qed.

Lemma has_break_lstrip s : has_break s = false → has_break (Py.lstrip s) = false.
Proof.
  induction s as [|a s IH]; [done|]. cbn [Py.lstrip].
  destruct (Py.isspace a); [|done].
  change (has_break (String a s)) with (break_char a || has_break s).
  intros [_ H]%orb_false_elim. by apply IH.
Qed.

Lemma has_break_rstrip s : has_break s = false → has_break (Py.rstrip s) = false.
Proof.
  induction s as [|a s IH]; [done|].
  change (has_break (String a s)) with (break_char a || has_break s).
  intros [Ha H]%orb_false_elim. rewrite rstrip_step.
  specialize (IH H). destruct (Py.rstrip s) as [|b r].
  - destruct (Py.isspace a); [done|].
    change (break_char a || false = false). by rewrite Ha.
  - change (break_char a || has_break (String b r) = false).
    by rewrite Ha, IH.
Qed.

Lemma has_break_strip s : has_break s = false → has_break (Py.strip s) = false.
Proof. intros H. by apply has_break_rstrip, has_break_lstrip. Qed.

(** The lines a text file is read as: a body without line break, with
    its line feed, or without when the file ends there. *)
Lemma lines_from_shape s : ∀ cur,
  has_break cur = false →
  Forall (λ line, ∃ body, has_break body = false
                          ∧ (line = body ∨ line = body +:+ nl))
    (Py.lines_from cur s).
Proof.
  induction s as [|c s IH]; intros cur Hcur.
  - cbn. destruct (Py.truthy cur); repeat constructor. eauto.
  - assert (Hnl : ∀ rest, Forall (λ line, ∃ body, has_break body = false
                          ∧ (line = body ∨ line = body +:+ nl)) rest →
              Forall (λ line, ∃ body, has_break body = false
                          ∧ (line = body ∨ line = body +:+ nl))
                ((cur +:+ nl) :: rest)).
    { intros rest Hrest. constructor; [|done]. exists cur. eauto. }
    change (Py.lines_from cur (String c s))
      with (if Ascii.eqb c "010" then (cur +:+ nl) :: Py.lines_from "" s
            else if Ascii.eqb c "013" then
              match s with
              | String d r' =>
                  if Ascii.eqb d "010" then
                    (cur +:+ nl) :: Py.lines_from "" r'
                  else (cur +:+ nl) :: Py.lines_from "" s
              | EmptyString => [cur +:+ nl]
              end
            else Py.lines_from (cur +:+ String c "") s).
    destruct (Ascii.eqb c "010") eqn:H10; [by apply Hnl, IH|].
    destruct (Ascii.eqb c "013") eqn:H13.
    + destruct s as [|d r']; [by apply Hnl|].
      destruct (Ascii.eqb d "010") eqn:Hd; [|by apply Hnl, IH].
      apply Hnl.
      assert (Hall := IH "" eq_refl).
      change (Py.lines_from "" (String d r'))
        with (if Ascii.eqb d "010" then ("" +:+ nl) :: Py.lines_from "" r'
              else if Ascii.eqb d "013" then
                match r' with
                | String d' r'' =>
                    if Ascii.eqb d' "010" then
                      ("" +:+ nl) :: Py.lines_from "" r''
                    else ("" +:+ nl) :: Py.lines_from "" r'
                | EmptyString => ["" +:+ nl]
                end
              else Py.lines_from ("" +:+ String d "") r') in Hall.
      rewrite Hd in Hall. by inversion Hall.
    + apply IH. rewrite has_break_app, Hcur. cbn.
      unfold break_char. by rewrite H10, H13.
Qed.

Lemma truthy_not_empty s : Py.truthy s = true ↔ s ≠ EmptyString.
Proof. by destruct s. Qed.

Lemma lines_from_tail tail : ∀ cur,
  has_break tail = false →
  Py.lines_from cur tail =
  if Py.truthy (cur +:+ tail) then [cur +:+ tail] else [].
Proof.
  induction tail as [|c tail IH]; intros cur Hb.
  - cbn [Py.lines_from]. by rewrite string_app_nil_r.
  - change (has_break (String c tail))
      with (break_char c || has_break tail) in Hb.
    apply orb_false_elim in Hb as [Hc Ht].
    apply orb_false_elim in Hc as [H10 H13].
    change (Py.lines_from cur (String c tail))
      with (if Ascii.eqb c "010" then (cur +:+ nl) :: Py.lines_from "" tail
            else if Ascii.eqb c "013" then
              match tail with
              | String d r' =>
                  if Ascii.eqb d "010" then
                    (cur +:+ nl) :: Py.lines_from "" r'
                  else (cur +:+ nl) :: Py.lines_from "" tail
              | EmptyString => [cur +:+ nl]
              end
            else Py.lines_from (cur +:+ String c "") tail).
    rewrite H10, H13, IH by done.
    by rewrite string_app_assoc.
Qed.

(** Reading a file of lines, the last of which may lack its line feed. *)
Lemma readlines_lines lines tail :
  Forall (λ line, has_break line = false) lines →
  has_break tail = false →
  Py.readlines (file_of_lines lines +:+ tail) =
  ((λ l, l +:+ nl) <$> lines) ++ (if Py.truthy tail then [tail] else []).
Proof.
  unfold Py.readlines. intros Hlines Htail.
  induction Hlines as [|line lines Hl _ IH].
  - cbn [file_of_lines fmap list_fmap app]. by rewrite lines_from_tail.
  - cbn [file_of_lines fmap list_fmap].
    rewrite !string_app_assoc.
    change (Py.lines_from "" (line +:+ nl +:+ file_of_lines lines +:+ tail)
            = (line +:+ nl) :: ((λ l, l +:+ nl) <$> lines)
                                 ++ (if Py.truthy tail then [tail] else [])).
    rewrite lines_from_line by done. by rewrite IH.
Qed.

Lemma ids_of_lines (lines : list string) tail :
  List.map Py.strip
    (List.filter gives_id
       (((λ l, l +:+ nl) <$> lines)
          ++ (if Py.truthy tail then [tail] else []))) =
  List.map Py.strip (List.filter gives_id (lines ++ [tail])).
Proof.
  induction lines as [|line lines IH].
  - cbn [fmap list_fmap app]. destruct tail as [|c tail]; [reflexivity|].
    reflexivity.
  - cbn [fmap list_fmap app List.filter].
    assert (Hg : gives_id (line +:+ nl) = gives_id line)
      by (unfold gives_id; by rewrite strip_app_nl).
    rewrite Hg. destruct (gives_id line); cbn [List.map].
    + by rewrite strip_app_nl, IH.
    + exact IH.
Qed.

(** ASCII text stays ASCII through the reading and the stripping. *)
Lemma ascii_only_app a b :
  ascii_only (a +:+ b) = ascii_only a && ascii_only b.
Proof.
  induction a as [|c a IH]; [done|].
  change (ascii_only (String c a +:+ b))
    with ((N_of_ascii c <? 128)%N && ascii_only (a +:+ b)).
  change (ascii_only (String c a))
    with ((N_of_ascii c <? 128)%N && ascii_only a).
  by rewrite IH, andb_assoc.
Qed.

Lemma ascii_only_lstrip s :
  ascii_only s = true → ascii_only (Py.lstrip s) = true.
Proof.
  induction s as [|a s IH]; [done|]. cbn [Py.lstrip].
  destruct (Py.isspace a); [|done].
  change (ascii_only (String a s))
    with ((N_of_ascii a <? 128)%N && ascii_only s).
  intros [_ H]%andb_true_iff. by apply IH.
Qed.

Lemma ascii_only_rstrip s :
  ascii_only s = true → ascii_only (Py.rstrip s) = true.
Proof.
  induction s as [|a s IH]; [done|].
  change (ascii_only (String a s))
    with ((N_of_ascii a <? 128)%N && ascii_only s).
  intros [Ha H]%andb_true_iff. rewrite rstrip_step.
  specialize (IH H). destruct (Py.rstrip s) as [|b r].
  - destruct (Py.isspace a); [done|].
    change ((N_of_ascii a <? 128)%N && true = true). by rewrite Ha.
  - change ((N_of_ascii a <? 128)%N && ascii_only (String b r) = true).
    by rewrite Ha, IH.
Qed.

Lemma ascii_only_strip s :
  ascii_only s = true → ascii_only (Py.strip s) = true.
Proof. intros H. by apply ascii_only_rstrip, ascii_only_lstrip. Qed.

Lemma lines_from_ascii s : ∀ cur,
  ascii_only cur = true → ascii_only s = true →
  Forall (λ line, ascii_only line = true) (Py.lines_from cur s).
Proof.
  induction s as [|c s IH]; intros cur Hcur Hs.
  - cbn. destruct (Py.truthy cur); by repeat constructor.
  - change (ascii_only (String c s))
      with ((N_of_ascii c <? 128)%N && ascii_only s) in Hs.
    apply andb_true_iff in Hs as [Hc Hs].
    assert (Hnl : ∀ rest, Forall (λ line, ascii_only line = true) rest →
              Forall (λ line, ascii_only line = true) ((cur +:+ nl) :: rest)).
    { intros rest Hrest. constructor; [|done].
      by rewrite ascii_only_app, Hcur. }
    change (Py.lines_from cur (String c s))
      with (if Ascii.eqb c "010" then (cur +:+ nl) :: Py.lines_from "" s
            else if Ascii.eqb c "013" then
              match s with
              | String d r' =>
                  if Ascii.eqb d "010" then
                    (cur +:+ nl) :: Py.lines_from "" r'
                  else (cur +:+ nl) :: Py.lines_from "" s
              | EmptyString => [cur +:+ nl]
              end
            else Py.lines_from (cur +:+ String c "") s).
    destruct (Ascii.eqb c "010") eqn:H10; [by apply Hnl, IH|].
    destruct (Ascii.eqb c "013") eqn:H13.
    + destruct s as [|d r']; [by apply Hnl|].
      destruct (Ascii.eqb d "010") eqn:Hd; [|by apply Hnl, IH].
      apply Hnl.
      assert (Hall := IH "" eq_refl Hs).
      change (Py.lines_from "" (String d r'))
        with (if Ascii.eqb d "010" then ("" +:+ nl) :: Py.lines_from "" r'
              else if Ascii.eqb d "013" then
                match r' with
                | String d' r'' =>
                    if Ascii.eqb d' "010" then
                      ("" +:+ nl) :: Py.lines_from "" r''
                    else ("" +:+ nl) :: Py.lines_from "" r'
                | EmptyString => ["" +:+ nl]
                end
              else Py.lines_from ("" +:+ String d "") r') in Hall.
      rewrite Hd in Hall. by inversion Hall.
    + apply IH; [|done]. rewrite ascii_only_app, Hcur.
      change ((N_of_ascii c <? 128)%N && true = true). by rewrite Hc.
Qed.

End Identifier_source.

(** X1.  The identifiers read from a list of ASCII text are well
    formed.  When the input file holds ASCII characters only, reading
    it raises nothing, prints nothing and changes nothing, and every
    identifier it gives is not empty, has no white space at its ends,
    holds no line break, and is ASCII text. *)
Theorem X1_identifiers_well_formed (E : External) (file_path : string)
    (content : string) (w : World (Hidden E)) :
  fs w !! file_path = Some (File content) →
  ascii_only content = true →
  ∃ video_ids,
    read_video_ids_from_file E file_path w = ([], w, Ret video_ids)
    ∧ Forall well_formed_id video_ids
    ∧ Forall (λ video_id, ascii_only video_id = true) video_ids.
Proof.
  intros Hfile Hascii.
  unfold read_video_ids_from_file. rewrite try_except_run, bind_run.
  unfold open_r. rewrite Hfile.
  eexists. split; [reflexivity|].
  pose proof (lines_from_shape content "" eq_refl) as Hshape.
  pose proof (lines_from_ascii content "" eq_refl Hascii) as Hlines.
  fold (Py.readlines content) in Hshape, Hlines.
  induction Hshape as [|line rest (body & Hbody & Hline) _ IH];
    [by split; constructor|].
  apply Forall_cons in Hlines as [Hl Hlines].
  destruct (IH Hlines) as [IHw IHa]. cbn [List.filter].
  destruct (Py.truthy (Py.strip line)) eqn:Hgives; [|by split].
  cbn [List.map].
  split; (constructor; [|done]); [|by apply ascii_only_strip].
  split; [by apply truthy_not_empty|].
  split; [apply strip_trimmed|].
  destruct Hline as [->| ->]; [|rewrite (strip_app_nl body)];
    by apply has_break_strip.
Qed.

Lemma X1_identifiers_well_formed_witness :
  ∃ video_ids,
    read_video_ids_from_file Demo.well "ids.txt" Demo.with_list =
      ([], Demo.with_list, Ret video_ids)
    ∧ Forall well_formed_id video_ids
    ∧ Forall (λ video_id, ascii_only video_id = true) video_ids.
Proof.
  apply (X1_identifiers_well_formed Demo.well "ids.txt" "id1
  id2

id3
" Demo.with_list); reflexivity.
Defined.

(** X2.  Reading back a list that was written line by line: when the
    file holds the given lines of ASCII text, each followed by a line
    feed, and maybe a last line without one, the identifiers are the
    lines that are not blank, stripped, in the order of the file;
    nothing is printed. *)
Theorem X2_identifiers_of_lines (E : External) (file_path : string)
    (lines : list string) (tail : string) (w : World (Hidden E)) :
  fs w !! file_path = Some (File (file_of_lines lines +:+ tail)) →
  Forall (λ line, ascii_only line = true) lines →
  ascii_only tail = true →
  Forall (λ line, has_break line = false) lines →
  has_break tail = false →
  read_video_ids_from_file E file_path w =
  ([], w, Ret (List.map Py.strip (List.filter gives_id (lines ++ [tail])))).
Proof.
  intros Hfile _ _ Hlines Htail.
  unfold read_video_ids_from_file. rewrite try_except_run, bind_run.
  unfold open_r. rewrite Hfile. cbn.
  rewrite readlines_lines by done.
  by rewrite <- ids_of_lines.
Qed.

Lemma X2_identifiers_of_lines_witness :
  read_video_ids_from_file Demo.well "ids.txt" Demo.with_list =
  ([], Demo.with_list, Ret ["id1"; "id2"; "id3"]).
Proof.
  apply (X2_identifiers_of_lines Demo.well "ids.txt"
           ["id1"; "  id2"; ""; "id3"] "" Demo.with_list).
  - reflexivity.
  - repeat constructor.
  - reflexivity.
  - repeat constructor.
  - reflexivity.
Defined.

(** X3.  A list that cannot be opened gives no identifier: when nothing
    exists at the path, or a directory, the function prints one line
    with the error, returns the empty list and raises nothing. *)
Theorem X3_unreadable_list (E : External) (file_path : string)
    (w : World (Hidden E)) :
  fs w !! file_path = None ∨ fs w !! file_path = Some Dir →
  ∃ e,
    read_video_ids_from_file E file_path w =
    ([Print [Lit "["; Str (stamp E w);
             Lit "] Error reading video IDs file: "; Str e]],
     log_tick E w, Ret []).
Proof.
  intros Hfile.
  unfold read_video_ids_from_file. rewrite try_except_run, bind_run.
  unfold open_r. destruct Hfile as [-> | ->];
    rewrite stamped_print_run; eexists; reflexivity.
Qed.

Lemma X3_unreadable_list_witness :
  ∃ e,
    read_video_ids_from_file Demo.well "audio_files" Demo.with_list =
    ([Print [Lit "["; Str "0"; Lit "] Error reading video IDs file: ";
             Str e]],
     log_tick Demo.well Demo.with_list, Ret []).
Proof.
  apply (X3_unreadable_list Demo.well "audio_files" Demo.with_list).
  right. reflexivity.
Defined.

(** ** The paths of the artifacts *)

Section Paths.

Lemma endswith_step a s p :
  Py.endswith (String a s) p =
  if String.eqb (String a s) p then true else Py.endswith s p.
Proof. reflexivity. Qed.

Lemma endswith_app x s p : Py.endswith s p = true → Py.endswith (x +:+ s) p = true.
Proof.
  intros H. induction x as [|a x IH]; [done|].
  change (String a x +:+ s) with (String a (x +:+ s)).
  rewrite endswith_step, IH. by destruct (String.eqb _ p).
Qed.

Lemma os_path_join_endswith a b p :
  Py.endswith b p = true → Py.endswith (Py.os_path_join a b) p = true.
Proof.
  intros H. unfold Py.os_path_join.
  destruct (Py.startswith b "/"); [done|].
  destruct (negb (Py.truthy a) || Py.endswith a "/");
    repeat apply endswith_app; done.
Qed.

(** A name cannot end in [.mp3] and in [.txt]. *)
Lemma mp3_not_txt s :
  Py.endswith s ".mp3" = true → Py.endswith s ".txt" = true → False.
Proof.
  induction s as [|a s IH]; [done|]. rewrite !endswith_step.
  destruct (String.eqb (String a s) ".mp3") eqn:H1.
  - apply String.eqb_eq in H1. injection H1 as -> ->. intros _ H.
    vm_compute in H. discriminate H.
  - destruct (String.eqb (String a s) ".txt") eqn:H2; [|exact IH].
    apply String.eqb_eq in H2. injection H2 as -> ->. intros H _.
    vm_compute in H. discriminate H.
Qed.

Lemma string_app_inv_head (x a b : string) : x +:+ a = x +:+ b → a = b.
Proof.
  induction x as [|c x IH]; [done|].
  change (String c (x +:+ a) = String c (x +:+ b) → a = b).
  intros [= H]. by apply IH.
Qed.

Lemma string_app_length (a b : string) :
  String.length (a +:+ b) = (String.length a + String.length b)%nat.
Proof.
  induction a as [|c a IH]; [done|].
  change (S (String.length (a +:+ b)) = S (String.length a + String.length b)).
  by rewrite IH.
Qed.

Lemma string_app_inv_tail (a b x : string) : a +:+ x = b +:+ x → a = b.
Proof.
  intros H.
  assert (Hlen : String.length a = String.length b).
  { apply (f_equal String.length) in H. rewrite !string_app_length in H. lia. }
  revert b H Hlen. induction a as [|c a IH]; intros [|d b] H Hlen;
    try done.
  change (String c (a +:+ x) = String d (b +:+ x)) in H.
  injection H as -> H. f_equal. apply IH; [done|]. by injection Hlen.
Qed.

Lemma startswith_name video_id ext :
  Py.truthy ext = true → relative ext → relative video_id →
  relative (video_id +:+ ext).
Proof.
  unfold relative. intros Hext Hrel Hid. destruct video_id as [|c s]; [done|].
  by rewrite startswith_append.
Qed.

(** With a relative name, the path is a fixed prefix and the name. *)
Lemma os_path_join_relative a b :
  relative b →
  Py.os_path_join a b =
  (if negb (Py.truthy a) || Py.endswith a "/" then a else a +:+ "/") +:+ b.
Proof.
  unfold relative, Py.os_path_join. intros ->.
  destruct (negb (Py.truthy a) || Py.endswith a "/"); [done|].
  by rewrite string_app_assoc.
Qed.

End Paths.

(** X4.  The artifacts of the identifiers do not overwrite one another:
    no audio path is a transcript path, whatever the identifiers and
    the output directory; and two relative identifiers (not starting
    with a slash) that have the same audio path, or the same transcript
    path, in one output directory are the same identifier. *)
Theorem X4_artifact_paths_apart (output_path : string) :
  (∀ a b, audio_file_path output_path a ≠ transcript_file_path output_path b)
  ∧ (∀ a b, relative a → relative b →
       audio_file_path output_path a = audio_file_path output_path b →
       a = b)
  ∧ (∀ a b, relative a → relative b →
       transcript_file_path output_path a =
       transcript_file_path output_path b →
       a = b).
Proof.
  split; [|split].
  - intros a b Heq. apply (mp3_not_txt (audio_file_path output_path a)).
    + apply os_path_join_endswith, endswith_app. reflexivity.
    + rewrite Heq. apply os_path_join_endswith, endswith_app. reflexivity.
  - intros a b Ha Hb. unfold audio_file_path.
    rewrite !os_path_join_relative by (by apply startswith_name).
    intros H%string_app_inv_head. by apply string_app_inv_tail in H.
  - intros a b Ha Hb. unfold transcript_file_path.
    rewrite !os_path_join_relative by (by apply startswith_name).
    intros H%string_app_inv_head. by apply string_app_inv_tail in H.
Qed.

Lemma X4_artifact_paths_apart_witness :
  relative "id1" ∧ "id1" = "id1".
Proof.
  split; [reflexivity|].
  apply (proj1 (proj2 (X4_artifact_paths_apart "audio_files")) "id1" "id1");
    reflexivity.
Defined.



(** ** What Transcription leaves behind *)

Section Transcription_facts.
Context (E : External).
Implicit Types (w : World (Hidden E)).

(** A Transcription that returns a path leaves something at it. *)
Lemma transcribe_leaves audio_file video_id language_code output_path auto
    gpu_id w t w' path :
  transcribe_audio_and_save_to_txt E audio_file video_id language_code
    output_path auto gpu_id w = (t, w', Ret (Some path)) →
  path = transcript_file_path output_path video_id
  ∧ is_Some (fs w' !! path).
Proof.
  unfold transcribe_audio_and_save_to_txt. unfold_script.
  repeat innermost_destruct; intros [= <- <- <-];
    (split; [done|]);
    cbn [fs set_fs set_ext];
    try (rewrite lookup_insert_eq; by eexists);
    try (by eapply bool_decide_eq_true_1);
    try (by eexists).
Qed.

Lemma write_raises segs : ∀ acc written e,
  write_segments segs acc = (written, Raise e) →
  e = "'utf-8' codec can't encode character: surrogates not allowed".
Proof.
  induction segs as [|seg segs IH]; intros acc written e; cbn.
  - by intros [=].
  - destruct (Utf8.encode _); [apply IH | by intros [= _ <-]].
Qed.

(** A Transcription whose writing was cut short by the encoding error:
    it returns no path and leaves what was written. *)
Lemma transcribe_cut audio_file video_id language_code output_path auto
    gpu_id w t w' r audio language result written ts :
  transcribe_audio_and_save_to_txt E audio_file video_id language_code
    output_path auto gpu_id w = (t, w', r) →
  Transcribe audio language (Returned result) ∈ t →
  write_segments (segments result) "" =
    (written,
     Raise "'utf-8' codec can't encode character: surrogates not allowed") →
  Print [Lit "["; Str ts;
         Lit "] Error while transcribing audio for video ID ";
         Str video_id; Lit ": ";
         Str "'utf-8' codec can't encode character: surrogates not allowed"]
    ∈ t →
  r = Ret None
  ∧ fs w' !! transcript_file_path output_path video_id = Some (File written).
Proof.
  unfold transcribe_audio_and_save_to_txt. unfold_script.
  repeat innermost_destruct; intros [= <- <- <-] Hin Hwrite Herr;
    in_events Hin; in_events Herr;
    repeat match goal with
           | H : write_segments _ _ = _, H' : write_segments _ _ = _ |- _ =>
               rewrite H in H'; simplify_eq
           end;
    (split; [done|]);
    cbn [fs set_fs set_ext]; apply lookup_insert_eq.
Qed.

End Transcription_facts.

(** X6.  Done means a transcript on disk.  When Transcription returns a
    path, it is the transcript path of the identifier and something
    exists there in the world it leaves; and when a turn of the batch
    loop leaves the failed list as it was, the transcript of its
    identifier exists when the turn ends. *)
Theorem X6_done_has_transcript (E : External) (video_id : string)
    (language_code : option string) (output_path : string)
    (auto_detect_language : bool) (gpu_id : Z) :
  (∀ audio_file (w : World (Hidden E)) t w' path,
     transcribe_audio_and_save_to_txt E audio_file video_id language_code
       output_path auto_detect_language gpu_id w = (t, w', Ret (Some path)) →
     path = transcript_file_path output_path video_id
     ∧ is_Some (fs w' !! path))
  ∧ (∀ total idx failed_videos (w : World (Hidden E)) t w',
       process_video E total idx video_id language_code output_path
         auto_detect_language gpu_id failed_videos w =
         (t, w', Ret failed_videos) →
       is_Some (fs w' !! transcript_file_path output_path video_id)).
Proof.
  split.
  - intros audio_file w t w' path Hrun.
    by apply (transcribe_leaves E _ _ _ _ _ _ _ _ _ _ Hrun).
  - intros total idx failed_videos w t w' Hrun.
    assert (Hne : failed_videos ++ [video_id] ≠ failed_videos).
    { intros H. apply (f_equal length) in H.
      rewrite length_app in H. cbn in H. lia. }
    destruct (process_video_run E language_code output_path
                auto_detect_language gpu_id total idx video_id failed_videos w)
      as (t1 & w1 & a & Hd & Ha).
    destruct a as [audio|].
    + destruct Ha as (t2 & w2 & b & Ht & Hb). destruct b as [path|].
      * rewrite Hb in Hrun. injection Hrun as <- <-.
        destruct (transcribe_leaves E _ _ _ _ _ _ _ _ _ _ Ht)
          as [-> Hex]. done.
      * rewrite Hb in Hrun. by injection Hrun as _ _ ?.
    + rewrite Ha in Hrun. by injection Hrun as _ _ ?.
Qed.

Lemma X6_done_has_transcript_witness :
  let run := process_video Demo.well 1 1 "id1" (Some "hi") "audio_files"
               false 0 [] Demo.fresh in
  is_Some (fs run.1.2 !! "audio_files/id1_transcription.txt").
Proof.
  intros run.
  apply (proj2 (X6_done_has_transcript Demo.well "id1" (Some "hi")
                  "audio_files" false 0) 1 1 [] Demo.fresh run.1.1 run.1.2).
  apply run_with. vm_compute. reflexivity.
Defined.

(** X7.  A transcript cut short by a segment that cannot be encoded
    still counts.  When inference has returned a result, writing its
    segments stops at one that cannot be encoded, and the error line of
    the run carries that error, Transcription returns no path, yet the
    file at the transcript path holds what was written before the
    failure; every later Transcription of the identifier then returns the
    path at once, without inference. *)
Theorem X7_partial_transcript_counts (E : External)
    (audio_file video_id : string) (language_code : option string)
    (output_path : string) (auto_detect_language : bool) (gpu_id : Z)
    (w : World (Hidden E)) t w' r audio language result written e ts :
  transcribe_audio_and_save_to_txt E audio_file video_id language_code
    output_path auto_detect_language gpu_id w = (t, w', r) →
  Transcribe audio language (Returned result) ∈ t →
  write_segments (segments result) "" = (written, Raise e) →
  Print [Lit "["; Str ts;
         Lit "] Error while transcribing audio for video ID ";
         Str video_id; Lit ": "; Str e] ∈ t →
  r = Ret None
  ∧ fs w' !! transcript_file_path output_path video_id = Some (File written)
  ∧ ∀ audio_file' language_code' auto' gpu_id',
      transcribe_audio_and_save_to_txt E audio_file' video_id language_code'
        output_path auto' gpu_id' w' =
      ([TranscribeCall audio_file' video_id language_code' output_path
          auto' gpu_id';
        Print [Lit "["; Str (stamp E w');
               Lit "] Skipping transcription for video ID "; Str video_id;
               Lit ". Transcript already exists."]],
       log_tick E w', Ret (Some (transcript_file_path output_path video_id))).
Proof.
  intros Hrun Hin Hwrite Herr.
  pose proof (write_raises _ _ _ _ Hwrite) as ->.
  assert (Hfile : r = Ret None
                  ∧ fs w' !! transcript_file_path output_path video_id
                    = Some (File written)).
  { by eapply transcribe_cut. }
  destruct Hfile as [-> Hfile]. split; [done|]. split; [done|].
  intros. apply transcribe_hit. rewrite Hfile. by eexists.
Qed.

Lemma X7_partial_transcript_counts_witness :
  let E := More.surrogate_engine in
  let run := transcribe_audio_and_save_to_txt E "audio_files/x.mp3" "x"
               (Some "hi") "audio_files" false 0 Demo.fresh in
  run.2 = Ret None
  ∧ fs run.1.2 !! "audio_files/x_transcription.txt" = Some (File "a
")
  ∧ (transcribe_audio_and_save_to_txt E "audio_files/x.mp3" "x"
       (Some "hi") "audio_files" false 0 run.1.2).2 =
    Ret (Some "audio_files/x_transcription.txt").
Proof.
  intros E run.
  destruct (X7_partial_transcript_counts E "audio_files/x.mp3" "x" (Some "hi")
              "audio_files" false 0 Demo.fresh run.1.1 run.1.2 run.2
              "audio_files/x.mp3" (Some "hi") (mkResult More.unencodable)
              "a
" "'utf-8' codec can't encode character: surrogates not allowed" "3"
              (run_eta run)) as (Hr & Hfile & Hnext).
  - find_event.
  - reflexivity.
  - find_event.
  - split; [exact Hr|]. split; [exact Hfile|]. by rewrite Hnext.
Defined.

(** ** The batch loop, further *)

Section Batch_more.
Context (E : External).
Context (language_code : option string) (output_path : string)
        (auto_detect_language : bool) (gpu_id : Z).
Implicit Types (w : World (Hidden E)).

(** Acquisition gives up before any download when the output directory
    cannot be made. *)
Lemma download_unusable video_id w :
  unusable w output_path →
  ∃ e,
    download_youtube_audio E video_id output_path w =
    ([Acquire video_id output_path;
      Print [Lit "["; Str (stamp E w);
             Lit "] Error while downloading audio for video ID ";
             Str video_id; Lit ": "; Str e]],
     log_tick E w, Ret None).
Proof.
  intros Hun. unfold download_youtube_audio.
  rewrite bind_run. cbn [enter]. rewrite try_except_run, bind_run.
  unfold os_makedirs. destruct Hun as [-> | [content Hfile]].
  - rewrite stamped_print_run. by eexists.
  - rewrite Hfile. destruct (Py.truthy output_path);
      rewrite stamped_print_run; by eexists.
Qed.

Lemma process_videos_from_unusable video_ids :
  ∀ total idx failed_videos w,
  unusable w output_path →
  ∃ t w',
    process_videos_from E total idx video_ids language_code output_path
      auto_detect_language gpu_id failed_videos w =
      (t, w', Ret (failed_videos ++ video_ids))
    ∧ fs w' = fs w
    ∧ Forall (λ e, quiet e ∧ ∀ id, attempt_of e ≠ Some (Transcription id)) t.
Proof.
  induction video_ids as [|video_id rest IH];
    intros total idx failed_videos w Hun.
  - exists [], w. rewrite app_nil_r. repeat split; constructor.
  - destruct (download_unusable video_id w Hun) as [e Hd].
    destruct (process_video_run E language_code output_path
                auto_detect_language gpu_id total idx video_id failed_videos w)
      as (t1 & w1 & a & Hd' & Ha).
    rewrite Hd in Hd'. injection Hd' as <- <- <-.
    destruct (IH total (idx + 1) (failed_videos ++ [video_id])
                (log_tick E (log_tick E w)))
      as (t2 & w2 & Hrun2 & Hfs2 & Hq2).
    { destruct Hun as [?|[c ?]]; [by left | right; by exists c]. }
    cbn [process_videos_from]. rewrite bind_run, Ha, Hrun2.
    eexists _, w2. split; [by rewrite <- app_assoc|]. split; [done|].
    apply Forall_app. split; [|done].
    repeat constructor; by intros ?.
Qed.

Lemma step_trace_no_progress t :
  Forall step_event t → List.filter is_progress t = [].
Proof.
  induction 1 as [|e t He _ IH]; [done|]. cbn.
  by rewrite (step_event_not_progress e He).
Qed.

Lemma progress_of_turn total idx video_id failed_videos w t w' r :
  process_video E total idx video_id language_code output_path
    auto_detect_language gpu_id failed_videos w = (t, w', r) →
  List.filter is_progress t = [progress_line idx total video_id]
  ∧ ∃ failed', r = Ret failed'.
Proof.
  destruct (process_video_run E language_code output_path
              auto_detect_language gpu_id total idx video_id failed_videos w)
    as (t1 & w1 & a & Hd & Ha).
  pose proof (total_download E _ _ _ _ _ _ Hd) as [Hs1 _].
  destruct a as [audio|].
  - destruct Ha as (t2 & w2 & b & Ht & Hb).
    pose proof (total_transcribe E _ _ _ _ _ _ _ _ _ _ Ht) as [Hs2 _].
    destruct b; rewrite Hb; intros [= <- <- <-]; (split; [|by eexists]);
      cbn; rewrite !List.filter_app, !step_trace_no_progress by done;
      reflexivity.
  - rewrite Ha. intros [= <- <- <-]. split; [|by eexists].
    cbn. rewrite !List.filter_app, !step_trace_no_progress by done.
    reflexivity.
Qed.

Lemma progress_of_loop video_ids :
  ∀ total idx failed_videos w t w' r,
  process_videos_from E total idx video_ids language_code output_path
    auto_detect_language gpu_id failed_videos w = (t, w', r) →
  List.filter is_progress t = progress_lines total idx video_ids.
Proof.
  induction video_ids as [|video_id rest IH];
    intros total idx failed_videos w t w' r.
  - by intros [= <- <- <-].
  - cbn [process_videos_from]. rewrite bind_run.
    destruct (process_video E total idx video_id language_code output_path
                auto_detect_language gpu_id failed_videos w)
      as [[t1 w1] r1] eqn:H1.
    destruct (progress_of_turn _ _ _ _ _ _ _ _ H1) as [Hp [failed' ->]].
    destruct (process_videos_from E total (idx + 1) rest language_code
                output_path auto_detect_language gpu_id failed' w1)
      as [[t2 w2] r2] eqn:H2.
    intros [= <- <- <-]. rewrite List.filter_app, Hp. cbn.
    f_equal. by eapply IH.
Qed.

End Batch_more.

(** X8.  An output path that cannot be a directory fails the whole
    batch without any download.  When the output path is empty or is the
    path of a file, every identifier of the list is reported as failed,
    in list order, no download and no inference call is made,
    Transcription is never entered, and the file system is left as it
    was. *)
Theorem X8_unusable_output_path (E : External) (video_ids : list string)
    (language_code : option string) (output_path : string)
    (auto_detect_language : bool) (gpu_id : Z) (w : World (Hidden E)) :
  unusable w output_path →
  ∃ t w',
    process_videos E video_ids language_code output_path
      auto_detect_language gpu_id w = (t, w', Ret video_ids)
    ∧ fs w' = fs w
    ∧ Forall (λ e, quiet e ∧ ∀ id, attempt_of e ≠ Some (Transcription id)) t.
Proof.
  intros Hun.
  destruct (process_videos_from_unusable E language_code output_path
              auto_detect_language gpu_id video_ids
              (Z.of_nat (length video_ids)) 1 [] w Hun)
    as (t & w' & Hrun & Hfs & Hq).
  exists (t ++ [report video_ids]), w'. unfold process_videos.
  rewrite bind_run, Hrun. cbn. split; [done|]. split; [done|].
  apply Forall_app. split; [done|]. repeat constructor. by intros ?.
Qed.

Lemma X8_unusable_output_path_witness :
  ∃ t w',
    process_videos Demo.well ["id1"; "id2"] (Some "hi") "ids.txt" false 0
      Demo.with_list = (t, w', Ret ["id1"; "id2"])
    ∧ fs w' = fs Demo.with_list
    ∧ Forall (λ e, quiet e ∧ ∀ id, attempt_of e ≠ Some (Transcription id)) t.
Proof.
  apply (X8_unusable_output_path Demo.well ["id1"; "id2"] (Some "hi")
           "ids.txt" false 0 Demo.with_list).
  right. eexists. reflexivity.
Defined.

(** X9.  The progress lines count the identifiers.  Whatever happens on
    the items, the batch prints exactly one progress line per
    identifier, in list order, numbered from 1 to the length of the
    list, each showing that length as the total. *)
Theorem X9_progress_lines (E : External) (video_ids : list string)
    (language_code : option string) (output_path : string)
    (auto_detect_language : bool) (gpu_id : Z) (w : World (Hidden E)) :
  List.filter is_progress
    (process_videos E video_ids language_code output_path
       auto_detect_language gpu_id w).1.1 =
  progress_lines (Z.of_nat (length video_ids)) 1 video_ids.
Proof.
  unfold process_videos. rewrite bind_run.
  destruct (process_videos_from E (Z.of_nat (length video_ids)) 1 video_ids
              language_code output_path auto_detect_language gpu_id [] w)
    as [[t w'] r] eqn:Hloop.
  pose proof (progress_of_loop E _ _ _ _ _ _ _ _ _ _ _ _ Hloop) as Hp.
  destruct r as [failed|e|c]; [|done..].
  change (List.filter is_progress (t ++ [report failed]) =
          progress_lines (Z.of_nat (length video_ids)) 1 video_ids).
  rewrite List.filter_app, Hp. apply app_nil_r.
Qed.

(** ** The Metadata Fetcher, further *)

Section Fetch_more.
Context (E : External).
Implicit Types (w : World (Hidden E)).

Lemma collect_complete chunk items :
  Forall2 complete_for chunk items →
  ∀ acc, ∃ infos,
    collect_items items acc = (acc ++ infos, Ret ())
    ∧ info_id <$> infos = chunk.
Proof.
  induction 1 as [|video_id it chunk items (vi & Hit & Hid) _ IH]; intros acc.
  - exists []. by rewrite app_nil_r.
  - destruct (IH (acc ++ [vi])) as (infos & Hrun & Hids).
    exists (vi :: infos). cbn. rewrite Hit, Hrun, <- app_assoc.
    split; [done|]. by rewrite Hid, Hids.
Qed.

Lemma fetch_chunk_answered api_key chunk acc w :
  answers E api_key chunk →
  ∃ t w' infos,
    fetch_chunk E (build "youtube" "v3" api_key) chunk acc w =
      (t, w', Ret (acc ++ infos))
    ∧ info_id <$> infos = chunk
    ∧ Forall answered t.
Proof.
  intros Hans. destruct (Hans w) as (items & Hreply & Hitems).
  unfold fetch_chunk, call. cbn zeta. cbn [developerKey build].
  destruct (videos_list_execute E api_key "snippet,contentDetails"
              (Py.join "," chunk) w) as [w1 r].
  cbn in Hreply. subst r. cbn [response_items default id].
  destruct (collect_complete chunk items Hitems acc) as (infos & -> & Hids).
  eexists _, w1, infos. split; [done|]. split; [done|].
  repeat constructor. by eexists _, _, _.
Qed.

Lemma for_chunks_answered api_key video_ids starts :
  ∀ acc w,
  Forall (λ i, answers E api_key (Py.slice video_ids i 50)) starts →
  ∃ t w' infos,
    for_chunks E (build "youtube" "v3" api_key) video_ids starts acc w =
      (t, w', Ret (acc ++ infos))
    ∧ info_id <$> infos =
        concat ((λ i, Py.slice video_ids i 50) <$> starts)
    ∧ Forall answered t.
Proof.
  induction starts as [|i rest IH]; intros acc w Hall.
  - exists [], w, []. by rewrite app_nil_r.
  - apply Forall_cons in Hall as [Hi Hrest].
    destruct (fetch_chunk_answered api_key _ acc w Hi)
      as (t1 & w1 & infos1 & Hrun1 & Hids1 & Hev1).
    destruct (IH (acc ++ infos1) w1 Hrest)
      as (t2 & w2 & infos2 & Hrun2 & Hids2 & Hev2).
    exists (t1 ++ t2), w2, (infos1 ++ infos2).
    cbn [for_chunks]. rewrite bind_run, Hrun1, Hrun2, <- app_assoc.
    split; [done|]. split; [|by apply Forall_app].
    by rewrite fmap_app, Hids1, Hids2.
Qed.

End Fetch_more.

(** X10.  A service that answers gives one entry per identifier.  When
    the service answers the request of every chunk of the list with one
    complete item per identifier of the chunk, in order, the Metadata
    Fetcher returns one entry per identifier of the whole list, in list
    order, across the chunk boundaries, and prints no error line: its
    trace holds only answered requests. *)
Theorem X10_metadata_in_list_order (E : External) (video_ids : list string)
    (api_key : string) (w : World (Hidden E)) :
  Forall (answers E api_key) (chunks video_ids) →
  ∃ t w' video_info_list,
    get_video_info E video_ids api_key w = (t, w', Ret video_info_list)
    ∧ info_id <$> video_info_list = video_ids
    ∧ Forall answered t.
Proof.
  intros Hall. unfold chunks in Hall.
  apply (proj1 (Forall_fmap _ _ _)) in Hall.
  destruct (for_chunks_answered E api_key video_ids
              (Py.range (length video_ids) 50) [] w Hall)
    as (t & w' & infos & Hrun & Hids & Hev).
  exists t, w', infos. split; [done|]. split; [|done].
  rewrite Hids. apply chunks_partition.
Qed.

Lemma X10_metadata_in_list_order_witness :
  ∃ t w' video_info_list,
    get_video_info More.listing_service More.fifty_two "key" Demo.fresh =
      (t, w', Ret video_info_list)
    ∧ info_id <$> video_info_list = More.fifty_two
    ∧ Forall answered t.
Proof.
  apply (X10_metadata_in_list_order More.listing_service More.fifty_two
           "key" Demo.fresh).
  assert (Hanswer : ∀ chunk,
            More.split_commas "" (Py.join "," chunk) = chunk →
            answers More.listing_service "key" chunk).
  { intros chunk Hsplit w. exists (Demo.good_item <$> chunk).
    split; [cbn; by rewrite Hsplit|].
    clear Hsplit. induction chunk as [|video_id chunk IH]; constructor;
      [by eexists | exact IH]. }
  set (cs := chunks More.fifty_two). vm_compute in cs. subst cs.
  repeat constructor; apply Hanswer; vm_compute; reflexivity.
Defined.

(** ** The language prompt *)



(** ** The language table *)

Lemma dict_get_domain d k :
  is_Some (dict_get d k) ↔ k ∈ d.*1.
Proof.
  induction d as [|[k' v] d IH]; cbn.
  - split; [by intros [? [=]] | by intros ?%elem_of_nil].
  - destruct (String.eqb_spec k' k) as [->|Hne].
    + split; [intros _; apply list_elem_of_here | by eexists].
    + rewrite IH, elem_of_cons.
      split; [by right | intros [?|?]; [congruence | done]].
Qed.

Lemma dict_get_in d k v : dict_get d k = Some v → (k, v) ∈ d.
Proof.
  induction d as [|[k' v'] d IH]; cbn; [done|].
  destruct (String.eqb_spec k' k) as [->|Hne].
  - intros [= ->]. apply list_elem_of_here.
  - intros H. by apply list_elem_of_further, IH.
Qed.

(** X12.  The language table covers the menus, and no two languages
    share a code.  [get_language_code] gives a code exactly for the
    seven options of the Streamlit select box, which are the languages
    of the command line other than the auto-detect entry; any other
    string, a name in another case included, gives none; and two names
    with the same code are the same name. *)
Theorem X12_language_table :
  (∀ l, is_Some (get_language_code l) ↔ l ∈ streamlit_options)
  ∧ (∀ l, l ∈ languages ↔
          l = "Auto-detect language" ∨ is_Some (get_language_code l))
  ∧ (∀ l1 l2 code,
       get_language_code l1 = Some code →
       get_language_code l2 = Some code → l1 = l2).
Proof.
  assert (Hdom : ∀ l, is_Some (get_language_code l) ↔ l ∈ streamlit_options).
  { intros l. unfold get_language_code. by rewrite dict_get_domain. }
  split; [done|]. split.
  - intros l. rewrite Hdom. unfold languages, streamlit_options.
    by rewrite elem_of_cons.
  - intros l1 l2 code H1%dict_get_in H2%dict_get_in.
    unfold language_map in H1, H2.
    in_events H1; in_events H2; reflexivity.
Qed.

Lemma X12_language_table_witness :
  "Tamil" ∈ streamlit_options
  ∧ "Tamil" ∈ languages
  ∧ "Tamil" = "Tamil".
Proof.
  split; [|split].
  - apply (proj1 (proj1 X12_language_table "Tamil")). by eexists.
  - apply (proj2 (proj1 (proj2 X12_language_table) "Tamil")).
    right. by eexists.
  - apply (proj2 (proj2 X12_language_table) "Tamil" "Tamil" "ta");
      reflexivity.
Defined.

(** ** GPU detection and selection *)

Section Labels.

Lemma pretty_N_go_digits x : ∀ s,
  ∃ d, pretty_N_go x s = d +:+ s ∧ all_digits d = true.
Proof.
  induction (N.lt_wf_0 x) as [x _ IH]; intros s.
  assert (x = 0 ∨ 0 < x)%N as [->|Hpos] by lia.
  - exists "". by rewrite pretty_N_go_0.
  - rewrite pretty_N_go_step by done.
    destruct (IH (x `div` 10)%N (N.div_lt x 10 Hpos eq_refl)
                (String (pretty_N_char (x `mod` 10)) s))
      as (d & -> & Hd).
    exists (d +:+ String (pretty_N_char (x `mod` 10)) "").
    split.
    + by rewrite string_app_assoc.
    + clear -Hd. induction d as [|c d IHd].
      * change (is_digit (pretty_N_char (x `mod` 10)) && true = true).
        unfold pretty_N_char. by repeat case_match.
      * change (is_digit c && all_digits d = true) in Hd.
        change (is_digit c
                && all_digits (d +:+ String (pretty_N_char (x `mod` 10)) "")
                = true).
        apply andb_true_iff in Hd as [-> Hd]. by apply IHd.
Qed.

Lemma pretty_digits (i : Z) : 0 ≤ i → all_digits (pretty i) = true.
Proof.
  destruct i as [|p|p]; [done| |lia]. intros _.
  change (pretty (Z.pos p)) with (pretty (N.pos p)).
  unfold pretty, pretty_N. destruct (decide (N.pos p = 0%N)); [done|].
  destruct (pretty_N_go_digits (N.pos p) "") as (d & -> & Hd).
  by rewrite string_app_nil_r.
Qed.

(** A run of digits followed by a colon can be read in one way only. *)
Lemma digits_then_colon d1 : ∀ d2 r1 r2,
  all_digits d1 = true → all_digits d2 = true →
  d1 +:+ String ":" r1 = d2 +:+ String ":" r2 → d1 = d2.
Proof.
  induction d1 as [|c1 d1 IH]; intros [|c2 d2] r1 r2 H1 H2 Heq; cbn in *.
  - done.
  - injection Heq as <- _. apply andb_true_iff in H2 as [H2 _].
    by vm_compute in H2.
  - injection Heq as -> _. apply andb_true_iff in H1 as [H1 _].
    by vm_compute in H1.
  - injection Heq as -> Heq.
    apply andb_true_iff in H1 as [_ H1]. apply andb_true_iff in H2 as [_ H2].
    f_equal. by eapply IH.
Qed.

(** The label tells the index, whatever the names. *)
Lemma gpu_label_index i j name1 name2 :
  0 ≤ i → 0 ≤ j → gpu_label i name1 = gpu_label j name2 → i = j.
Proof.
  intros Hi Hj. unfold gpu_label.
  change ("GPU " +:+ ?s) with (String "G" (String "P" (String "U"
                                 (String " " s)))).
  intros [= Heq].
  apply (inj pretty). eapply digits_then_colon; [| |exact Heq];
    by apply pretty_digits.
Qed.

End Labels.

Section Gpu_facts.
Context (E : External).
Context (device_count : World (Hidden E) → World (Hidden E) * reply Z).
Implicit Types (w : World (Hidden E)).

Lemma name_gpus_run indices : ∀ acc w,
  ∃ t w' r,
    name_gpus E indices acc w = (t, w', r)
    ∧ Forall (λ e, ∀ msg, e ≠ gpu_error msg) t
    ∧ match r with
      | Ret gpus => gpus = acc ++ omap named t ∧ (omap named t).*1 = indices
      | Raise _ => True
      | SysExit _ => False
      end.
Proof.
  induction indices as [|i rest IH]; intros acc w.
  - exists [], w, (Ret acc). by rewrite app_nil_r.
  - cbn [name_gpus]. rewrite bind_run. unfold call.
    destruct (cuda_get_device_name E i w) as [w1 [gpu_name|msg]].
    + destruct (IH (acc ++ [(i, gpu_label i gpu_name)]) w1)
        as (t & w' & r & -> & Hq & Hr).
      eexists _, w', r. split; [done|]. split; [by constructor|].
      destruct r as [gpus| |]; [|done..]. destruct Hr as [-> Hidx].
      cbn. by rewrite <- app_assoc, Hidx.
    + eexists _, w1, _. split; [done|]. split; [|done].
      by repeat constructor.
Qed.

Lemma labels_apart (gpus : list (Z * string)) n :
  gpus.*1 = Z.of_nat <$> seq 0 n →
  Forall (λ gpu, ∃ gpu_name, gpu.2 = gpu_label gpu.1 gpu_name) gpus →
  NoDup gpus.*2.
Proof.
  intros Hidx Hlab.
  assert (Hnd : NoDup gpus.*1).
  { rewrite Hidx. apply (NoDup_fmap_2 _), NoDup_seq. }
  apply NoDup_fmap_2_strong; [|by eapply NoDup_fmap_1].
  intros [i li] [j lj] Hi Hj Heq. cbn in Heq. subst lj.
  rewrite Forall_forall in Hlab.
  destruct (Hlab _ Hi) as [ni Hli], (Hlab _ Hj) as [nj Hlj]. cbn in *.
  assert (Hpos : ∀ k l, (k, l) ∈ gpus → 0 ≤ k).
  { intros k l Hk.
    assert (Hk1 : k ∈ gpus.*1) by (apply list_elem_of_fmap; by exists (k, l)).
    rewrite Hidx in Hk1. apply list_elem_of_fmap in Hk1 as (m & -> & _). lia. }
  f_equal. eapply gpu_label_index; [by eapply Hpos..|]. by rewrite <- Hli.
Qed.

Lemma named_labelled t :
  Forall (λ gpu, ∃ gpu_name, gpu.2 = gpu_label gpu.1 gpu_name)
    (omap named t).
Proof.
  induction t as [|e t IH]; [constructor|].
  destruct e as [| | | | | | |i [gpu_name|]| | |]; cbn; try done.
  constructor; [by eexists | done].
Qed.

Lemma get_available_gpus_run w :
  ∃ t w' gpus,
    get_available_gpus E device_count w = (t, w', Ret gpus)
    ∧ ((gpus = omap named t ∧ ∀ e, gpu_error e ∉ t)
       ∨ (gpus = [] ∧ ∃ e, gpu_error e ∈ t))
    ∧ gpus.*1 = Z.of_nat <$> seq 0 (length gpus)
    ∧ NoDup gpus.*2.
Proof.
  assert (Hnone : ∀ t w' e,
            ∃ t' w'' gpus, (t ++ [gpu_error e], w', @Ret (list (Z * string)) [])
                           = (t', w'', Ret gpus)
            ∧ ((gpus = omap named t' ∧ ∀ e, gpu_error e ∉ t')
               ∨ (gpus = [] ∧ ∃ e, gpu_error e ∈ t'))
            ∧ gpus.*1 = Z.of_nat <$> seq 0 (length gpus)
            ∧ NoDup gpus.*2).
  { intros t w' e. eexists _, _, _. split; [done|].
    split; [right; split; [done|exists e]|split; [done|constructor]].
    apply elem_of_app. right. apply list_elem_of_here. }
  unfold get_available_gpus. rewrite try_except_run, bind_run.
  unfold call at 1.
  destruct (cuda_is_available E w) as [w1 [[|]|msg]].
  - cbn [negb]. rewrite bind_run. unfold call_device_count.
    destruct (device_count w1) as [w2 [n|msg]].
    + destruct (name_gpus_run (Z.of_nat <$> seq 0 (Z.to_nat n)) [] w2)
        as (t & w' & r & -> & Hq & Hr).
      destruct r as [gpus|e|c]; [|apply (Hnone (_ :: _))|done].
      destruct Hr as [-> Hidx]. cbn [app] in *.
      eexists _, w', _. split; [done|]. split; [|split].
      * left. split; [done|]. intros e [Hin|Hin]%elem_of_cons; [done|].
        rewrite Forall_forall in Hq. by eapply Hq.
      * rewrite Hidx. f_equal. f_equal.
        by rewrite <- (length_fmap fst), Hidx, length_fmap, length_seq.
      * eapply labels_apart; [done | apply named_labelled].
    + apply (Hnone [_]).
  - cbn [negb]. eexists _, w1, []. split; [done|].
    split; [|split; [done|constructor]].
    left. split; [done|]. intros e Hin. in_events Hin.
  - apply (Hnone [_]).
Qed.

Lemma filter_absent (gpus : list (Z * string)) label :
  label ∉ gpus.*2 →
  List.filter (λ gpu, String.eqb gpu.2 label) gpus = [].
Proof.
  induction gpus as [|[i l] gpus IH]; [done|]. cbn.
  intros Hnot. apply not_elem_of_cons in Hnot as [Hne Hnot].
  destruct (String.eqb_spec l label); [done | by apply IH].
Qed.

Lemma filter_chosen (gpus : list (Z * string)) : ∀ k gpu,
  NoDup gpus.*2 → gpus !! k = Some gpu →
  List.filter (λ gpu', String.eqb gpu'.2 gpu.2) gpus = [gpu].
Proof.
  induction gpus as [|[i l] gpus IH]; intros k gpu Hnd Hk; [done|].
  cbn in Hnd. apply NoDup_cons in Hnd as [Hnot Hnd]. cbn [List.filter snd].
  destruct k as [|k]; cbn in Hk.
  - injection Hk as <-. cbn [snd]. rewrite String.eqb_refl.
    by rewrite filter_absent.
  - destruct (String.eqb_spec l gpu.2) as [->|_]; [|by eapply IH].
    destruct Hnot. apply list_elem_of_fmap. exists gpu.
    split; [done | by eapply list_elem_of_lookup_2].
Qed.

Lemma gpu_selection_run (selectbox : list string → string) w :
  (∀ options, options ≠ [] → selectbox options ∈ options) →
  ∃ t1 w1 gpus t2 selected,
    get_available_gpus E device_count w = (t1, w1, Ret gpus)
    ∧ gpu_selection E device_count selectbox w =
        (t1 ++ t2, w1, Ret selected)
    ∧ 0 ≤ selected
    ∧ match gpus with
      | [] => selected = 0
      | _ => gpus !! Z.to_nat selected
             = Some (selected, selectbox gpus.*2)
      end.
Proof.
  intros Hbox.
  destruct (get_available_gpus_run w)
    as (t1 & w1 & gpus & Hrun & _ & Hidx & Hnd).
  exists t1, w1, gpus. unfold gpu_selection. rewrite bind_run, Hrun.
  destruct (decide (gpus = [])) as [->|Hne].
  - eexists _, 0. by repeat split.
  - rewrite bool_decide_eq_false_2 by done. cbn zeta.
    assert (Hchosen : selectbox gpus.*2 ∈ gpus.*2).
    { apply Hbox. by destruct gpus. }
    apply list_elem_of_lookup_1 in Hchosen as (k & Hk).
    rewrite list_lookup_fmap in Hk.
    destruct (gpus !! k) as [[i l]|] eqn:Hg; [|done].
    injection Hk as Hl.
    assert (Hi : i = Z.of_nat k).
    { assert (H1 : gpus.*1 !! k = Some i)
        by (by rewrite list_lookup_fmap, Hg).
      rewrite Hidx, list_lookup_fmap in H1.
      destruct (seq 0 (length gpus) !! k) as [m|] eqn:Hm; [|done].
      apply lookup_seq in Hm as [-> _]. by injection H1. }
    rewrite bind_run. unfold selected_gpu_of.
    rewrite <- Hl. change l with (snd (i, l)) at 1.
    rewrite (filter_chosen gpus k (i, l) Hnd Hg).
    eexists _, i. split; [done|]. split; [done|]. split; [lia|].
    destruct gpus as [|gpu gpus']; [done|].
    subst i. by rewrite Nat2Z.id, Hg.
Qed.

End Gpu_facts.

(** X13.  GPU detection lists all devices or none.  [get_available_gpus]
    never raises: either no error line is printed and the result lists
    exactly the devices whose names were obtained, in the order asked,
    or an error line is printed and the result is empty, whatever had
    been listed before the failure.  The devices of the result are
    numbered from 0 without a gap, and no two of its labels are equal,
    even for devices of the same name. *)
Theorem X13_gpus_all_or_none (E : External)
    (device_count : World (Hidden E) → World (Hidden E) * reply Z)
    (w : World (Hidden E)) :
  ∃ t w' gpus,
    get_available_gpus E device_count w = (t, w', Ret gpus)
    ∧ ((gpus = omap named t ∧ ∀ e, gpu_error e ∉ t)
       ∨ (gpus = [] ∧ ∃ e, gpu_error e ∈ t))
    ∧ gpus.*1 = Z.of_nat <$> seq 0 (length gpus)
    ∧ NoDup gpus.*2.
Proof. apply get_available_gpus_run. Qed.

(** X14.  The select box gives back the device that was chosen.  When
    the select box returns one of its options, the GPU selection of the
    Streamlit page never raises; with no device detected it selects 0,
    and otherwise the number it selects is the position of the chosen
    option in the list of detected devices, and the device at that
    position carries that number. *)
Theorem X14_gpu_selection (E : External)
    (device_count : World (Hidden E) → World (Hidden E) * reply Z)
    (selectbox : list string → string) (w : World (Hidden E)) :
  (∀ options, options ≠ [] → selectbox options ∈ options) →
  ∃ t1 w1 gpus t2 selected,
    get_available_gpus E device_count w = (t1, w1, Ret gpus)
    ∧ gpu_selection E device_count selectbox w = (t1 ++ t2, w1, Ret selected)
    ∧ 0 ≤ selected
    ∧ match gpus with
      | [] => selected = 0
      | _ => gpus !! Z.to_nat selected = Some (selected, selectbox gpus.*2)
      end.
Proof. apply gpu_selection_run. Qed.

Lemma X14_gpu_selection_witness :
  ∃ t1 w1 gpus t2 selected,
    get_available_gpus More.twins (More.count 2) Demo.fresh =
      (t1, w1, Ret gpus)
    ∧ gpu_selection More.twins (More.count 2) More.last_option Demo.fresh =
        (t1 ++ t2, w1, Ret selected)
    ∧ 0 ≤ selected
    ∧ match gpus with
      | [] => selected = 0
      | _ => gpus !! Z.to_nat selected
             = Some (selected, More.last_option gpus.*2)
      end.
Proof.
  apply (X14_gpu_selection More.twins (More.count 2) More.last_option
           Demo.fresh).
  intros options Hne. unfold More.last_option.
  destruct (last options) as [o|] eqn:Hlast.
  - cbn. apply last_Some in Hlast as [l' ->].
    apply elem_of_app. right. apply list_elem_of_here.
  - by apply last_None in Hlast.
Defined.

(** ** The loop of the Streamlit page *)

Section Page_facts.
Context (E : External).
Context (language_code : option string) (output_path : string)
        (auto_detect_language : bool) (gpu_id : Z).
Implicit Types (w : World (Hidden E)).

(** A turn of the page does what a turn of the command line does, and
    keeps the transcript path of an identifier that got through. *)
Lemma page_video_run total idx video_id dfs failed_videos w :
  ∃ t w' failed',
    process_video E total idx video_id language_code output_path
      auto_detect_language gpu_id failed_videos w = (t, w', Ret failed')
    ∧ ((failed' = failed_videos
        ∧ page_video E total idx video_id language_code output_path
            auto_detect_language gpu_id dfs failed_videos w =
          (t, w',
           Ret (<[video_id := transcript_file_path output_path video_id]> dfs,
                failed_videos)))
       ∨ (failed' = failed_videos ++ [video_id]
          ∧ page_video E total idx video_id language_code output_path
              auto_detect_language gpu_id dfs failed_videos w =
            (t, w', Ret (dfs, failed_videos ++ [video_id])))).
Proof.
  destruct (process_video_run E language_code output_path
              auto_detect_language gpu_id total idx video_id failed_videos w)
    as (t1 & w1 & a & Hd & Ha).
  unfold page_video. rewrite bind_run. cbn [print].
  rewrite try_except_run, bind_run, Hd.
  destruct a as [audio|].
  - destruct Ha as (t2 & w2 & b & Ht & Hb).
    assert (Haudio : audio = audio_file_path output_path video_id)
      by (eapply download_returns_path; exact Hd).
    subst audio. rewrite audio_file_path_truthy, bind_run, Ht.
    destruct b as [path|]; rewrite Hb; eexists _, _, _; (split; [done|]).
    + left. split; [done|].
      destruct (transcribe_leaves E _ _ _ _ _ _ _ _ _ _ Ht) as [-> _].
      cbn. by rewrite !app_nil_r.
    + right. split; [done|]. unfold raise. rewrite stamped_print_run.
      cbn. by rewrite <- !app_assoc.
  - rewrite Ha. eexists _, _, _. split; [done|]. right. split; [done|].
    unfold raise. rewrite stamped_print_run. cbn. by rewrite <- !app_assoc.
Qed.

Lemma page_videos_from_run video_ids : ∀ total idx dfs failed_videos w,
  ∃ t w' failed' dfs',
    process_videos_from E total idx video_ids language_code output_path
      auto_detect_language gpu_id failed_videos w = (t, w', Ret failed')
    ∧ page_videos_from E total idx video_ids language_code output_path
        auto_detect_language gpu_id dfs failed_videos w =
      (t, w', Ret (dfs', failed'))
    ∧ (∀ id, id ∈ video_ids → id ∈ failed' ∨ is_Some (dfs' !! id))
    ∧ (∀ id, id ∈ failed_videos → id ∈ failed')
    ∧ (∀ id, is_Some (dfs !! id) → is_Some (dfs' !! id))
    ∧ (∀ id path, dfs' !! id = Some path →
         dfs !! id = Some path
         ∨ (id ∈ video_ids ∧ path = transcript_file_path output_path id)).
Proof.
  induction video_ids as [|video_id rest IH];
    intros total idx dfs failed_videos w.
  - exists [], w, failed_videos, dfs. repeat split; try done.
    + by intros id ?%elem_of_nil.
    + by left.
  - destruct (page_video_run total idx video_id dfs failed_videos w)
      as (t1 & w1 & failed1 & Hcli & Hpage).
    cbn [process_videos_from page_videos_from]. rewrite !bind_run, Hcli.
    destruct Hpage as [[-> Hpage]|[-> Hpage]]; rewrite Hpage.
    + destruct (IH total (idx + 1)
                  (<[video_id := transcript_file_path output_path video_id]>
                     dfs) failed_videos w1)
        as (t2 & w2 & failed2 & dfs2 & -> & -> & Hall & Hkeep & Hmono & Hval).
      eexists _, w2, failed2, dfs2. split; [done|]. split; [done|].
      split; [|split; [done|split]].
      * intros id [->|Hin]%elem_of_cons; [|by apply Hall].
        right. apply Hmono. rewrite lookup_insert_eq. by eexists.
      * intros id Hsome. apply Hmono.
        destruct (decide (video_id = id)) as [->|Hne].
        -- rewrite lookup_insert_eq. by eexists.
        -- by rewrite lookup_insert_ne.
      * intros id path Hlook. destruct (Hval id path Hlook) as [Hold|[Hin ->]].
        -- destruct (decide (video_id = id)) as [->|Hne].
           ++ rewrite lookup_insert_eq in Hold. injection Hold as <-.
              right. split; [apply list_elem_of_here | done].
           ++ rewrite lookup_insert_ne in Hold by done. by left.
        -- right. split; [by apply list_elem_of_further | done].
    + destruct (IH total (idx + 1) dfs (failed_videos ++ [video_id]) w1)
        as (t2 & w2 & failed2 & dfs2 & -> & -> & Hall & Hkeep & Hmono & Hval).
      eexists _, w2, failed2, dfs2. split; [done|]. split; [done|].
      split; [|split; [|split; [done|]]].
      * intros id [->|Hin]%elem_of_cons; [|by apply Hall].
        left. apply Hkeep, elem_of_app. right. apply list_elem_of_here.
      * intros id Hin. apply Hkeep, elem_of_app. by left.
      * intros id path Hlook. destruct (Hval id path Hlook) as [Hold|[Hin ->]].
        -- by left.
        -- right. split; [by apply list_elem_of_further | done].
Qed.

End Page_facts.

(** X15.  The page does the work of the command line and keeps the
    transcripts.  From the same world the loop of the Streamlit page
    makes the same calls and prints the same lines as the loop of
    [main], leaves the same world and the same list of failed
    identifiers; its closing text does not show that list.  Every
    identifier of the list is in the failed list or a key of
    [all_video_dfs], and every key of [all_video_dfs] is an identifier
    of the list, mapped to its transcript path. *)
Theorem X15_page_loop (E : External) (video_ids : list string)
    (language_code : option string) (output_path : string)
    (auto_detect_language : bool) (gpu_id : Z) (w : World (Hidden E)) :
  ∃ t w' failed_videos all_video_dfs,
    process_videos E video_ids language_code output_path
      auto_detect_language gpu_id w =
      (t ++ [report failed_videos], w', Ret failed_videos)
    ∧ page_videos E video_ids language_code output_path
        auto_detect_language gpu_id w =
      (t ++ [Print [Lit "Processing complete!"]], w',
       Ret (all_video_dfs, failed_videos))
    ∧ (∀ id, id ∈ video_ids →
         id ∈ failed_videos ∨ is_Some (all_video_dfs !! id))
    ∧ (∀ id path, all_video_dfs !! id = Some path →
         id ∈ video_ids ∧ path = transcript_file_path output_path id).
Proof.
  destruct (page_videos_from_run E language_code output_path
              auto_detect_language gpu_id video_ids
              (Z.of_nat (length video_ids)) 1 ∅ [] w)
    as (t & w' & failed & dfs & Hcli & Hpage & Hall & _ & _ & Hval).
  exists t, w', failed, dfs.
  unfold process_videos, page_videos. rewrite !bind_run, Hcli, Hpage.
  split; [done|]. split; [done|]. split; [done|].
  intros id path Hlook. destruct (Hval id path Hlook) as [Hold|?]; [|done].
  by rewrite lookup_empty in Hold.
Qed.

Lemma X15_page_loop_witness :
  ∃ t w' failed_videos all_video_dfs,
    process_videos Demo.well ["id1"] (Some "hi") "audio_files" false 0
      Demo.fresh =
      (t ++ [report failed_videos], w', Ret failed_videos)
    ∧ page_videos Demo.well ["id1"] (Some "hi") "audio_files" false 0
        Demo.fresh =
      (t ++ [Print [Lit "Processing complete!"]], w',
       Ret (all_video_dfs, failed_videos))
    ∧ (∀ id, id ∈ ["id1"] →
         id ∈ failed_videos ∨ is_Some (all_video_dfs !! id))
    ∧ (∀ id path, all_video_dfs !! id = Some path →
         id ∈ ["id1"] ∧ path = transcript_file_path "audio_files" id).
Proof.
  apply (X15_page_loop Demo.well ["id1"] (Some "hi") "audio_files" false 0
           Demo.fresh).
Defined.

(** ** The file prompt *)

Section Prompt_facts.
Context (E : External).
Implicit Types (w : World (Hidden E)).

Lemma ask_blanks blanks : ∀ lines,
  Forall blank blanks →
  ask_video_ids_file (blanks ++ lines) =
  let '(t, rest, r) := ask_video_ids_file lines in
  ((asked <$> blanks) ++ t, rest, r).
Proof.
  induction blanks as [|b blanks IH]; intros lines Hall.
  - cbn. by destruct (ask_video_ids_file lines) as [[? ?] ?].
  - apply Forall_cons in Hall as [Hb Hall]. cbn [app ask_video_ids_file].
    unfold blank in Hb. rewrite Hb. cbn [Py.truthy].
    rewrite (IH lines Hall).
    by destruct (ask_video_ids_file lines) as [[? ?] ?].
Qed.

Lemma resolve_not_given given w :
  not_given given →
  resolve_video_ids_file E given w = prompt_video_ids_file E w.
Proof. by intros [-> | ->]. Qed.

End Prompt_facts.

(** X16.  The file prompt repeats until it gets a name.  With no input
    file on the command line and answers of ASCII text, blank answers
    are asked again: the first answer that is not blank is returned,
    stripped, and exactly the answers up to it are taken from standard
    input.  When standard input ends after blank answers only, the
    prompt is asked once more and raises the end-of-file error. *)
Theorem X16_file_prompt (E : External) (given : option string)
    (blanks : list string) (w : World (Hidden E)) :
  not_given given →
  Forall (λ line, ascii_only line = true) blanks →
  Forall blank blanks →
  (∀ line rest,
     stdin w = blanks ++ line :: rest →
     ascii_only line = true → ¬ blank line →
     resolve_video_ids_file E given w =
     (asked <$> blanks ++ [line], set_stdin rest w, Ret (Py.strip line)))
  ∧ (stdin w = blanks →
     resolve_video_ids_file E given w =
     ((asked <$> blanks)
        ++ [Input file_prompt (Raised "EOF when reading a line")],
      set_stdin [] w, Raise "EOF when reading a line")).
Proof.
  intros Hgiven _ Hblanks. rewrite (resolve_not_given E given w Hgiven).
  unfold prompt_video_ids_file. split.
  - intros line rest -> _ Hline. rewrite (ask_blanks blanks _ Hblanks).
    cbn [ask_video_ids_file]. unfold blank in Hline.
    destruct (Py.strip line) as [|c s] eqn:Hs; [done|].
    cbn [Py.truthy]. by rewrite fmap_app.
  - intros ->. rewrite <- (app_nil_r blanks) at 1.
    by rewrite (ask_blanks blanks _ Hblanks).
Qed.

Lemma X16_file_prompt_witness :
  resolve_video_ids_file Demo.well None
    (mkWorld ∅ ["  "; " ids.txt"; "x"] 0%nat)
  = ([asked "  "; asked " ids.txt"],
     set_stdin ["x"] (mkWorld ∅ ["  "; " ids.txt"; "x"] 0%nat),
     Ret "ids.txt").
Proof.
  apply (proj1 (X16_file_prompt Demo.well None ["  "]
                  (mkWorld ∅ ["  "; " ids.txt"; "x"] 0%nat)
                  (or_introl eq_refl)
                  ltac:(by repeat constructor)
                  ltac:(by repeat constructor))
           " ids.txt" ["x"]).
  - reflexivity.
  - reflexivity.
  - unfold blank. vm_compute. discriminate.
Defined.

(** ** The three paths of an identifier *)

Lemma os_path_join_stem a b :
  ∃ stem, ∀ suffix, Py.truthy suffix = true →
    Py.startswith suffix "/" = false →
    Py.os_path_join a (b +:+ suffix) = stem +:+ suffix.
Proof.
  destruct (Py.startswith b "/") eqn:Hb.
  - exists b. intros suffix Hs Hn. unfold Py.os_path_join.
    destruct b as [|c b]; [done|]. by rewrite startswith_append, Hb.
  - assert (Hstart : ∀ suffix, Py.startswith suffix "/" = false →
              Py.startswith (b +:+ suffix) "/" = false).
    { intros suffix Hn. destruct b as [|c b]; [done|].
      by rewrite startswith_append. }
    destruct (negb (Py.truthy a) || Py.endswith a "/") eqn:Hsep.
    + exists (a +:+ b). intros suffix Hs Hn. unfold Py.os_path_join.
      by rewrite (Hstart suffix Hn), Hsep, string_app_assoc.
    + exists (a +:+ "/" +:+ b). intros suffix Hs Hn. unfold Py.os_path_join.
      rewrite (Hstart suffix Hn), Hsep.
      by rewrite !string_app_assoc.
Qed.

(** X17.  One stem for the three paths.  For any output path and
    identifier there is one stem such that the output template handed
    to the downloader is the stem with [.%(ext)s], the audio path looked
    up before the download and returned after it is the stem with
    [.mp3], and the transcript path is the stem with
    [_transcription.txt]. *)
Theorem X17_one_stem (output_path video_id : string) :
  ∃ stem,
    outtmpl (make_ydl_opts output_path video_id) = stem +:+ ".%(ext)s"
    ∧ audio_file_path output_path video_id = stem +:+ ".mp3"
    ∧ transcript_file_path output_path video_id =
        stem +:+ "_transcription.txt".
Proof.
  destruct (os_path_join_stem output_path video_id) as [stem Hstem].
  exists stem. unfold make_ydl_opts, audio_file_path, transcript_file_path.
  cbn [outtmpl]. by rewrite !Hstem.
Qed.

(** ** File names from titles *)

Section Title_facts.
Import Title.
Implicit Types (s : Utf8.text) (c : Z).

Lemma squeeze_single_spaced s : ∀ b, single_spaced b (squeeze b s).
Proof.
  induction s as [|c s IH]; intros b; [done|]. cbn [squeeze].
  destruct (isspace c) eqn:Hc.
  - destruct b; [apply IH|]. cbn [single_spaced].
    change (isspace space) with true. cbv iota. by repeat split.
  - cbn [single_spaced]. rewrite Hc. apply IH.
Qed.

Lemma single_spaced_fixed s : ∀ b, single_spaced b s → squeeze b s = s.
Proof.
  induction s as [|c s IH]; intros b; [done|]. cbn [single_spaced squeeze].
  destruct (isspace c).
  - intros (-> & -> & Hs). by rewrite (IH true Hs).
  - intros Hs. by rewrite (IH false Hs).
Qed.

Lemma single_spaced_weaken s b : single_spaced b s → single_spaced false s.
Proof.
  destruct s as [|c s]; [done|]. cbn [single_spaced].
  destruct (isspace c); [|done]. by intros (-> & _ & ?).
Qed.

Lemma single_spaced_prefix s1 s2 : ∀ b,
  single_spaced b (s1 ++ s2) → single_spaced b s1.
Proof.
  induction s1 as [|c s1 IH]; intros b; [done|]. cbn [app single_spaced].
  destruct (isspace c).
  - intros (-> & -> & Hs). repeat split; by eapply IH.
  - apply IH.
Qed.

Lemma single_spaced_dots s : ∀ b,
  single_spaced b s → single_spaced b (s ++ dots).
Proof.
  induction s as [|c s IH]; intros b; [done|]. cbn [app single_spaced].
  destruct (isspace c).
  - intros (-> & -> & Hs). repeat split; by apply IH.
  - apply IH.
Qed.

Lemma rstrip_prefix s : ∃ tail, s = rstrip s ++ tail.
Proof.
  induction s as [|c s [tail IH]]; [by exists []|]. cbn [rstrip].
  destruct (rstrip s) as [|c' r'] eqn:Hr.
  - destruct (isspace c); [by eexists (c :: s) | exists s; done].
  - exists tail. cbn. by rewrite IH at 1.
Qed.

Lemma lstrip_single_spaced s : ∀ b,
  single_spaced b s → single_spaced false (lstrip s).
Proof.
  induction s as [|c s IH]; intros b; [done|]. cbn [lstrip].
  destruct (isspace c) eqn:Hc.
  - cbn [single_spaced]. rewrite Hc. intros (_ & _ & Hs). by eapply IH.
  - apply single_spaced_weaken.
Qed.

Lemma strip_single_spaced s b :
  single_spaced b s → single_spaced false (strip s).
Proof.
  intros Hs. unfold strip.
  destruct (rstrip_prefix (lstrip s)) as [tail Htail].
  apply (single_spaced_prefix _ tail). rewrite <- Htail.
  by eapply lstrip_single_spaced.
Qed.

(** *** Lengths *)

Lemma lstrip_length s : (length (lstrip s) ≤ length s)%nat.
Proof.
  induction s as [|c s IH]; [done|]. cbn [lstrip].
  destruct (isspace c); cbn; lia.
Qed.

Lemma rstrip_length s : (length (rstrip s) ≤ length s)%nat.
Proof.
  destruct (rstrip_prefix s) as [tail Htail].
  rewrite Htail at 2. rewrite length_app. lia.
Qed.

Lemma strip_length s : (length (strip s) ≤ length s)%nat.
Proof.
  unfold strip. pose proof (rstrip_length (lstrip s)).
  pose proof (lstrip_length s). lia.
Qed.

(** *** The ends *)

Lemma lstrip_head s c : head (lstrip s) = Some c → isspace c = false.
Proof.
  induction s as [|a s IH]; [done|]. cbn [lstrip].
  destruct (isspace a) eqn:Ha; [done|]. by intros [= <-].
Qed.

Lemma rstrip_head s c :
  head s = Some c → isspace c = false → head (rstrip s) = Some c.
Proof.
  destruct s as [|a s]; [done|]. intros [= ->] Hc. cbn [rstrip].
  destruct (rstrip s); [by rewrite Hc | done].
Qed.

Lemma rstrip_head_inv s c : head (rstrip s) = Some c → head s = Some c.
Proof.
  destruct s as [|a s]; [done|]. cbn [rstrip].
  destruct (rstrip s); [|done]. by destruct (isspace a).
Qed.

Lemma title_rstrip_last s c : last (rstrip s) = Some c → isspace c = false.
Proof.
  induction s as [|a s IH]; [done|]. cbn [rstrip].
  destruct (rstrip s) as [|c' r'] eqn:Hr.
  - destruct (isspace a) eqn:Ha; [done|]. by intros [= <-].
  - change (last (a :: c' :: r')) with (last (c' :: r')). apply IH.
Qed.

Lemma title_strip_trimmed s : trimmed (strip s).
Proof.
  split; intros c Hc.
  - apply rstrip_head_inv in Hc. by eapply lstrip_head.
  - by eapply title_rstrip_last.
Qed.

Lemma title_lstrip_fixed s :
  (∀ c, head s = Some c → isspace c = false) → lstrip s = s.
Proof.
  destruct s as [|a s]; [done|]. intros H. cbn [lstrip].
  by rewrite (H a eq_refl).
Qed.

Lemma title_rstrip_fixed s :
  (∀ c, last s = Some c → isspace c = false) → rstrip s = s.
Proof.
  induction s as [|a s IH]; [done|]. intros H. cbn [rstrip].
  destruct s as [|a' s'].
  - cbn. by rewrite (H a eq_refl).
  - rewrite IH by (intros c Hc; by apply H). done.
Qed.

Lemma title_strip_fixed s : trimmed s → strip s = s.
Proof.
  intros [Hhead Hlast]. unfold strip.
  by rewrite (title_lstrip_fixed s Hhead), (title_rstrip_fixed s Hlast).
Qed.

(** *** The characters *)

Lemma replace_invalid_valid s :
  Forall (λ c, invalid c = false) (replace_invalid s).
Proof.
  apply Forall_fmap, Forall_forall. intros c _. cbn.
  by destruct (invalid c) eqn:Hc.
Qed.

Lemma replace_invalid_fixed s :
  Forall (λ c, invalid c = false) s → replace_invalid s = s.
Proof.
  induction 1 as [|c s Hc _ IH]; [done|].
  unfold replace_invalid in *. cbn. by rewrite Hc, IH.
Qed.

Lemma squeeze_valid s : ∀ b,
  Forall (λ c, invalid c = false) s →
  Forall (λ c, invalid c = false) (squeeze b s).
Proof.
  induction s as [|c s IH]; intros b Hall; [done|].
  apply Forall_cons in Hall as [Hc Hall]. cbn [squeeze].
  destruct (isspace c), b; try (by apply IH);
    constructor; try done; by apply IH.
Qed.

Lemma lstrip_suffix s : ∃ lead, s = lead ++ lstrip s.
Proof.
  induction s as [|c s [lead IH]]; [by exists []|]. cbn [lstrip].
  destruct (isspace c); [|by exists []].
  exists (c :: lead). cbn. by rewrite <- IH.
Qed.

Lemma strip_valid s :
  Forall (λ c, invalid c = false) s →
  Forall (λ c, invalid c = false) (strip s).
Proof.
  intros Hall. unfold strip.
  destruct (lstrip_suffix s) as [lead Hlead].
  destruct (rstrip_prefix (lstrip s)) as [tail Htail].
  rewrite Hlead, Htail in Hall.
  by apply Forall_app in Hall as [_ [? _]%Forall_app].
Qed.

(** The title before [strip()]. *)
Lemma cut_shape title :
  let sanitized := squeeze false (replace_invalid title) in
  let cut := if (100 <? length sanitized)%nat
             then take 97 sanitized ++ dots else sanitized in
  Forall (λ c, invalid c = false) cut
  ∧ (length cut ≤ 100)%nat
  ∧ single_spaced false cut.
Proof.
  intros sanitized cut.
  assert (Hv : Forall (λ c, invalid c = false) sanitized)
    by apply squeeze_valid, replace_invalid_valid.
  assert (Hs : single_spaced false sanitized) by apply squeeze_single_spaced.
  subst cut. destruct (100 <? length sanitized)%nat eqn:Hlen.
  - apply Nat.ltb_lt in Hlen. split; [|split].
    + apply Forall_app. split; [by apply Forall_take | by repeat constructor].
    + rewrite length_app, length_take.
      change (length dots) with 3%nat. lia.
    + apply single_spaced_dots.
      apply (single_spaced_prefix _ (drop 97 sanitized)).
      by rewrite take_drop.
  - apply Nat.ltb_ge in Hlen. done.
Qed.

Lemma sanitize_shape title :
  Forall (λ c, invalid c = false) (sanitize_filename title)
  ∧ (length (sanitize_filename title) ≤ 100)%nat
  ∧ single_spaced false (sanitize_filename title)
  ∧ trimmed (sanitize_filename title).
Proof.
  destruct (cut_shape title) as (Hv & Hl & Hs). cbn zeta in Hv, Hl, Hs.
  unfold sanitize_filename. cbn zeta.
  split; [by apply strip_valid|]. split; [|split].
  - etrans; [apply strip_length | done].
  - by eapply strip_single_spaced.
  - apply title_strip_trimmed.
Qed.

Lemma sanitize_fixed s :
  Forall (λ c, invalid c = false) s → (length s ≤ 100)%nat →
  single_spaced false s → trimmed s →
  sanitize_filename s = s.
Proof.
  intros Hv Hl Hs Ht. unfold sanitize_filename. cbn zeta.
  rewrite (replace_invalid_fixed s Hv), (single_spaced_fixed s false Hs).
  apply Nat.ltb_ge in Hl. rewrite Hl. by apply title_strip_fixed.
Qed.

End Title_facts.

(** X18.  A sanitized title is a tame file name.  Whatever the title,
    the result of [sanitize_filename] holds none of the characters of
    the class of line 46, has at most 100 characters, has no white space
    at either end, and its only white space is single spaces, no two in
    a row. *)
Theorem X18_sanitized_shape (title : Utf8.text) :
  Forall (λ c, Title.invalid c = false) (Title.sanitize_filename title)
  ∧ (length (Title.sanitize_filename title) ≤ 100)%nat
  ∧ Title.single_spaced false (Title.sanitize_filename title)
  ∧ Title.trimmed (Title.sanitize_filename title).
Proof. apply sanitize_shape. Qed.

(** X19.  Sanitizing is idempotent.  A title that has been sanitized is
    left as it is by [sanitize_filename]: applying the function twice
    gives what applying it once gives. *)
Theorem X19_sanitize_idempotent (title : Utf8.text) :
  Title.sanitize_filename (Title.sanitize_filename title) =
  Title.sanitize_filename title.
Proof.
  destruct (sanitize_shape title) as (Hv & Hl & Hs & Ht).
  by apply sanitize_fixed.
Qed.

(** ** The transcript taken *)

Section Api_facts.
Import Api.

Lemma sort_transcripts_filter transcript_list : ∀ manual generated,
  sort_transcripts transcript_list manual generated =
  (manual ++ List.filter (λ t, negb (is_generated t)) transcript_list,
   generated ++ List.filter is_generated transcript_list).
Proof.
  induction transcript_list as [|t rest IH]; intros manual generated.
  - by rewrite !app_nil_r.
  - cbn. destruct (is_generated t); cbn; by rewrite IH, <- app_assoc.
Qed.

Lemma find_head_filter {A} (f : A → bool) l :
  List.find f l = head (List.filter f l).
Proof.
  induction l as [|a l IH]; [done|]. cbn. by destruct (f a).
Qed.

Lemma preferred_sorted transcript_list :
  preferred transcript_list =
  match List.filter (λ t, negb (is_generated t)) transcript_list with
  | selected :: _ => Some selected
  | [] => head (List.filter is_generated transcript_list)
  end.
Proof.
  unfold preferred. rewrite find_head_filter.
  destruct transcript_list as [|t rest]; [done|]. cbn.
  destruct (is_generated t); cbn; [|done].
  by destruct (List.filter (λ t, negb (is_generated t)) rest).
Qed.

Lemma preferred_generated transcript_list selected :
  preferred transcript_list = Some selected →
  is_generated selected = true →
  Forall (λ t, is_generated t = true) transcript_list.
Proof.
  unfold preferred. intros Hsel Hgen.
  destruct (List.find _ transcript_list) as [m|] eqn:Hfind.
  - injection Hsel as ->. apply List.find_some in Hfind as [_ Hm].
    rewrite Hgen in Hm. discriminate Hm.
  - apply Forall_forall. intros t Hin%list_elem_of_In.
    pose proof (List.find_none _ _ Hfind t Hin) as Ht.
    apply negb_false_iff in Ht. exact Ht.
Qed.

End Api_facts.

(** X20.  A manual transcript goes before a generated one.  When
    [fetch_original_transcript] returns, the transcript it fetched is
    the first of the list that is not generated, or the first of the
    list when all are generated; the language code and the flag it
    returns are those of that transcript, so a result flagged as
    generated means the video has no manual transcript.  When it does
    not return it raises, with a message that starts with
    [Error fetching transcript: ]; it never exits. *)
Theorem X20_manual_first {X Data : Type}
    (list_transcripts :
       string → World X → World X * reply (list Api.transcript))
    (fetch : Api.transcript → World X → World X * reply Data)
    (video_id : string) (w : World X) t w' r :
  Api.fetch_original_transcript list_transcripts fetch video_id w
    = (t, w', r) →
  match r with
  | Ret (transcript_data, code, generated) =>
      ∃ w1 transcript_list selected,
        list_transcripts video_id w = (w1, Returned transcript_list)
        ∧ Api.preferred transcript_list = Some selected
        ∧ fetch selected w1 = (w', Returned transcript_data)
        ∧ code = Api.language_code selected
        ∧ generated = Api.is_generated selected
        ∧ (generated = true →
           Forall (λ t, Api.is_generated t = true) transcript_list)
  | Raise e => ∃ cause, e = "Error fetching transcript: " +:+ cause
  | SysExit _ => False
  end.
Proof.
  unfold Api.fetch_original_transcript, Api.get_available_transcripts.
  rewrite try_except_run, bind_run, try_except_run.
  unfold Api.call_library at 1.
  destruct (list_transcripts video_id w) as [w1 [transcript_list|msg]].
  - rewrite sort_transcripts_filter. cbn [app].
    pose proof (preferred_sorted transcript_list) as Hpref.
    pose proof (preferred_generated transcript_list) as Hgen.
    destruct (List.filter (λ t, negb (Api.is_generated t)) transcript_list)
      as [|manual ?];
      [destruct (List.filter Api.is_generated transcript_list)
         as [|generated ?]|].
    + rewrite bind_run. unfold raise. intros [= <- <- <-]. by eexists.
    + rewrite bind_run. unfold mret, M_ret. rewrite bind_run.
      unfold Api.call_library.
      destruct (fetch generated w1) as [w2 [data|msg]] eqn:Hfetch;
        intros [= <- <- <-]; [|by eexists].
      exists w1, transcript_list, generated.
      split; [done|]. split; [exact Hpref|]. split; [done|].
      split; [done|]. split; [done|]. intros Hg. by eapply Hgen.
    + rewrite bind_run. unfold mret, M_ret. rewrite bind_run.
      unfold Api.call_library.
      destruct (fetch manual w1) as [w2 [data|msg]] eqn:Hfetch;
        intros [= <- <- <-]; [|by eexists].
      exists w1, transcript_list, manual.
      split; [done|]. split; [exact Hpref|]. split; [done|].
      split; [done|]. split; [done|]. intros Hg. by eapply Hgen.
  - intros [= <- <- <-]. by eexists.
Qed.

Lemma X20_manual_first_witness :
  ∃ w1 transcript_list selected,
    Api.list_two "id1" Demo.fresh = (w1, Returned transcript_list)
    ∧ Api.preferred transcript_list = Some selected
    ∧ Api.fetch_text selected w1 = (Demo.fresh, Returned "text in hi")
    ∧ "hi" = Api.language_code selected
    ∧ false = Api.is_generated selected
    ∧ (false = true →
       Forall (λ t, Api.is_generated t = true) transcript_list).
Proof.
  apply (X20_manual_first Api.list_two Api.fetch_text "id1" Demo.fresh
           [] Demo.fresh (Ret ("text in hi", "hi", false))).
  vm_compute. reflexivity.
Defined.

(** ** The device and the engine *)

(** X22.  The model goes to the device that was chosen.  In every run of
    Transcription, a model that is loaded is the model [large], on
    [cpu] when CUDA was reported unavailable and on [cuda:] followed by
    the GPU number given, made the current device first, when CUDA was
    reported available.  Inference is called only after the model was
    loaded, on the audio file given, and with no language under
    auto-detection, with the language code given otherwise. *)
Theorem X22_device_and_engine (E : External)
    (audio_file video_id : string) (language_code : option string)
    (output_path : string) (auto_detect_language : bool) (gpu_id : Z)
    (w : World (Hidden E)) t w' r :
  transcribe_audio_and_save_to_txt E audio_file video_id language_code
    output_path auto_detect_language gpu_id w = (t, w', r) →
  (∀ name device reply,
     LoadModel name device reply ∈ t →
     name = "large"
     ∧ ((CudaIsAvailable (Returned false) ∈ t ∧ device = "cpu")
        ∨ (CudaIsAvailable (Returned true) ∈ t
           ∧ CudaSetDevice gpu_id (Returned ()) ∈ t
           ∧ device = "cuda:" +:+ pretty gpu_id)))
  ∧ (∀ audio language reply,
       Transcribe audio language reply ∈ t →
       audio = audio_file
       ∧ language = (if auto_detect_language then None else language_code)
       ∧ ∃ device, LoadModel "large" device (Returned ()) ∈ t).
Proof.
  unfold transcribe_audio_and_save_to_txt. unfold_script.
  repeat innermost_destruct; intros [= <- <- <-];
    (split;
     [ intros name device reply Hin
     | intros audio language reply Hin ]);
    in_events Hin;
    repeat match goal with u : () |- _ => destruct u end;
    first
      [ split; [reflexivity|]; left; split; [find_in_trace | reflexivity]
      | split; [reflexivity|]; right;
        split; [find_in_trace|]; split; [find_in_trace | reflexivity]
      | split; [reflexivity|]; split; [reflexivity|];
        eexists; find_in_trace ].
Qed.

Lemma X22_device_and_engine_witness :
  let run := transcribe_audio_and_save_to_txt Demo.well "audio_files/x.mp3"
               "x" (Some "hi") "audio_files" false 0 More.with_audio in
  (∀ name device reply,
     LoadModel name device reply ∈ run.1.1 →
     name = "large"
     ∧ ((CudaIsAvailable (Returned false) ∈ run.1.1 ∧ device = "cpu")
        ∨ (CudaIsAvailable (Returned true) ∈ run.1.1
           ∧ CudaSetDevice 0 (Returned ()) ∈ run.1.1
           ∧ device = "cuda:" +:+ pretty 0)))
  ∧ (∀ audio language reply,
       Transcribe audio language reply ∈ run.1.1 →
       audio = "audio_files/x.mp3"
       ∧ language = Some "hi"
       ∧ ∃ device, LoadModel "large" device (Returned ()) ∈ run.1.1).
Proof.
  intros run.
  apply (X22_device_and_engine Demo.well "audio_files/x.mp3" "x" (Some "hi")
           "audio_files" false 0 More.with_audio run.1.1 run.1.2 run.2).
  apply run_eta.
Defined.

(** ** A list without identifiers *)

(** X21.  A list without identifiers ends the run before any request.
    With a language named on the command line, when reading the input
    file gives no identifier (the file is empty, holds blank lines only,
    or cannot be read), the preparation of [main] prints the language
    line, what the reading printed and the line that no identifier was
    found, and exits with status 1: the metadata service is not asked
    and the batch is not started. *)
Theorem X21_no_identifiers (E : External) (args : Args)
    (video_ids_file api_key l : string) (w : World (Hidden E)) t1 w1 :
  language args = Some l → l ∈ languages →
  read_video_ids_from_file E video_ids_file w = (t1, w1, Ret []) →
  ∃ mode_line,
    prepare E args video_ids_file api_key w =
    (mode_line :: t1
       ++ [Print [Lit "["; Str (stamp E w1);
                  Lit "] No video IDs found in the file or file is empty."]],
     log_tick E w1, SysExit 1)
    ∧ (mode_line = Print [Lit "Selected: Auto-detect language"]
       ∨ mode_line = Print [Lit "Selected language: "; Str l]).
Proof.
  intros Hl Hin Hread. unfold prepare. rewrite bind_run.
  unfold select_language. rewrite Hl.
  assert (Htruthy : Py.truthy l = true).
  { unfold languages in Hin. in_trace Hin; reflexivity. }
  rewrite Htruthy. cbn [mret M_ret]. rewrite bind_run.
  unfold language_mode. cbn zeta.
  destruct (String.eqb l "Auto-detect language").
  - rewrite bind_run. cbn [print mret M_ret]. rewrite bind_run, Hread.
    rewrite bind_run. cbn [bool_decide]. rewrite bool_decide_eq_true_2 by done.
    rewrite stamped_print_run. cbn.
    eexists. split; [reflexivity|]. by left.
  - rewrite bind_run. cbn [print mret M_ret]. rewrite bind_run, Hread.
    rewrite bind_run. rewrite bool_decide_eq_true_2 by done.
    rewrite stamped_print_run. cbn.
    eexists. split; [reflexivity|]. by right.
Qed.

Lemma X21_no_identifiers_witness :
  ∃ mode_line,
    prepare Demo.well Demo.command_line "audio_files" "key" Demo.with_list =
    (mode_line :: [Print [Lit "["; Str "0";
                          Lit "] Error reading video IDs file: ";
                          Str "[Errno 21] Is a directory: 'audio_files'"]]
       ++ [Print [Lit "["; Str "1";
                  Lit "] No video IDs found in the file or file is empty."]],
     log_tick Demo.well (log_tick Demo.well Demo.with_list), SysExit 1)
    ∧ (mode_line = Print [Lit "Selected: Auto-detect language"]
       ∨ mode_line = Print [Lit "Selected language: "; Str "Hindi"]).
Proof.
  apply (X21_no_identifiers Demo.well Demo.command_line "audio_files" "key"
           "Hindi" Demo.with_list
           [Print [Lit "["; Str "0"; Lit "] Error reading video IDs file: ";
                   Str "[Errno 21] Is a directory: 'audio_files'"]]
           (log_tick Demo.well Demo.with_list)).
  - reflexivity.
  - unfold languages. find_in_trace.
  - vm_compute. reflexivity.
Defined.
